(** * print-webapp: page selection, N-up layout and the duplex job workflow

    A shallow embedding of [backend/src/services/pdf-processor.ts],
    [backend/src/services/cups-client.ts], the routes of
    [backend/src/server.ts], the calls of [frontend/src/services/api.ts]
    and the copies field of [frontend/src/components/PrintSettings.tsx],
    with the properties of the specification proved (or refuted) on it.

    Conventions.
    - A JavaScript string is the list of its UTF-16 code units ([jsstring]).
    - A JavaScript number that the page arithmetic handles is [NaN] or an
      integer ([number]).  Integers of magnitude below 2^53 are exact in
      IEEE doubles, and a page count is an array length; [parseInt] keeps
      the exact integer where the engine rounds to the nearest double (or to
      Infinity), which changes no comparison against a page count.  Where
      the number read is stored, in the copies field, the model stops at
      2^53.
    - Page geometry is computed in [Q]: every finite double is a rational,
      the rounding of the floating-point operations is not modelled.
    - A path of the file system holds a file or a directory; a document is
      the list of its pages, and saving one without pages gives it a blank
      A4 page, as pdf-lib does.
    - A request is served alone, from its first statement to its answer:
      what requests in flight do to each other is not modelled. *)

From Stdlib Require Import ZArith QArith Qminmax Qround Lia Lqa List Sorted Permutation.
From Stdlib Require Import Strings.Ascii Strings.String DecimalString.
From stdpp Require Import base option list gmap.
From Equations Require Import Equations.
From Stdlib Require DecimalPos.
Import ListNotations.

Local Open Scope Z_scope.

(** ** JavaScript strings *)

Module JS.

(** A string is a sequence of UTF-16 code units. *)
Definition jsstring := list N.

(** The code units of an ASCII literal. *)
Definition str (s : String.string) : jsstring :=
  map Ascii.N_of_ascii (String.list_ascii_of_string s).
Arguments str s%_string_scope.

(** ECMAScript [WhiteSpace] and [LineTerminator] code points, the set that
    [String.prototype.trim] and [parseInt] strip. *)
Definition white_space_code_units : list N :=
  [ 0x0009; 0x000A; 0x000B; 0x000C; 0x000D; 0x0020; 0x00A0; 0x1680;
    0x2000; 0x2001; 0x2002; 0x2003; 0x2004; 0x2005; 0x2006; 0x2007;
    0x2008; 0x2009; 0x200A; 0x2028; 0x2029; 0x202F; 0x205F; 0x3000;
    0xFEFF ]%N.

Definition is_white_space (c : N) : bool :=
  existsb (N.eqb c) white_space_code_units.

Fixpoint trimStart (s : jsstring) : jsstring :=
  match s with
  | c :: s' => if is_white_space c then trimStart s' else s
  | [] => []
  end.

Definition trimEnd (s : jsstring) : jsstring := rev (trimStart (rev s)).

(** [s.trim()] *)
Definition trim (s : jsstring) : jsstring := trimEnd (trimStart s).

(** [s.includes(c)] for a one-unit needle. *)
Definition includes (c : N) (s : jsstring) : bool := existsb (N.eqb c) s.

(** [s.split(sep)] for a one-unit separator: always at least one piece,
    [''.split(',')] is [['']]. *)
Fixpoint split (sep : N) (s : jsstring) : list jsstring :=
  match s with
  | [] => [[]]
  | c :: s' =>
      if N.eqb c sep then [] :: split sep s'
      else match split sep s' with
           | w :: ws => (c :: w) :: ws
           | [] => [[c]]
           end
  end.

Definition comma : N := 44%N.
Definition hyphen : N := 45%N.
Definition plus_sign : N := 43%N.

(** ** Numbers *)

Inductive number :=
| NaN
| Num (z : Z).

(** [a <= b]: false as soon as one side is NaN. *)
Definition le (a b : number) : bool :=
  match a, b with
  | Num x, Num y => x <=? y
  | _, _ => false
  end.

(** [a >= b] *)
Definition ge (a b : number) : bool := le b a.

(** [Math.min(a, b)] *)
Definition Math_min (a b : number) : number :=
  match a, b with
  | Num x, Num y => Num (Z.min x y)
  | _, _ => NaN
  end.

(** [i++] *)
Definition incr (a : number) : number :=
  match a with
  | Num x => Num (x + 1)
  | NaN => NaN
  end.

(** The value of a code unit as a digit of the given radix. *)
Definition digit_value (radix : Z) (c : N) : option Z :=
  let c := Z.of_N c in
  let v := if (48 <=? c) && (c <=? 57) then Some (c - 48)
           else if (97 <=? c) && (c <=? 122) then Some (c - 87)
           else if (65 <=? c) && (c <=? 90) then Some (c - 55)
           else None in
  match v with
  | Some d => if d <? radix then Some d else None
  | None => None
  end.

(** The longest prefix of radix digits, as digit values. *)
Fixpoint leading_digits (radix : Z) (s : jsstring) : list Z :=
  match s with
  | c :: s' =>
      match digit_value radix c with
      | Some d => d :: leading_digits radix s'
      | None => []
      end
  | [] => []
  end.

Definition digits_value (radix : Z) (ds : list Z) : Z :=
  fold_left (fun acc d => acc * radix + d) ds 0.

(** [parseInt(s)] with the radix left undefined (ECMA-262, 19.2.5): strip
    leading white space, read a sign, read a [0x]/[0X] prefix, take the
    longest run of digits; NaN when the run is empty.  Minus zero is
    identified with zero, and the result is the integer read: the rounding
    to a double, which sets in above 2^53, is not modelled. *)
Definition parseInt (s : jsstring) : number :=
  let s1 := trimStart s in
  let '(sign, s2) :=
    match s1 with
    | c :: r => if N.eqb c hyphen then (-1, r)
                else if N.eqb c plus_sign then (1, r)
                else (1, s1)
    | [] => (1, s1)
    end in
  let '(radix, s3) :=
    match s2 with
    | 48%N :: x :: r => if N.eqb x 120 || N.eqb x 88 then (16, r) else (10, s2)
    | _ => (10, s2)
    end in
  match leading_digits radix s3 with
  | [] => NaN
  | ds => Num (sign * digits_value radix ds)
  end.

(** [`${n}`] for an integer [n]: its decimal digits. *)
Definition toString (n : Z) : jsstring :=
  str (DecimalString.NilZero.string_of_int (Z.to_int n)).

(** [!s] is false exactly on the non-empty strings. *)
Definition truthy (s : jsstring) : bool :=
  match s with
  | [] => false
  | _ :: _ => true
  end.

End JS.

Import JS.

(** ** Shared types ([backend/src/types/index.ts]) *)

Module Types.

Inductive Layout := L1up | L2up | L4up.

(** The string of a layout, as in [`Creating ${layout} layout...`]. *)
Definition layout_name (l : Layout) : jsstring :=
  match l with
  | L1up => str "1-up"
  | L2up => str "2-up"
  | L4up => str "4-up"
  end.

Inductive OddEven := Odd | Even.

Definition oddEven_name (t : OddEven) : jsstring :=
  match t with
  | Odd => str "odd"
  | Even => str "even"
  end.

Record PrintSettings := {
  duplex : bool;
  layout : Layout;
  pageRange : option jsstring;
  copies : option Z
}.

(** The body of [POST /api/print].  An absent [filename] or [printerName]
    is the empty string: the handlers only test them for truthiness. *)
Record PrintRequest := {
  filename : jsstring;
  settings : option PrintSettings;
  printerName : jsstring
}.

Inductive Status :=
| pending
| processing
| completed
| failed
| awaiting_even_pages.

Record PrintJob := {
  id : jsstring;
  status : Status;
  message : option jsstring;
  totalPages : option Z;
  currentStep : option OddEven
}.

End Types.

Import Types.

(** ** Documents, files and the means of the process *)

Module Runtime.

(** What [drawPage] records on a sheet: the embedded page and its box. *)
Record Drawn (P : Type) := {
  drawn_page : P;
  drawn_x : Q;
  drawn_y : Q;
  drawn_width : Q;
  drawn_height : Q
}.
Arguments drawn_page {P}.
Arguments drawn_x {P}.
Arguments drawn_y {P}.
Arguments drawn_width {P}.
Arguments drawn_height {P}.

(** A page of a PDF: a page of some source with its content stream, or a
    sheet on which embedded pages were drawn. *)
#[warnings="-register-all"] Inductive Page :=
| SourcePage (width height : Q) (content : N)
| Sheet (width height : Q) (draws : list (Drawn Page)).

Definition page_width (p : Page) : Q :=
  match p with
  | SourcePage w _ _ => w
  | Sheet w _ _ => w
  end.

Definition page_height (p : Page) : Q :=
  match p with
  | SourcePage _ h _ => h
  | Sheet _ h _ => h
  end.

Definition PDFDocument := list Page.

(** What a path of the file system holds: a file, whose bytes are the
    serialization of a document or anything that [PDFDocument.load]
    rejects, or a directory. *)
Inductive FileData :=
| PdfBytes (doc : PDFDocument)
| OtherBytes (raw : list N)
| Directory.

(** The Print-Job message handed to the [ipp] library. *)
Record PrintJobMsg := {
  requesting_user_name : jsstring;
  job_name : jsstring;
  document_format : jsstring;
  msg_copies : Z;
  data : FileData
}.

(** What the callback of [printer.execute] receives: an error, or a
    response whose job attributes may lack [job-id] and [job-uri]. *)
Inductive IppReply :=
| IppError (err : jsstring)
| IppResponse (job_id : option Z) (job_uri : jsstring).

(** What the process reaches outside itself: Node's [path] module, the
    directories and the spooler of its environment, the spooler's answer
    to the n-th Print-Job message, the n-th reading of the clock and the
    n-th random suffix. *)
Record Platform := {
  path_join : jsstring → jsstring → jsstring;
  path_basename : jsstring → jsstring → jsstring;
  UPLOAD_DIR : jsstring;
  TEMP_DIR : jsstring;
  CUPS_URL : jsstring;
  CUPS_PRINTER_NAME : jsstring;
  ipp_execute : nat → jsstring → PrintJobMsg → IppReply;
  clock : nat → Z;
  random36 : nat → jsstring
}.

(** The mutable state: the job table of [server.ts], the file system, the
    Print-Job messages sent so far (printer URI and message), and how many
    times the clock and the random generator were read. *)
Record World := {
  printJobs : gmap jsstring PrintJob;
  files : gmap jsstring FileData;
  ipp_sent : list (jsstring * PrintJobMsg);
  readings : nat
}.

(** How an asynchronous computation ends: with a value, with an exception,
    or never (a promise that is neither resolved nor rejected). *)
Inductive outcome (A : Type) :=
| Returned (a : A)
| Thrown (e : jsstring)
| Unsettled.
Arguments Returned {A}.
Arguments Thrown {A}.
Arguments Unsettled {A}.

(** Computations on the world.  An exception keeps the writes made before
    it.  A computation runs from its first statement to its end with no
    other computation in between: what two requests in flight do to each
    other at their [await]s is not modelled, and a property of a handler is
    a property of a request that is served alone. *)
Definition IO (A : Type) := World → outcome A * World.

Definition ret {A} (a : A) : IO A := fun w => (Returned a, w).

Definition throw {A} (e : jsstring) : IO A := fun w => (Thrown e, w).

Definition bind {A B} (m : IO A) (k : A → IO B) : IO B :=
  fun w =>
    match m w with
    | (Returned a, w') => k a w'
    | (Thrown e, w') => (Thrown e, w')
    | (Unsettled, w') => (Unsettled, w')
    end.

(** [try { m } catch (error) { h }] *)
Definition try_catch {A} (m : IO A) (h : jsstring → IO A) : IO A :=
  fun w =>
    match m w with
    | (Thrown e, w') => h e w'
    | r => r
    end.

(** A computation without effect that may throw. *)
Definition lift {A} (o : outcome A) : IO A := fun w => (o, w).

(** Exceptions alone, for the code that touches no state. *)
#[global] Instance outcome_ret : MRet outcome := @Returned.
#[global] Instance outcome_bind : MBind outcome := fun A B k o =>
  match o with
  | Returned a => k a
  | Thrown e => Thrown e
  | Unsettled => Unsettled
  end.

#[global] Instance IO_ret : MRet IO := @ret.
#[global] Instance IO_bind : MBind IO := fun A B k m => bind m k.

(** [fs.pathExists]: true of a file and of a directory. *)
Definition pathExists (path : jsstring) : IO bool :=
  fun w => (Returned (bool_decide (is_Some (files w !! path))), w).

(** [fs.readFile]: the bytes of a file; a directory cannot be read. *)
Definition readFile (path : jsstring) : IO FileData :=
  fun w =>
    match files w !! path with
    | Some Directory =>
        (Thrown (str "EISDIR: illegal operation on a directory, read"), w)
    | Some d => (Returned d, w)
    | None => (Thrown (str "ENOENT: no such file or directory"), w)
    end.

(** [fs.writeFile], on a path that holds no directory: the scratch paths
    that the processor writes are taken to hold files or nothing. *)
Definition writeFile (path : jsstring) (d : FileData) : IO unit :=
  fun w =>
    (Returned tt,
     {| printJobs := printJobs w;
        files := <[path := d]> (files w);
        ipp_sent := ipp_sent w;
        readings := readings w |}).

(** [printJobs.set(jobId, job)] *)
Definition printJobs_set (jobId : jsstring) (job : PrintJob) : IO unit :=
  fun w =>
    (Returned tt,
     {| printJobs := <[jobId := job]> (printJobs w);
        files := files w;
        ipp_sent := ipp_sent w;
        readings := readings w |}).

(** [printJobs.get(jobId)] *)
Definition printJobs_get (jobId : jsstring) : IO (option PrintJob) :=
  fun w => (Returned (printJobs w !! jobId), w).

(** [printer.execute('Print-Job', msg, callback)]: the message leaves the
    process and the spooler's answer comes back. *)
Definition execute_Print_Job (host : Platform) (uri : jsstring)
  (msg : PrintJobMsg) : IO IppReply :=
  fun w =>
    (Returned (ipp_execute host (List.length (ipp_sent w)) uri msg),
     {| printJobs := printJobs w;
        files := files w;
        ipp_sent := ipp_sent w ++ [(uri, msg)];
        readings := readings w |}).

Definition tick (w : World) : World :=
  {| printJobs := printJobs w;
     files := files w;
     ipp_sent := ipp_sent w;
     readings := S (readings w) |}.

(** [Date.now()] *)
Definition Date_now (host : Platform) : IO Z :=
  fun w => (Returned (clock host (readings w)), tick w).

(** [Math.random().toString(36).substr(2, 9)] *)
Definition Math_random_36 (host : Platform) : IO jsstring :=
  fun w => (Returned (random36 host (readings w)), tick w).

End Runtime.

Import Runtime.

(** ** PDFProcessor *)

Module PDFProcessor.

(** [if (i >= 1) pages.push(i)] *)
Definition push_if_page (i : number) (pages : list Z) : list Z :=
  match i with
  | Num z => if ge i (Num 1) then pages ++ [z] else pages
  | NaN => pages
  end.

(** A value together with the equation that names it, so that a loop
    test stays available to the termination proof. *)
Definition inspect {A : Type} (x : A) : {y : A | x = y} := exist _ x eq_refl.

(** What is left of the loop [for (i = ...; i <= bound; i++)]. *)
Definition trips (i bound : number) : nat :=
  match i, bound with
  | Num x, Num y => Z.to_nat (y + 1 - x)
  | _, _ => 0%nat
  end.

(** [for (let i = start; i <= bound; i++) { if (i >= 1) pages.push(i); }] *)
Equations? range_loop (i bound : number) (pages : list Z) : list Z
  by wf (trips i bound) lt :=
  range_loop i bound pages with inspect (le i bound) := {
    | exist _ true Hle => range_loop (incr i) bound (push_if_page i pages)
    | exist _ false _ => pages }.
Proof.
  destruct i as [|x], bound as [|y]; simpl in *; try discriminate.
  apply Z.leb_le in Hle. lia.
Qed.

(** One iteration of [for (const part of parts)] in [parsePageRange]:
    the array [pages] after the body has run on [part].  A NaN is never
    pushed: both guards are false on it. *)
Definition parse_part (totalPages : Z) (pages : list Z) (part : jsstring)
  : list Z :=
  if includes hyphen part then
    let nums := map (fun n => parseInt (trim n)) (split hyphen part) in
    let start := nth 0 nums NaN in
    let end_ := nth 1 nums NaN in
    range_loop start (Math_min end_ (Num totalPages)) pages
  else
    let pageNum := parseInt part in
    match pageNum with
    | Num z =>
        if ge pageNum (Num 1) && le pageNum (Num totalPages)
        then pages ++ [z] else pages
    | NaN => pages
    end.

(** [[...new Set(pages)]]: the distinct values in order of first insertion. *)
Definition Set_values (pages : list Z) : list Z :=
  fold_left (fun seen x => if existsb (Z.eqb x) seen then seen else seen ++ [x])
            pages [].

(** [arr.sort((a, b) => a - b)]: a stable sort by the numeric order. *)
Fixpoint sort_insert (x : Z) (l : list Z) : list Z :=
  match l with
  | [] => [x]
  | y :: l' => if x <? y then x :: l else y :: sort_insert x l'
  end.

Definition sort_numeric (l : list Z) : list Z :=
  fold_left (fun acc x => sort_insert x acc) l [].

(** [range.split(',').map(p => p.trim())] *)
Definition parts_of (range : jsstring) : list jsstring :=
  map trim (split comma range).

(** [parsePageRange(range, totalPages)] *)
Definition parsePageRange (range : jsstring) (totalPages : Z) : list Z :=
  let pages := fold_left (parse_part totalPages) (parts_of range) [] in
  sort_numeric (Set_values pages).

(** [PDFDocument.load(await fs.readFile(path))] *)
Definition load (path : jsstring) : IO PDFDocument :=
  pdfBytes ← readFile path;
  match pdfBytes with
  | PdfBytes pdfDoc => mret pdfDoc
  | _ => throw (str "Failed to parse PDF document")
  end.

(** [getPageCount(pdfPath)] *)
Definition getPageCount (pdfPath : jsstring) : IO Z :=
  pdfDoc ← load pdfPath;
  mret (Z.of_nat (List.length pdfDoc)).

(** [Array.from({ length: totalPages }, (_, i) => i + 1)] *)
Definition all_pages (totalPages : Z) : list Z :=
  map (fun i => Z.of_nat i + 1) (seq 0 (Z.to_nat totalPages)).

(** The pages to include, as [extractOddEvenPages] and [createNUpLayout]
    determine them: [if (pageRange) ... else ...], where an empty string
    is as false as an absent one. *)
Definition pagesToProcess (pageRange : option jsstring) (totalPages : Z)
  : list Z :=
  match pageRange with
  | Some range =>
      if truthy range then parsePageRange range totalPages
      else all_pages totalPages
  | None => all_pages totalPages
  end.

(** The odd/even filter of [extractOddEvenPages]; [%] is the remainder
    that takes the sign of the dividend. *)
Definition filteredPages (totalPages : Z) (pageRange : option jsstring)
  (pageType : OddEven) : list Z :=
  List.filter
    (fun pageNum =>
       match pageType with
       | Odd => Z.rem pageNum 2 =? 1
       | Even => Z.rem pageNum 2 =? 0
       end)
    (pagesToProcess pageRange totalPages).

(** The page of [pdfDoc] at a zero-based index, as [copyPages] and
    [embedPdf] fetch it; an index outside the document throws. *)
Definition page_at (pdfDoc : PDFDocument) (index : Z) : outcome Page :=
  if index <? 0 then Thrown (str "index out of range")
  else match pdfDoc !! Z.to_nat index with
       | Some page => Returned page
       | None => Thrown (str "index out of range")
       end.

(** [for (const pageNum of pages) {
      const [copiedPage] = await newPdfDoc.copyPages(pdfDoc, [pageNum - 1]);
      newPdfDoc.addPage(copiedPage); }] *)
Fixpoint copy_loop (pdfDoc : PDFDocument) (pages : list Z)
  (newPdfDoc : PDFDocument) : outcome PDFDocument :=
  match pages with
  | [] => Returned newPdfDoc
  | pageNum :: rest =>
      copiedPage ← page_at pdfDoc (pageNum - 1);
      copy_loop pdfDoc rest (newPdfDoc ++ [copiedPage])
  end.

(** [path.join(this.tempDir, `${path.basename(inputPath, '.pdf')}-${tag}-${now}.pdf`)] *)
Definition outputPath (host : Platform) (inputPath tag : jsstring) (now : Z)
  : jsstring :=
  path_join host (TEMP_DIR host)
    (path_basename host inputPath (str ".pdf") ++ str "-" ++ tag ++ str "-"
     ++ toString now ++ str ".pdf").

(** [PageSizes.A4], the size of the page that [addPage()] makes. *)
Definition A4_width : Q := 59528 # 100.
Definition A4_height : Q := 84189 # 100.

(** [newPdfDoc.save()], as far as pages go: pdf-lib serializes no document
    without pages, [if (addDefaultPage && this.getPageCount() === 0)
    this.addPage()] gives it one blank A4 page first. *)
Definition save (newPdfDoc : PDFDocument) : PDFDocument :=
  match newPdfDoc with
  | [] => [Sheet A4_width A4_height []]
  | _ :: _ => newPdfDoc
  end.

(** [extractOddEvenPages(inputPath, pageType, pageRange)] *)
Definition extractOddEvenPages (host : Platform) (inputPath : jsstring)
  (pageType : OddEven) (pageRange : option jsstring) : IO jsstring :=
  pdfDoc ← load inputPath;
  let totalPages := Z.of_nat (List.length pdfDoc) in
  newPdfDoc ← lift (copy_loop pdfDoc (filteredPages totalPages pageRange pageType) []);
  now ← Date_now host;
  let out := outputPath host inputPath (oddEven_name pageType) now in
  _ ← writeFile out (PdfBytes (save newPdfDoc));
  mret out.

(** [extractPageRange(inputPath, pageRange)] *)
Definition extractPageRange (host : Platform) (inputPath : jsstring)
  (pageRange : jsstring) : IO jsstring :=
  pdfDoc ← load inputPath;
  let totalPages := Z.of_nat (List.length pdfDoc) in
  newPdfDoc ← lift (copy_loop pdfDoc (parsePageRange pageRange totalPages) []);
  now ← Date_now host;
  let out := outputPath host inputPath (str "range") now in
  _ ← writeFile out (PdfBytes (save newPdfDoc));
  mret out.

(** *** N-up layout *)

Section NUp.

Variable pdfDoc : PDFDocument.
Variable pages : list Z.
Variable layout : Layout.

Definition pagesPerSheet : nat :=
  match layout with
  | L2up => 2
  | _ => 4
  end.

(** A4 in points, landscape. *)
Definition sheetWidth : Q := 842.
Definition sheetHeight : Q := 595.

Definition cols : nat :=
  match layout with
  | L2up => 2
  | _ => 2
  end.

Definition rows : nat :=
  match layout with
  | L2up => 1
  | _ => 2
  end.

Definition of_nat (n : nat) : Q := inject_Z (Z.of_nat n).

Definition cellWidth : Q := (sheetWidth / of_nat cols)%Q.
Definition cellHeight : Q := (sheetHeight / of_nat rows)%Q.

(** The body of the inner loop from [// Calculate position] on: where the
    [j]-th page of a sheet is drawn, and how large.  [0.95] is the
    decimal 95/100. *)
Definition place (j : nat) (embeddedPage : Page) : Drawn Page :=
  let col := (j mod cols)%nat in
  let row := (j / cols)%nat in
  let scale :=
    (Qmin (cellWidth / page_width embeddedPage)
          (cellHeight / page_height embeddedPage) * (95 # 100))%Q in
  let x := (of_nat col * cellWidth
            + (cellWidth - page_width embeddedPage * scale) / 2)%Q in
  let y := (sheetHeight - (of_nat row + 1) * cellHeight
            + (cellHeight - page_height embeddedPage * scale) / 2)%Q in
  {| drawn_page := embeddedPage;
     drawn_x := x;
     drawn_y := y;
     drawn_width := (page_width embeddedPage * scale)%Q;
     drawn_height := (page_height embeddedPage * scale)%Q |}.

(** [newPdfDoc.embedPdf(pdfDoc, [pagesToProcess[i + j] - 1])] *)
Definition embedPdf (k : nat) : outcome Page :=
  match pages !! k with
  | Some pageNum => page_at pdfDoc (pageNum - 1)
  | None => Thrown (str "index out of range")
  end.

(** [for (let j = 0; j < pagesPerSheet && i + j < pagesToProcess.length; j++)]:
    the pages drawn on the sheet that starts at [i]. *)
Equations? cells_loop (i j : nat) (newPage : list (Drawn Page))
  : outcome (list (Drawn Page)) by wf (pagesPerSheet - j)%nat lt :=
  cells_loop i j newPage
    with inspect ((j <? pagesPerSheet)%nat && (i + j <? List.length pages)%nat) := {
    | exist _ true Hlt with embedPdf (i + j) := {
        | Returned embeddedPage =>
            cells_loop i (S j) (newPage ++ [place j embeddedPage])
        | Thrown e => Thrown e
        | Unsettled => Unsettled }
    | exist _ false _ => Returned newPage }.
Proof.
  apply andb_prop in Hlt as [Hj _]. apply Nat.ltb_lt in Hj. lia.
Qed.

(** [for (let i = 0; i < pagesToProcess.length; i += pagesPerSheet)]:
    one sheet per group of pages. *)
Equations? sheets_loop (i : nat) (newPdfDoc : PDFDocument)
  : outcome PDFDocument by wf (List.length pages - i)%nat lt :=
  sheets_loop i newPdfDoc with inspect (i <? List.length pages)%nat := {
    | exist _ true Hlt with cells_loop i 0 [] := {
        | Returned newPage =>
            sheets_loop (i + pagesPerSheet)
              (newPdfDoc ++ [Sheet sheetWidth sheetHeight newPage])
        | Thrown e => Thrown e
        | Unsettled => Unsettled }
    | exist _ false _ => Returned newPdfDoc }.
Proof.
  apply Nat.ltb_lt in Hlt. unfold pagesPerSheet. destruct layout; lia.
Qed.

End NUp.

(** The document that [createNUpLayout] builds, before [save]. *)
Definition compose_NUp (pdfDoc : PDFDocument) (layout : Layout)
  (pageRange : option jsstring) : outcome PDFDocument :=
  let totalPages := Z.of_nat (List.length pdfDoc) in
  sheets_loop pdfDoc (pagesToProcess pageRange totalPages) layout 0 [].

(** [createNUpLayout(inputPath, layout, pageRange)] *)
Definition createNUpLayout (host : Platform) (inputPath : jsstring)
  (layout : Layout) (pageRange : option jsstring) : IO jsstring :=
  pdfDoc ← load inputPath;
  newPdfDoc ← lift (compose_NUp pdfDoc layout pageRange);
  now ← Date_now host;
  let out := outputPath host inputPath (layout_name layout) now in
  _ ← writeFile out (PdfBytes (save newPdfDoc));
  mret out.

End PDFProcessor.

Import PDFProcessor.

(** ** CupsClient ([backend/src/services/cups-client.ts]) *)

Module CupsClient.

Record CupsJob := {
  jobId : Z;
  jobUri : jsstring
}.

(** The callback of [printerObj.execute('Print-Job', ...)]: reject on an
    error and on a missing (or zero) [job-id], resolve otherwise. *)
Definition on_reply (reply : IppReply) : IO CupsJob :=
  match reply with
  | IppError err => throw err
  | IppResponse (Some n) uri =>
      if n =? 0 then throw (str "Failed to get job ID from CUPS response")
      else mret {| jobId := n; jobUri := uri |}
  | IppResponse None _ =>
      throw (str "Failed to get job ID from CUPS response")
  end.

(** [printFile(filePath, printerName, jobName, copies)].  The promise is
    built from an [async] executor: when [fs.readFile] fails inside it,
    nothing resolves or rejects the promise. *)
Definition printFile (host : Platform) (filePath printerName jobName : jsstring)
  (copies : Z) : IO CupsJob :=
  let printer :=
    if truthy printerName then printerName else CUPS_PRINTER_NAME host in
  if truthy printer then
    fun w =>
      match readFile filePath w with
      | (Returned fileBuffer, w1) =>
          let msg := {| requesting_user_name := str "print-web-app";
                        job_name := jobName;
                        document_format := str "application/pdf";
                        msg_copies := copies;
                        data := fileBuffer |} in
          (reply ← execute_Print_Job host
                     (CUPS_URL host ++ str "/printers/" ++ printer) msg;
           on_reply reply) w1
      | (_, w1) => (Unsettled, w1)
      end
  else throw (str "No printer specified").

End CupsClient.

(** ** The server ([backend/src/server.ts]) *)

Module PrintEven.

(** The body of [POST /api/print-even]. *)
Record Body := {
  jobId : jsstring;
  filename : jsstring;
  printerName : jsstring;
  pageRange : option jsstring;
  copies : option Z
}.

End PrintEven.

Module Server.

Inductive Json :=
| ErrorBody (error : jsstring)
| JobBody (jobId : jsstring) (cupsJobId : Z) (status : option PrintJob).

(** [res.status(code).json(body)] *)
Record Response := {
  code : Z;
  body : Json
}.

(** [copies || 1] *)
Definition or_1 (copies : option Z) : Z :=
  match copies with
  | Some c => if c =? 0 then 1 else c
  | None => 1
  end.

Definition is_1up (l : Layout) : bool :=
  match l with
  | L1up => true
  | _ => false
  end.

Definition is_awaiting (s : Status) : bool :=
  match s with
  | awaiting_even_pages => true
  | _ => false
  end.

Section Handlers.

Variable host : Platform.

(** [// Process PDF based on settings]: the file to print, with the job
    entered in the table once the file is ready. *)
Definition process_settings (filePath jobId : jsstring) (st : PrintSettings)
  : IO jsstring :=
  if duplex st then
    processedFilePath ← extractOddEvenPages host filePath Odd (Types.pageRange st);
    _ ← printJobs_set jobId
          {| id := jobId; status := processing;
             message := Some (str "Printing odd pages...");
             totalPages := None; currentStep := Some Odd |};
    mret processedFilePath
  else if negb (is_1up (layout st)) then
    processedFilePath ← createNUpLayout host filePath (layout st) (Types.pageRange st);
    _ ← printJobs_set jobId
          {| id := jobId; status := processing;
             message := Some (str "Creating " ++ layout_name (layout st)
                              ++ str " layout...");
             totalPages := None; currentStep := None |};
    mret processedFilePath
  else
    match Types.pageRange st with
    | Some range =>
        if truthy range then
          processedFilePath ← extractPageRange host filePath range;
          _ ← printJobs_set jobId
                {| id := jobId; status := processing;
                   message := Some (str "Extracting page range...");
                   totalPages := None; currentStep := None |};
          mret processedFilePath
        else
          _ ← printJobs_set jobId
                {| id := jobId; status := processing;
                   message := Some (str "Sending to printer...");
                   totalPages := None; currentStep := None |};
          mret filePath
    | None =>
        _ ← printJobs_set jobId
              {| id := jobId; status := processing;
                 message := Some (str "Sending to printer...");
                 totalPages := None; currentStep := None |};
        mret filePath
    end.

(** [// Update job status] *)
Definition update_status (filePath jobId : jsstring) (st : PrintSettings)
  : IO unit :=
  if duplex st then
    pageCount ← getPageCount filePath;
    printJobs_set jobId
      {| id := jobId; status := awaiting_even_pages;
         message := Some (str "Odd pages sent to printer. Please flip the paper and print even pages.");
         totalPages := Some pageCount; currentStep := Some Even |}
  else
    printJobs_set jobId
      {| id := jobId; status := completed;
         message := Some (str "Print job submitted successfully");
         totalPages := None; currentStep := None |}.

(** [`job-${Date.now()}-${Math.random().toString(36).substr(2, 9)}`] *)
Definition new_jobId : IO jsstring :=
  now ← Date_now host;
  suffix ← Math_random_36 host;
  mret (str "job-" ++ toString now ++ str "-" ++ suffix).

(** The [try] block of [app.post('/api/print', ...)].  The removal of the
    processed file, scheduled for a minute later, is not part of the
    request. *)
Definition print_try (printRequest : PrintRequest) : IO Response :=
    (match settings printRequest with
     | Some st =>
         if truthy (filename printRequest) then
           let filePath :=
             path_join host (UPLOAD_DIR host) (filename printRequest) in
           found ← pathExists filePath;
           if (found : bool) then
             jobId ← new_jobId;
             processedFilePath ← process_settings filePath jobId st;
             cupsJob ← CupsClient.printFile host processedFilePath
                         (printerName printRequest)
                         (str "Print Job - " ++ filename printRequest)
                         (or_1 (Types.copies st));
             _ ← update_status filePath jobId st;
             job ← printJobs_get jobId;
             mret {| code := 200;
                     body := JobBody jobId (CupsClient.jobId cupsJob) job |}
           else
             mret {| code := 404; body := ErrorBody (str "File not found") |}
         else
           mret {| code := 400;
                   body := ErrorBody (str "Missing required fields") |}
     | None =>
         mret {| code := 400;
                 body := ErrorBody (str "Missing required fields") |}
     end).

(** [app.post('/api/print', ...)] *)
Definition post_api_print (printRequest : PrintRequest) : IO Response :=
  try_catch (print_try printRequest)
    (fun error =>
       mret {| code := 500;
               body := ErrorBody (str "Failed to submit print job") |}).

(** The [try] block of [app.post('/api/print-even', ...)]. *)
Definition print_even_try (req : PrintEven.Body) : IO Response :=
    (let jobId := PrintEven.jobId req in
     let filename := PrintEven.filename req in
     if truthy jobId && truthy filename then
       job ← printJobs_get jobId;
       match job with
       | Some j =>
           if is_awaiting (status j) then
             let filePath := path_join host (UPLOAD_DIR host) filename in
             found ← pathExists filePath;
             if (found : bool) then
               processedFilePath ←
                 extractOddEvenPages host filePath Even (PrintEven.pageRange req);
               cupsJob ← CupsClient.printFile host processedFilePath
                           (PrintEven.printerName req)
                           (str "Print Job - " ++ filename ++ str " (Even Pages)")
                           (or_1 (PrintEven.copies req));
               _ ← printJobs_set jobId
                     {| id := jobId; status := completed;
                        message := Some (str "Duplex printing completed");
                        totalPages := None; currentStep := None |};
               job' ← printJobs_get jobId;
               mret {| code := 200;
                       body := JobBody jobId (CupsClient.jobId cupsJob) job' |}
             else
               mret {| code := 404; body := ErrorBody (str "File not found") |}
           else
             mret {| code := 400;
                     body := ErrorBody (str "Invalid job or job not awaiting even pages") |}
       | None =>
           mret {| code := 400;
                   body := ErrorBody (str "Invalid job or job not awaiting even pages") |}
       end
     else
       mret {| code := 400; body := ErrorBody (str "Missing required fields") |}).

(** [app.post('/api/print-even', ...)] *)
Definition post_api_print_even (req : PrintEven.Body) : IO Response :=
  try_catch (print_even_try req)
    (fun error =>
       mret {| code := 500;
               body := ErrorBody (str "Failed to print even pages") |}).

End Handlers.

End Server.

(** ** The client's calls ([frontend/src/services/api.ts]) *)

Module Api.

(** The body that [submitPrintJob(filename, printerName, settings)] posts
    to [/print]. *)
Definition submitPrintJob (filename printerName : jsstring)
  (settings : PrintSettings) : PrintRequest :=
  {| Types.filename := filename;
     Types.settings := Some settings;
     Types.printerName := printerName |}.

(** The body that [printEvenPages(jobId, filename, printerName, copies)]
    posts to [/print-even]: it carries no [pageRange]. *)
Definition printEvenPages (jobId filename printerName : jsstring) (copies : Z)
  : PrintEven.Body :=
  {| PrintEven.jobId := jobId;
     PrintEven.filename := filename;
     PrintEven.printerName := printerName;
     PrintEven.pageRange := None;
     PrintEven.copies := Some copies |}.

End Api.


(** ** Vocabulary of the properties *)

Module Vocabulary.

(** The value of a page number matches the parity. *)
Definition matches (pageType : OddEven) (p : Z) : bool :=
  match pageType with
  | Odd => Z.odd p
  | Even => Z.even p
  end.

(** The set that the selection starts from: the parsed range when a
    range expression is given and not empty, every page otherwise. *)
Definition base_set (pageRange : option jsstring) (totalPages : Z) : list Z :=
  match pageRange with
  | Some (c :: range) => parsePageRange (c :: range) totalPages
  | _ => seqZ 1 totalPages
  end.

(** [p] is the page of [pdfDoc] that the 1-based number [n] names. *)
Definition names (pdfDoc : PDFDocument) (p : Page) (n : Z) : Prop :=
  pdfDoc !! Z.to_nat (n - 1) = Some p.

(** The sheet on which the pages [ps] are drawn, in this order. *)
Definition sheet_of (layout : Layout) (ps : list Page) : Page :=
  Sheet sheetWidth sheetHeight (imap (place layout) ps).

(** The cells of a sheet that carry a page, and those left blank. *)
Definition populated (sheet : Page) : nat :=
  match sheet with
  | Sheet _ _ draws => List.length draws
  | SourcePage _ _ _ => 0
  end.

Definition blank (layout : Layout) (sheet : Page) : nat :=
  (pagesPerSheet layout - populated sheet)%nat.

(** The pages drawn on a sheet, in the order of drawing. *)
Definition drawn_pages (sheet : Page) : list Page :=
  match sheet with
  | Sheet _ _ draws => map drawn_page draws
  | SourcePage _ _ _ => []
  end.

(** The world after the processor wrote an artifact: the clock was read
    once for its name. *)
Definition written (out : jsstring) (doc : PDFDocument) (w : World) : World :=
  {| printJobs := printJobs w;
     files := <[out := PdfBytes doc]> (files w);
     ipp_sent := ipp_sent w;
     readings := S (readings w) |}.

(** The world after a Print-Job message left the process. *)
Definition sent (uri : jsstring) (msg : PrintJobMsg) (w : World) : World :=
  {| printJobs := printJobs w;
     files := files w;
     ipp_sent := ipp_sent w ++ [(uri, msg)];
     readings := readings w |}.

(** The world after [printJobs.set(jobId, job)]. *)
Definition entered (jobId : jsstring) (job : PrintJob) (w : World) : World :=
  {| printJobs := <[jobId := job]> (printJobs w);
     files := files w;
     ipp_sent := ipp_sent w;
     readings := readings w |}.

(** The printer that [printFile] addresses, and its URI. *)
Definition printer_of (host : Platform) (printerName : jsstring) : jsstring :=
  if truthy printerName then printerName else CUPS_PRINTER_NAME host.

Definition printer_uri (host : Platform) (printerName : jsstring) : jsstring :=
  CUPS_URL host ++ str "/printers/" ++ printer_of host printerName.

(** The Print-Job message that [printFile] builds. *)
Definition print_job_msg (jobName : jsstring) (copies : Z) (d : FileData)
  : PrintJobMsg :=
  {| requesting_user_name := str "print-web-app";
     job_name := jobName;
     document_format := str "application/pdf";
     msg_copies := copies;
     data := d |}.

(** The settings ask for a new document: duplex, an N-up layout, or a
    range that is not empty. *)
Definition needs_processing (st : PrintSettings) : bool :=
  duplex st
  || negb (Server.is_1up (layout st))
  || match pageRange st with
     | Some range => truthy range
     | None => false
     end.

(** The path holds a document that [PDFDocument.load] reads. *)
Definition is_pdf (fd : FileData) : bool :=
  match fd with
  | PdfBytes _ => true
  | _ => false
  end.

(** The job that a spooler's answer acknowledges, when it names one. *)
Definition job_of_reply (reply : IppReply) : option CupsClient.CupsJob :=
  match reply with
  | IppResponse (Some n) uri =>
      if n =? 0 then None
      else Some {| CupsClient.jobId := n; CupsClient.jobUri := uri |}
  | _ => None
  end.

(** The answers of the [catch] blocks. *)
Definition print_failure : Server.Response :=
  {| Server.code := 500;
     Server.body := Server.ErrorBody (str "Failed to submit print job") |}.

Definition print_even_failure : Server.Response :=
  {| Server.code := 500;
     Server.body := Server.ErrorBody (str "Failed to print even pages") |}.

(** The identifier of the job of a submission that starts in [w]. *)
Definition jobId_in (host : Platform) (w : World) : jsstring :=
  str "job-" ++ toString (clock host (readings w)) ++ str "-"
  ++ random36 host (S (readings w)).

(** The duplex submission as the specification words it: what a
    submission answered with success has sent is the document of the odd
    pages of the base set. *)
Definition duplex_submits_odd_pages : Prop :=
  ∀ host req st w resp w',
    settings req = Some st →
    duplex st = true →
    Server.post_api_print host req w = (Returned resp, w') →
    Server.code resp = 200 →
    ∃ doc oddDoc uri msg,
      files w !! path_join host (UPLOAD_DIR host) (filename req)
      = Some (PdfBytes doc)
      ∧ Forall2 (names doc) oddDoc
          (List.filter Z.odd
             (base_set (pageRange st) (Z.of_nat (List.length doc))))
      ∧ last (ipp_sent w') = Some (uri, msg)
      ∧ data msg = PdfBytes oddDoc.

(** The failure policy as the specification words it: a submission that
    ends in a server error leaves every job it created marked [failed]. *)
Definition failure_marks_failed : Prop :=
  ∀ host req w resp w' jobId job,
    Server.post_api_print host req w = (Returned resp, w') →
    Server.code resp = 500 →
    printJobs w !! jobId = None →
    printJobs w' !! jobId = Some job →
    status job = failed.

End Vocabulary.

Import Vocabulary.

(** ** A scenario: one four-page upload, one printer *)

Module Scenario.

(** [path.basename(p, ext)] for plain slash-separated paths: the
    extension goes when the name ends in it and is more than it. *)
Definition basename (p ext : jsstring) : jsstring :=
  let name := List.last (split 47 p) [] in
  let stem := (List.length name - List.length ext)%nat in
  if bool_decide (drop stem name = ext ∧ name ≠ ext)
  then take stem name else name.

(** A host whose spooler answers every Print-Job with [reply]. *)
Definition host (reply : IppReply) : Platform :=
  {| path_join := λ dir name, dir ++ str "/" ++ name;
     path_basename := basename;
     UPLOAD_DIR := str "uploads";
     TEMP_DIR := str "temp";
     CUPS_URL := str "http://localhost:631";
     CUPS_PRINTER_NAME := str "";
     ipp_execute := λ _ _ _, reply;
     clock := λ n, 1700000000000 + Z.of_nat n;
     random36 := λ _, str "k3x9q2m1z" |}.

Definition accepted : IppReply :=
  IppResponse (Some 7) (str "ipp://localhost:631/jobs/7").

Definition refused : IppReply := IppError (str "connect ECONNREFUSED").

(** An A4 portrait page. *)
Definition page (n : N) : Page := SourcePage 595 842 n.

Definition world : World :=
  {| printJobs := ∅;
     files := {[ str "uploads/doc.pdf" := PdfBytes [page 1; page 2; page 3; page 4] ]};
     ipp_sent := [];
     readings := 0 |}.

(** Duplex, pages 1-2, with a layout that duplex ignores. *)
Definition duplex_settings : PrintSettings :=
  {| duplex := true; layout := L4up;
     pageRange := Some (str "1-2"); copies := Some 1 |}.

Definition duplex_request : PrintRequest :=
  Api.submitPrintJob (str "doc.pdf") (str "HP") duplex_settings.

Definition after_odd : outcome Server.Response * World :=
  Server.post_api_print (host accepted) duplex_request world.

Definition jobId : jsstring := str "job-1700000000000-k3x9q2m1z".

Definition awaiting : PrintJob :=
  {| id := jobId; status := awaiting_even_pages;
     message := Some (str "Odd pages sent to printer. Please flip the paper and print even pages.");
     totalPages := Some 4; currentStep := Some Even |}.

Definition odd_response : Server.Response :=
  {| Server.code := 200; Server.body := Server.JobBody jobId 7 (Some awaiting) |}.

(** The resume call of the client, as [handlePrintEven] issues it. *)
Definition resume_request : PrintEven.Body :=
  Api.printEvenPages jobId (str "doc.pdf") (str "HP") 1.

Definition after_even : outcome Server.Response * World :=
  Server.post_api_print_even (host accepted) resume_request (snd after_odd).

(** A plain submission to a spooler that refuses it. *)
Definition plain_request : PrintRequest :=
  Api.submitPrintJob (str "doc.pdf") (str "HP")
    {| duplex := false; layout := L1up; pageRange := None; copies := None |}.

Definition after_refusal : outcome Server.Response * World :=
  Server.post_api_print (host refused) plain_request world.

End Scenario.

(** ** The other routes and the timers of [server.ts] *)

Module Upload.

(** [req.file], as multer leaves it once the file is stored. *)
Record MulterFile := {
  path : jsstring;
  filename : jsstring;
  originalname : jsstring;
  size : Z
}.

Record UploadResponse := {
  res_filename : jsstring;
  originalName : jsstring;
  res_size : Z;
  pageCount : Z
}.

Inductive Answer :=
| Uploaded (response : UploadResponse)
| Failed (code : Z) (error : jsstring).

(** [app.post('/api/upload', upload.single('file'), ...)], from the point
    where multer hands over. *)
Definition post_api_upload (file : option MulterFile) : IO Answer :=
  try_catch
    (match file with
     | None => mret (Failed 400 (str "No file uploaded"))
     | Some f =>
         count ← getPageCount (path f);
         mret (Uploaded {| res_filename := filename f;
                           originalName := originalname f;
                           res_size := size f;
                           pageCount := count |})
     end)
    (fun error => mret (Failed 500 (str "Failed to process uploaded file"))).

End Upload.

Module Routes.

Inductive StatusAnswer :=
| StatusJob (job : PrintJob)
| StatusError (code : Z) (error : jsstring).

(** [app.get('/api/status/:jobId', ...)] *)
Definition get_api_status (jobId : jsstring) : IO StatusAnswer :=
  job ← printJobs_get jobId;
  match job with
  | Some j => mret (StatusJob j)
  | None => mret (StatusError 404 (str "Job not found"))
  end.

(** [fs.remove(path).catch(console.error)], as a cleanup timer runs it:
    removing what is not there is no error. *)
Definition fs_remove (path : jsstring) : IO unit :=
  fun w =>
    (Returned tt,
     {| printJobs := printJobs w;
        files := delete path (files w);
        ipp_sent := ipp_sent w;
        readings := readings w |}).

Section Timed.

Variable host : Platform.

(** The [try] block of [app.post('/api/print', ...)] with its last
    statement: the answer, and the file whose removal [setTimeout]
    schedules for a minute later, if any. *)
Definition print_try_timed (printRequest : PrintRequest)
  : IO (Server.Response * option jsstring) :=
  match settings printRequest with
  | Some st =>
      if truthy (filename printRequest) then
        let filePath :=
          path_join host (UPLOAD_DIR host) (filename printRequest) in
        found ← pathExists filePath;
        if (found : bool) then
          jobId ← Server.new_jobId host;
          processedFilePath ← Server.process_settings host filePath jobId st;
          cupsJob ← CupsClient.printFile host processedFilePath
                      (printerName printRequest)
                      (str "Print Job - " ++ filename printRequest)
                      (Server.or_1 (Types.copies st));
          _ ← Server.update_status filePath jobId st;
          job ← printJobs_get jobId;
          mret ({| Server.code := 200;
                   Server.body :=
                     Server.JobBody jobId (CupsClient.jobId cupsJob) job |},
                if bool_decide (processedFilePath ≠ filePath)
                then Some processedFilePath else None)
        else
          mret ({| Server.code := 404;
                   Server.body := Server.ErrorBody (str "File not found") |},
                None)
      else
        mret ({| Server.code := 400;
                 Server.body := Server.ErrorBody (str "Missing required fields") |},
              None)
  | None =>
      mret ({| Server.code := 400;
               Server.body := Server.ErrorBody (str "Missing required fields") |},
            None)
  end.

Definition post_api_print_timed (printRequest : PrintRequest)
  : IO (Server.Response * option jsstring) :=
  try_catch (print_try_timed printRequest)
    (fun error =>
       mret ({| Server.code := 500;
                Server.body := Server.ErrorBody (str "Failed to submit print job") |},
             None)).

(** The same for [app.post('/api/print-even', ...)], whose timer has no
    guard. *)
Definition print_even_try_timed (req : PrintEven.Body)
  : IO (Server.Response * option jsstring) :=
  let jobId := PrintEven.jobId req in
  let filename := PrintEven.filename req in
  if truthy jobId && truthy filename then
    job ← printJobs_get jobId;
    match job with
    | Some j =>
        if Server.is_awaiting (status j) then
          let filePath := path_join host (UPLOAD_DIR host) filename in
          found ← pathExists filePath;
          if (found : bool) then
            processedFilePath ←
              extractOddEvenPages host filePath Even (PrintEven.pageRange req);
            cupsJob ← CupsClient.printFile host processedFilePath
                        (PrintEven.printerName req)
                        (str "Print Job - " ++ filename ++ str " (Even Pages)")
                        (Server.or_1 (PrintEven.copies req));
            _ ← printJobs_set jobId
                  {| id := jobId; status := completed;
                     message := Some (str "Duplex printing completed");
                     totalPages := None; currentStep := None |};
            job' ← printJobs_get jobId;
            mret ({| Server.code := 200;
                     Server.body :=
                       Server.JobBody jobId (CupsClient.jobId cupsJob) job' |},
                  Some processedFilePath)
          else
            mret ({| Server.code := 404;
                     Server.body := Server.ErrorBody (str "File not found") |},
                  None)
        else
          mret ({| Server.code := 400;
                   Server.body :=
                     Server.ErrorBody (str "Invalid job or job not awaiting even pages") |},
                None)
    | None =>
        mret ({| Server.code := 400;
                 Server.body :=
                   Server.ErrorBody (str "Invalid job or job not awaiting even pages") |},
              None)
    end
  else
    mret ({| Server.code := 400;
             Server.body := Server.ErrorBody (str "Missing required fields") |},
          None).

Definition post_api_print_even_timed (req : PrintEven.Body)
  : IO (Server.Response * option jsstring) :=
  try_catch (print_even_try_timed req)
    (fun error =>
       mret ({| Server.code := 500;
                Server.body := Server.ErrorBody (str "Failed to print even pages") |},
             None)).

End Timed.

(** A run with the timer forgotten. *)
Definition untimed {A} (r : outcome (A * option jsstring) * World)
  : outcome A * World :=
  match r with
  | (Returned (resp, _), w') => (Returned resp, w')
  | (Thrown e, w') => (Thrown e, w')
  | (Unsettled, w') => (Unsettled, w')
  end.

End Routes.

(** ** The sweep of the scratch directory *)

Module TempFiles.

(** [now - stats.mtimeMs > maxAge]; false when [maxAge] is NaN. *)
Definition older (now : Z) (maxAge : number) (mtimeMs : Q) : bool :=
  match maxAge with
  | Num a =>
      if Qlt_le_dec (inject_Z a) (inject_Z now - mtimeMs) then true else false
  | NaN => false
  end.

(** [fs.readdir(this.tempDir)]: the names in the directory, the directory
    being the map from each name to its modification time. *)
Definition readdir (dir : gmap jsstring Q) : list jsstring :=
  (map_to_list dir).*1.

(** [for (const file of files) { stats = await fs.stat(filePath);
      if (now - stats.mtimeMs > maxAge) await fs.remove(filePath); }] *)
Fixpoint cleanup_loop (now : Z) (maxAge : number) (names : list jsstring)
  (dir : gmap jsstring Q) : outcome unit * gmap jsstring Q :=
  match names with
  | [] => (Returned tt, dir)
  | file :: rest =>
      match dir !! file with
      | Some mtimeMs =>
          cleanup_loop now maxAge rest
            (if older now maxAge mtimeMs then delete file dir else dir)
      | None => (Thrown (str "ENOENT: no such file or directory"), dir)
      end
  end.

(** [cleanupTempFiles(maxAge)], with [now] the reading of the clock. *)
Definition cleanupTempFiles (now : Z) (maxAge : number)
  (dir : gmap jsstring Q) : outcome unit * gmap jsstring Q :=
  cleanup_loop now maxAge (readdir dir) dir.

(** The body of [setInterval]:
    [parseInt(process.env.TEMP_FILE_CLEANUP || '3600000')]. *)
Definition sweep_maxAge (TEMP_FILE_CLEANUP : option jsstring) : number :=
  parseInt (match TEMP_FILE_CLEANUP with
            | Some v => if truthy v then v else str "3600000"
            | None => str "3600000"
            end).

Definition sweep (TEMP_FILE_CLEANUP : option jsstring) (now : Z)
  (dir : gmap jsstring Q) : outcome unit * gmap jsstring Q :=
  cleanupTempFiles now (sweep_maxAge TEMP_FILE_CLEANUP) dir.

End TempFiles.

(** ** The settings panel ([frontend/src/components/PrintSettings.tsx]) *)

Module PrintSettingsPanel.

(** [handleChange('copies', parseInt(e.target.value) || 1)].  The engine
    stores the double nearest to the integer that [parseInt] reads; the
    model follows it as far as that double is the integer itself, up to
    2^53 in magnitude, and gives no settings beyond. *)
Definition change_copies (st : PrintSettings) (value : jsstring)
  : option PrintSettings :=
  let stored c :=
    {| duplex := duplex st;
       layout := layout st;
       pageRange := pageRange st;
       copies := Some c |} in
  match parseInt value with
  | Num z =>
      if Z.abs z <=? 2 ^ 53
      then Some (stored (if z =? 0 then 1 else z))
      else None
  | NaN => Some (stored 1)
  end.

(** [handleChange('pageRange', e.target.value)] *)
Definition change_pageRange (st : PrintSettings) (value : jsstring)
  : PrintSettings :=
  {| duplex := duplex st;
     layout := layout st;
     pageRange := Some value;
     copies := copies st |}.

End PrintSettingsPanel.

(** ** More vocabulary *)

Module Footprint.

(** What [// Process PDF based on settings] made of the upload [fd] at
    [filePath], starting in the world [w]: the file [processed] to print,
    its content [d], and the world [w1] before the job is entered. *)
Definition processed_by (host : Platform) (filePath : jsstring)
  (st : PrintSettings) (fd : FileData) (w : World)
  (processed : jsstring) (d : FileData) (w1 : World) : Prop :=
  let now := clock host (readings w) in
  if duplex st then
    ∃ doc ps,
      fd = PdfBytes doc
      ∧ Forall2 (names doc) ps
          (filteredPages (Z.of_nat (List.length doc)) (pageRange st) Odd)
      ∧ processed = outputPath host filePath (str "odd") now
      ∧ d = PdfBytes (save ps) ∧ w1 = written processed (save ps) w
  else if negb (Server.is_1up (layout st)) then
    ∃ doc sheets,
      fd = PdfBytes doc
      ∧ compose_NUp doc (layout st) (pageRange st) = Returned sheets
      ∧ processed = outputPath host filePath (layout_name (layout st)) now
      ∧ d = PdfBytes (save sheets) ∧ w1 = written processed (save sheets) w
  else
    match pageRange st with
    | Some (c :: range) =>
        ∃ doc ps,
          fd = PdfBytes doc
          ∧ Forall2 (names doc) ps
              (parsePageRange (c :: range) (Z.of_nat (List.length doc)))
          ∧ processed = outputPath host filePath (str "range") now
          ∧ d = PdfBytes (save ps) ∧ w1 = written processed (save ps) w
    | _ => processed = filePath ∧ d = fd ∧ w1 = w
    end.

(** The page that a number names, for the numbers that name one. *)
Definition page_of (pdfDoc : PDFDocument) (n : Z) : Page :=
  default (SourcePage 0 0 0) (pdfDoc !! Z.to_nat (n - 1)).

(** The box of a drawn page: left, bottom, right, top. *)
Definition box_left (d : Drawn Page) : Q := drawn_x d.
Definition box_bottom (d : Drawn Page) : Q := drawn_y d.
Definition box_right (d : Drawn Page) : Q := (drawn_x d + drawn_width d)%Q.
Definition box_top (d : Drawn Page) : Q := (drawn_y d + drawn_height d)%Q.

(** Two boxes share no inner point: one lies left of, right of, below or
    above the other. *)
Definition apart (d1 d2 : Drawn Page) : Prop :=
  (box_right d1 <= box_left d2 ∨ box_right d2 <= box_left d1
   ∨ box_top d1 <= box_bottom d2 ∨ box_top d2 <= box_bottom d1)%Q.

(** The draws of a sheet. *)
Definition draws_of (sheet : Page) : list (Drawn Page) :=
  match sheet with
  | Sheet _ _ draws => draws
  | SourcePage _ _ _ => []
  end.

End Footprint.

Import Footprint.

(** ** The service as a transition system *)

Module Service.

(** The tags of the files that the processor writes. *)
Definition artifact_tag (tag : jsstring) : Prop :=
  tag = str "odd" ∨ tag = str "even" ∨ tag = str "range"
  ∨ tag = str "2-up" ∨ tag = str "4-up".

(** A path that the processor may write: the output path of some input,
    tag and time. *)
Definition artifact_path (host : Platform) (p : jsstring) : Prop :=
  ∃ inputPath tag now,
    artifact_tag tag ∧ p = outputPath host inputPath tag now.

(** The removals that a request has scheduled. *)
Definition scheduled (timer : option jsstring) : list jsstring :=
  match timer with
  | Some p => [p]
  | None => []
  end.

(** One step of the service, on the world and the removals that are
    pending: multer stores an upload, under a name that is not in use (the
    name carries the time and a random number); one of the routes answers a
    request, served alone; or a cleanup timer fires and removes the file
    that a request scheduled.  The sweep of the scratch directory is not
    part of it. *)
Inductive step (host : Platform)
  : World * list jsstring → World * list jsstring → Prop :=
| step_store path d w pending :
    files w !! path = None →
    step host (w, pending) (snd (writeFile path d w), pending)
| step_upload file answer w w' pending :
    Upload.post_api_upload file w = (Returned answer, w') →
    step host (w, pending) (w', pending)
| step_print req resp timer w w' pending :
    Routes.post_api_print_timed host req w = (Returned (resp, timer), w') →
    step host (w, pending) (w', pending ++ scheduled timer)
| step_print_even req resp timer w w' pending :
    Routes.post_api_print_even_timed host req w
    = (Returned (resp, timer), w') →
    step host (w, pending) (w', pending ++ scheduled timer)
| step_status jobId answer w w' pending :
    Routes.get_api_status jobId w = (Returned answer, w') →
    step host (w, pending) (w', pending)
| step_timer p w before after :
    step host (w, before ++ p :: after)
      (snd (Routes.fs_remove p w), before ++ after).

End Service.

(** ** The scenario, continued *)

Module Tour.

(** A resume request that repeats the range of the submission. *)
Definition resume_with_range : PrintEven.Body :=
  {| PrintEven.jobId := Scenario.jobId;
     PrintEven.filename := str "doc.pdf";
     PrintEven.printerName := str "HP";
     PrintEven.pageRange := Some (str "1-2");
     PrintEven.copies := Some 1 |}.

Definition after_even_with_range : outcome Server.Response * World :=
  Server.post_api_print_even (Scenario.host Scenario.accepted)
    resume_with_range (snd Scenario.after_odd).

Definition completed_job : PrintJob :=
  {| id := Scenario.jobId; status := completed;
     message := Some (str "Duplex printing completed");
     totalPages := None; currentStep := None |}.

Definition even_response : Server.Response :=
  {| Server.code := 200;
     Server.body := Server.JobBody Scenario.jobId 7 (Some completed_job) |}.

(** The scratch directory at 10:00:00.000, with files written one hour
    and one millisecond, exactly one hour, and one minute before. *)
Definition now : Z := 1700000000000.

Definition scratch : gmap jsstring Q :=
  {[ str "a-odd-1.pdf" := inject_Z (now - 3600001);
     str "b-2-up-2.pdf" := inject_Z (now - 3600000);
     str "c-range-3.pdf" := inject_Z (now - 60000) ]}.

(** A 2-up request for the whole document. *)
Definition nup_settings : PrintSettings :=
  {| duplex := false; layout := L2up; pageRange := None; copies := Some 2 |}.

Definition nup_request : PrintRequest :=
  Api.submitPrintJob (str "doc.pdf") (str "HP") nup_settings.

Definition after_nup : outcome (Server.Response * option jsstring) * World :=
  Routes.post_api_print_timed (Scenario.host Scenario.accepted)
    nup_request Scenario.world.

(** The settings of [App.tsx] when it starts, with duplex switched on,
    and the calls of [handlePrint] and [handlePrintEven] for them. *)
Definition whole_settings : PrintSettings :=
  {| duplex := true; layout := L1up; pageRange := Some []; copies := Some 1 |}.

Definition whole_request : PrintRequest :=
  Api.submitPrintJob (str "doc.pdf") (str "HP") whole_settings.

Definition whole_resume : PrintEven.Body :=
  Api.printEvenPages Scenario.jobId (str "doc.pdf") (str "HP") 1.

(** Pages 3 and 1-2 of the document, one page per sheet. *)
Definition range_settings : PrintSettings :=
  {| duplex := false; layout := L1up;
     pageRange := Some (str "3, 1-2"); copies := None |}.

Definition range_request : PrintRequest :=
  Api.submitPrintJob (str "doc.pdf") (str "HP") range_settings.

(** The job of a submission without duplex, once the spooler took it. *)
Definition submitted_job : PrintJob :=
  {| id := Scenario.jobId; status := completed;
     message := Some (str "Print job submitted successfully");
     totalPages := None; currentStep := None |}.

Definition submitted_response : Server.Response :=
  {| Server.code := 200;
     Server.body := Server.JobBody Scenario.jobId 7 (Some submitted_job) |}.

(** Duplex for page 2 alone: the odd pass has no page. *)
Definition second_page_settings : PrintSettings :=
  {| duplex := true; layout := L1up;
     pageRange := Some (str "2"); copies := Some 1 |}.

Definition second_page_request : PrintRequest :=
  Api.submitPrintJob (str "doc.pdf") (str "HP") second_page_settings.

(** The world of the scenario with a directory beside the upload, and a
    plain submission that names the directory. *)
Definition world_with_directory : World :=
  {| printJobs := ∅;
     files := {[ str "uploads/archive" := Directory;
                 str "uploads/doc.pdf"
                 := PdfBytes [Scenario.page 1; Scenario.page 2;
                              Scenario.page 3; Scenario.page 4] ]};
     ipp_sent := [];
     readings := 0 |}.

Definition directory_request : PrintRequest :=
  Api.submitPrintJob (str "archive") (str "HP")
    {| duplex := false; layout := L1up; pageRange := None; copies := None |}.

Definition upload : Upload.MulterFile :=
  {| Upload.path := str "uploads/doc.pdf";
     Upload.filename := str "doc.pdf";
     Upload.originalname := str "Report.pdf";
     Upload.size := 48213 |}.

End Tour.

(** ** Decimal numerals *)

Module Numerals.

(** The digits of a decimal numeral, most significant first. *)
Fixpoint uint_digits (d : Decimal.uint) : list Z :=
  match d with
  | Decimal.Nil => []
  | Decimal.D0 l => 0 :: uint_digits l
  | Decimal.D1 l => 1 :: uint_digits l
  | Decimal.D2 l => 2 :: uint_digits l
  | Decimal.D3 l => 3 :: uint_digits l
  | Decimal.D4 l => 4 :: uint_digits l
  | Decimal.D5 l => 5 :: uint_digits l
  | Decimal.D6 l => 6 :: uint_digits l
  | Decimal.D7 l => 7 :: uint_digits l
  | Decimal.D8 l => 8 :: uint_digits l
  | Decimal.D9 l => 9 :: uint_digits l
  end.

(** The code unit of a decimal digit. *)
Definition digit_unit (v : Z) : N := Z.to_N (48 + v).

End Numerals.

Import Numerals.

(** * Properties *)

(** ** The primitives on examples *)

Example parseInt_decimal : parseInt (str "  42abc") = Num 42.
Proof. reflexivity. Qed.

Example parseInt_hexadecimal : parseInt (str "0x1F") = Num 31.
Proof. reflexivity. Qed.

Example parseInt_signs :
  parseInt (str "+3") = Num 3 ∧ parseInt (str "-7") = Num (-7).
Proof. split; reflexivity. Qed.

Example parseInt_not_a_number :
  parseInt (str "") = NaN ∧ parseInt (str "abc") = NaN
  ∧ parseInt (str "x1") = NaN.
Proof. split_and!; reflexivity. Qed.

Example split_empty : split comma (str "") = [[]].
Proof. reflexivity. Qed.

Example split_hyphens :
  split hyphen (str "-2") = [str ""; str "2"]
  ∧ split hyphen (str "9-") = [str "9"; str ""].
Proof. split; reflexivity. Qed.

Example trim_both_ends : trim (str "  2 - 4 ") = str "2 - 4".
Proof. reflexivity. Qed.

Example range_loop_from_zero : range_loop (Num 0) (Num 3) [7] = [7; 1; 2; 3].
Proof. reflexivity. Qed.

Example parsePageRange_mixed :
  parsePageRange (str " 7 , 2 - 4, 3,0x5 ,abc, 6x, -2, 9-, 1-3-5") 8
  = [1; 2; 3; 4; 5; 6; 7].
Proof. vm_compute. reflexivity. Qed.

(** ** The range loop *)

Section RangeLoop.

Lemma range_loop_step i bound pages :
  range_loop i bound pages =
  if le i bound then range_loop (incr i) bound (push_if_page i pages)
  else pages.
Proof.
  funelim (range_loop i bound pages).
  - rewrite Hle. reflexivity.
  - rewrite e. reflexivity.
Qed.

Lemma range_loop_NaN_l bound pages : range_loop NaN bound pages = pages.
Proof. rewrite range_loop_step. reflexivity. Qed.

Lemma range_loop_NaN_r i pages : range_loop i NaN pages = pages.
Proof. rewrite range_loop_step. destruct i; reflexivity. Qed.

(** The loop appends the integers from [max start 1] to [bound], ascending. *)
Lemma range_loop_seqZ s e pages :
  range_loop (Num s) (Num e) pages =
  pages ++ seqZ (Z.max s 1) (e + 1 - Z.max s 1).
Proof.
  remember (Z.to_nat (e + 1 - s)) as n eqn:Hn.
  revert s pages Hn. induction n as [|n IH]; intros s pages Hn.
  - rewrite range_loop_step. simpl.
    destruct (Z.leb_spec s e); [lia|].
    rewrite seqZ_nil by lia. by rewrite app_nil_r.
  - rewrite range_loop_step. simpl.
    destruct (Z.leb_spec s e); [|lia].
    rewrite IH by lia. unfold ge, le.
    destruct (Z.leb_spec 1 s).
    + rewrite (Z.max_l s 1), (Z.max_l (s + 1) 1) by lia.
      rewrite (seqZ_cons s) by lia.
      rewrite <- app_assoc. simpl. do 3 f_equal; lia.
    + rewrite (Z.max_r s 1), (Z.max_r (s + 1) 1) by lia. reflexivity.
Qed.

Lemma range_loop_app i bound pages :
  range_loop i bound pages = pages ++ range_loop i bound [].
Proof.
  destruct i as [|s]; [by rewrite !range_loop_NaN_l, app_nil_r|].
  destruct bound as [|e]; [by rewrite !range_loop_NaN_r, app_nil_r|].
  by rewrite !range_loop_seqZ.
Qed.

End RangeLoop.

(** ** Deduplication and sorting *)

Section SetAndSort.

Lemma Set_values_from (l seen : list Z) :
  NoDup seen →
  let r := fold_left
    (fun seen x => if existsb (Z.eqb x) seen then seen else seen ++ [x]) l seen in
  NoDup r ∧ ∀ x, x ∈ r ↔ x ∈ seen ∨ x ∈ l.
Proof.
  revert seen. induction l as [|a l IH]; intros seen Hnd; simpl.
  - split; [done|]. intros x. rewrite elem_of_nil. tauto.
  - destruct (existsb (Z.eqb a) seen) eqn:Hex.
    + destruct (IH seen Hnd) as [H1 H2]. split; [done|].
      intros x. rewrite H2, elem_of_cons.
      apply existsb_exists in Hex as (y & Hy & Heq).
      apply Z.eqb_eq in Heq. subst y. apply list_elem_of_In in Hy.
      split; [tauto|]. intros [?|[->|?]]; tauto.
    + assert (a ∉ seen) as Hnot.
      { intros Hin. apply list_elem_of_In in Hin.
        assert (existsb (Z.eqb a) seen = true) as Ht; [|congruence].
        apply existsb_exists. exists a. split; [done|]. apply Z.eqb_refl. }
      destruct (IH (seen ++ [a])) as [H1 H2].
      { apply NoDup_app. split_and!; [done| |apply NoDup_singleton].
        intros x Hx ->%list_elem_of_singleton. done. }
      split; [done|]. intros x.
      rewrite H2, elem_of_app, list_elem_of_singleton, elem_of_cons. tauto.
Qed.

Lemma Set_values_NoDup l : NoDup (Set_values l).
Proof. apply (Set_values_from l []). constructor. Qed.

Lemma elem_of_Set_values l x : x ∈ Set_values l ↔ x ∈ l.
Proof.
  destruct (Set_values_from l [] (NoDup_nil_2 (A:=Z))) as [_ H].
  unfold Set_values. rewrite H, elem_of_nil. tauto.
Qed.

Lemma sort_insert_Permutation x l : sort_insert x l ≡ₚ x :: l.
Proof.
  induction l as [|y l IH]; simpl; [done|].
  destruct (x <? y); [done|]. rewrite IH. apply Permutation_swap.
Qed.

Lemma sort_insert_sorted x l :
  StronglySorted Z.le l → StronglySorted Z.le (sort_insert x l).
Proof.
  induction 1 as [|y l Hs IH Hall]; simpl.
  - repeat constructor.
  - destruct (Z.ltb_spec x y).
    + constructor; [by constructor|].
      constructor; [lia|]. eapply Forall_impl; [exact Hall|]. simpl. lia.
    + constructor; [done|].
      rewrite sort_insert_Permutation. constructor; [lia|done].
Qed.

Lemma sort_numeric_from l acc :
  StronglySorted Z.le acc →
  let r := fold_left (fun acc x => sort_insert x acc) l acc in
  StronglySorted Z.le r ∧ r ≡ₚ l ++ acc.
Proof.
  revert acc. induction l as [|x l IH]; intros acc Hacc; simpl; [done|].
  destruct (IH (sort_insert x acc)) as [H1 H2].
  { by apply sort_insert_sorted. }
  split; [done|]. rewrite H2, sort_insert_Permutation.
  by rewrite Permutation_middle.
Qed.

Lemma sort_numeric_sorted l : StronglySorted Z.le (sort_numeric l).
Proof. apply (sort_numeric_from l []). constructor. Qed.

Lemma sort_numeric_Permutation l : sort_numeric l ≡ₚ l.
Proof.
  destruct (sort_numeric_from l [] (SSorted_nil _)) as [_ H].
  unfold sort_numeric. by rewrite H, app_nil_r.
Qed.

(** A sorted list without repetition is strictly ascending. *)
Lemma sorted_NoDup_strict (l : list Z) :
  StronglySorted Z.le l → NoDup l → StronglySorted Z.lt l.
Proof.
  induction 1 as [|x l Hs IH Hall]; intros Hnd; [constructor|].
  apply NoDup_cons in Hnd as [Hx Hnd].
  constructor; [by apply IH|].
  apply Forall_forall. intros y Hy.
  rewrite Forall_forall in Hall. specialize (Hall y Hy).
  assert (x ≠ y) by (intros ->; done). simpl in *. lia.
Qed.

(** Two strictly ascending lists with the same elements are equal. *)
Lemma strict_sorted_unique (l1 l2 : list Z) :
  StronglySorted Z.lt l1 → StronglySorted Z.lt l2 →
  (∀ x, x ∈ l1 ↔ x ∈ l2) → l1 = l2.
Proof.
  intros H1. revert l2.
  induction H1 as [|x l1 Hs1 IH Hall1]; intros l2 H2 Heq.
  - destruct l2 as [|y l2]; [done|].
    exfalso. apply (not_elem_of_nil y). apply Heq. left.
  - destruct H2 as [|y l2 Hs2 Hall2].
    { exfalso. apply (not_elem_of_nil x). apply Heq. left. }
    rewrite Forall_forall in Hall1, Hall2.
    assert (x = y) as ->.
    { pose proof (proj1 (Heq x) (list_elem_of_here _ _)) as Hx.
      pose proof (proj2 (Heq y) (list_elem_of_here _ _)) as Hy.
      apply elem_of_cons in Hx as [->|Hx]; [done|].
      apply elem_of_cons in Hy as [->|Hy]; [done|].
      specialize (Hall1 _ Hy). specialize (Hall2 _ Hx). lia. }
    f_equal. apply IH; [done|]. intros z. split; intros Hz.
    + pose proof (proj1 (Heq z) (list_elem_of_further _ _ _ Hz)) as Hz'.
      apply elem_of_cons in Hz' as [->|Hz']; [|done].
      specialize (Hall1 _ Hz). lia.
    + pose proof (proj2 (Heq z) (list_elem_of_further _ _ _ Hz)) as Hz'.
      apply elem_of_cons in Hz' as [->|Hz']; [|done].
      specialize (Hall2 _ Hz). lia.
Qed.

End SetAndSort.

(** ** Splitting *)

Section Split.

Lemma split_cons sep c s :
  split sep (c :: s) =
  if N.eqb c sep then [] :: split sep s
  else match split sep s with
       | w :: ws => (c :: w) :: ws
       | [] => [[c]]
       end.
Proof. reflexivity. Qed.

Lemma split_not_nil sep s : split sep s ≠ [].
Proof.
  destruct s as [|c s]; [done|]. rewrite split_cons.
  destruct (N.eqb c sep); [done|]. by destruct (split sep s).
Qed.

Lemma split_without sep s : includes sep s = false → split sep s = [s].
Proof.
  induction s as [|c s IH]; [done|]. unfold includes. simpl.
  intros [Hc Hs]%orb_false_elim. rewrite N.eqb_sym in Hc. rewrite Hc.
  by rewrite (IH Hs).
Qed.

Lemma split_app_sep sep a b :
  includes sep a = false → split sep (a ++ sep :: b) = a :: split sep b.
Proof.
  induction a as [|c a IH]; simpl.
  - intros _. by rewrite N.eqb_refl.
  - unfold includes. simpl. intros [Hc Hs]%orb_false_elim.
    rewrite N.eqb_sym in Hc. rewrite Hc. by rewrite (IH Hs).
Qed.

(** A token that contains the separator splits into two pieces or more,
    and conversely. *)
Lemma split_with sep s :
  includes sep s = true ↔ ∃ a b rest, split sep s = a :: b :: rest.
Proof.
  split.
  - induction s as [|c s IH]; [done|]. unfold includes. simpl.
    rewrite (N.eqb_sym sep c).
    destruct (N.eqb c sep) eqn:Hc; simpl.
    + intros _. pose proof (split_not_nil sep s).
      destruct (split sep s) as [|b rest]; [done|]. by exists [], b, rest.
    + intros Hs. destruct (IH Hs) as (a & b & rest & ->).
      by exists (c :: a), b, rest.
  - intros (a & b & rest & Heq).
    destruct (includes sep s) eqn:Hinc; [done|].
    by rewrite (split_without _ _ Hinc) in Heq.
Qed.

(** No piece contains the separator. *)
Lemma split_pieces sep s w : w ∈ split sep s → includes sep w = false.
Proof.
  revert w. induction s as [|c s IH]; intros w.
  - simpl. by intros ->%list_elem_of_singleton.
  - rewrite split_cons. destruct (N.eqb c sep) eqn:Hc.
    + intros [->|Hw]%elem_of_cons; [done|]. by apply IH.
    + pose proof (split_not_nil sep s).
      destruct (split sep s) as [|w0 ws]; [done|].
      intros [->|Hw]%elem_of_cons.
      * unfold includes. simpl. rewrite N.eqb_sym, Hc. simpl.
        apply IH. left.
      * apply IH. by right.
Qed.

End Split.

(** ** One token of a range expression *)

Section ParsePart.

Variable totalPages : Z.

Lemma parse_part_app pages part :
  parse_part totalPages pages part = pages ++ parse_part totalPages [] part.
Proof.
  unfold parse_part. destruct (includes hyphen part).
  - apply range_loop_app.
  - destruct (parseInt part) as [|z]; [by rewrite app_nil_r|].
    destruct (_ && _); [done|by rewrite app_nil_r].
Qed.

(** A token without hyphen contributes its value when that is a page. *)
Lemma parse_part_single part :
  includes hyphen part = false →
  parse_part totalPages [] part =
  match parseInt part with
  | Num z => if (1 <=? z) && (z <=? totalPages) then [z] else []
  | NaN => []
  end.
Proof. intros Hinc. unfold parse_part. rewrite Hinc. by destruct (parseInt part). Qed.

(** A hyphenated token contributes the integers between its first two
    components, cut to the pages of the document. *)
Lemma parse_part_pair part a b rest :
  split hyphen part = a :: b :: rest →
  parse_part totalPages [] part =
  match parseInt (trim a), parseInt (trim b) with
  | Num s, Num e => seqZ (Z.max s 1) (Z.min e totalPages + 1 - Z.max s 1)
  | _, _ => []
  end.
Proof.
  intros Hsplit. unfold parse_part.
  assert (includes hyphen part = true) as -> by (apply split_with; eauto).
  rewrite Hsplit. simpl.
  destruct (parseInt (trim a)) as [|s]; [apply range_loop_NaN_l|].
  destruct (parseInt (trim b)) as [|e]; [apply range_loop_NaN_r|].
  simpl. apply range_loop_seqZ.
Qed.

Lemma parse_part_bounds part x :
  x ∈ parse_part totalPages [] part → 1 ≤ x ≤ totalPages.
Proof.
  destruct (includes hyphen part) eqn:Hinc.
  - destruct (proj1 (split_with _ _) Hinc) as (a & b & rest & Hsplit).
    rewrite (parse_part_pair _ _ _ _ Hsplit).
    destruct (parseInt (trim a)) as [|s]; [by intros ?%not_elem_of_nil|].
    destruct (parseInt (trim b)) as [|e]; [by intros ?%not_elem_of_nil|].
    rewrite elem_of_seqZ. lia.
  - rewrite (parse_part_single _ Hinc).
    destruct (parseInt part) as [|z]; [by intros ?%not_elem_of_nil|].
    destruct (Z.leb_spec 1 z), (Z.leb_spec z totalPages); simpl;
      try (by intros ?%not_elem_of_nil).
    intros ->%list_elem_of_singleton. lia.
Qed.

Lemma elem_of_parse_parts parts pages x :
  x ∈ fold_left (parse_part totalPages) parts pages ↔
  x ∈ pages ∨ ∃ part, part ∈ parts ∧ x ∈ parse_part totalPages [] part.
Proof.
  revert pages. induction parts as [|p parts IH]; intros pages; simpl.
  - split; [tauto|]. intros [?|(? & []%not_elem_of_nil & _)]. done.
  - rewrite IH, parse_part_app, elem_of_app. split.
    + intros [[?|?]|(q & Hq & Hx)]; [tauto| |].
      * right. exists p. split; [left|done].
      * right. exists q. split; [by right|done].
    + intros [?|(q & [->|Hq]%elem_of_cons & Hx)]; [tauto|tauto|].
      right. by exists q.
Qed.

End ParsePart.

Lemma elem_of_parsePageRange range totalPages x :
  x ∈ parsePageRange range totalPages ↔
  ∃ part, part ∈ parts_of range ∧ x ∈ parse_part totalPages [] part.
Proof.
  unfold parsePageRange.
  rewrite sort_numeric_Permutation, elem_of_Set_values, elem_of_parse_parts.
  rewrite elem_of_nil. tauto.
Qed.

Lemma parsePageRange_sorted range totalPages :
  StronglySorted Z.lt (parsePageRange range totalPages).
Proof.
  apply sorted_NoDup_strict; [apply sort_numeric_sorted|].
  unfold parsePageRange. rewrite sort_numeric_Permutation.
  apply Set_values_NoDup.
Qed.

Lemma parsePageRange_bounds range totalPages x :
  x ∈ parsePageRange range totalPages → 1 ≤ x ≤ totalPages.
Proof.
  intros (part & _ & Hx)%elem_of_parsePageRange.
  by apply parse_part_bounds in Hx.
Qed.

(** ** PageRangeParser *)

Lemma strict_sorted_NoDup (l : list Z) : StronglySorted Z.lt l → NoDup l.
Proof.
  induction 1 as [|x l Hs IH Hall]; [constructor|].
  apply NoDup_cons. split; [|done].
  intros Hx. rewrite Forall_forall in Hall. specialize (Hall x Hx). lia.
Qed.

(** C3.  For every range expression and every page count,
    [parsePageRange] returns a strictly ascending list without duplicates
    whose elements all lie in [1, totalPages]; and
    [parse("1-5,8,11-13", 20)] is [1,2,3,4,5,8,11,12,13]. *)
Theorem parsePageRange_ascending_bounded (range : jsstring) (totalPages : Z) :
  StronglySorted Z.lt (parsePageRange range totalPages)
  ∧ NoDup (parsePageRange range totalPages)
  ∧ Forall (λ p, 1 ≤ p ≤ totalPages) (parsePageRange range totalPages)
  ∧ parsePageRange (str "1-5,8,11-13") 20 = [1; 2; 3; 4; 5; 8; 11; 12; 13].
Proof.
  split_and!.
  - apply parsePageRange_sorted.
  - apply strict_sorted_NoDup, parsePageRange_sorted.
  - apply Forall_forall. intros x. apply parsePageRange_bounds.
  - reflexivity.
Qed.

(** C4.  [parsePageRange] is a total function that throws on no string:
    its result holds exactly what the tokens contribute, and a token
    without hyphen that is no integer contributes nothing, a hyphenated
    token with a component that is no integer contributes nothing, a value
    outside [1, totalPages] is dropped, a pair contributes the pages
    between its start and its end only, hence none when start > end; and
    [parse("3-1", 10)] is [[]], [parse("0,5,100", 10)] is [[5]]. *)
Theorem parsePageRange_lenient (range : jsstring) (totalPages : Z) :
  (∃ pages, parsePageRange range totalPages = pages
     ∧ ∀ x, x ∈ pages ↔
         ∃ part, part ∈ parts_of range ∧ x ∈ parse_part totalPages [] part)
  ∧ (∀ part, includes hyphen part = false → parseInt part = NaN →
       parse_part totalPages [] part = [])
  ∧ (∀ part a b rest, split hyphen part = a :: b :: rest →
       parseInt (trim a) = NaN ∨ parseInt (trim b) = NaN →
       parse_part totalPages [] part = [])
  ∧ (∀ part z, includes hyphen part = false → parseInt part = Num z →
       parse_part totalPages [] part =
       if bool_decide (1 ≤ z ≤ totalPages) then [z] else [])
  ∧ (∀ part a b rest s e, split hyphen part = a :: b :: rest →
       parseInt (trim a) = Num s → parseInt (trim b) = Num e →
       (∀ x, x ∈ parse_part totalPages [] part ↔
             s ≤ x ≤ e ∧ 1 ≤ x ≤ totalPages)
       ∧ (e < s → parse_part totalPages [] part = []))
  ∧ parsePageRange (str "3-1") 10 = []
  ∧ parsePageRange (str "0,5,100") 10 = [5].
Proof.
  split_and!.
  - eexists. split; [reflexivity|]. intros x. apply elem_of_parsePageRange.
  - intros part Hinc Hnan. by rewrite parse_part_single, Hnan.
  - intros part a b rest Hsplit Hnan.
    rewrite (parse_part_pair _ _ _ _ _ Hsplit).
    destruct Hnan as [-> | ->]; [done|]. by destruct (parseInt (trim a)).
  - intros part z Hinc Hz. rewrite parse_part_single, Hz by done.
    case_bool_decide as Hb.
    + destruct (Z.leb_spec 1 z), (Z.leb_spec z totalPages); simpl; [done|lia..].
    + destruct (Z.leb_spec 1 z), (Z.leb_spec z totalPages); simpl; [lia|done..].
  - intros part a b rest s e Hsplit Hs He.
    rewrite (parse_part_pair _ _ _ _ _ Hsplit), Hs, He. split.
    + intros x. rewrite elem_of_seqZ. lia.
    + intros Hlt. apply seqZ_nil. lia.
  - reflexivity.
  - reflexivity.
Qed.

(** C10.  A token with more than one hyphen is read through its first two
    components only: it contributes what the token made of these two
    contributes, that is the pages from the first to the second, whatever
    follows the second hyphen. *)
Theorem parse_part_extra_hyphens (totalPages : Z) (part a b c : jsstring)
  (rest : list jsstring) :
  split hyphen part = a :: b :: c :: rest →
  parse_part totalPages [] part = parse_part totalPages [] (a ++ hyphen :: b)
  ∧ parse_part totalPages [] part =
    match parseInt (trim a), parseInt (trim b) with
    | Num s, Num e => seqZ (Z.max s 1) (Z.min e totalPages + 1 - Z.max s 1)
    | _, _ => []
    end.
Proof.
  intros Hsplit.
  assert (includes hyphen a = false ∧ includes hyphen b = false) as [Ha Hb].
  { split; apply (split_pieces hyphen part); rewrite Hsplit.
    - left.
    - right. left. }
  assert (split hyphen (a ++ hyphen :: b) = [a; b]) as Hab.
  { by rewrite split_app_sep, (split_without _ _ Hb). }
  rewrite (parse_part_pair _ _ _ _ _ Hsplit), (parse_part_pair _ _ _ _ _ Hab).
  done.
Qed.

(** The token ["1-3-5"]: pages 1, 2 and 3 of 10. *)
Lemma parse_part_extra_hyphens_witness :
  split hyphen (str "1-3-5") = [str "1"; str "3"; str "5"]
  ∧ parse_part 10 [] (str "1-3-5") = parse_part 10 [] (str "1-3")
  ∧ parse_part 10 [] (str "1-3-5") = [1; 2; 3].
Proof.
  assert (split hyphen (str "1-3-5") = [str "1"; str "3"; str "5"]) as H
    by reflexivity.
  split; [exact H|].
  destruct (parse_part_extra_hyphens 10 _ _ _ _ _ H) as [H1 H2].
  split; [exact H1|]. rewrite H2. reflexivity.
Defined.

(** ** PageSelector *)

Lemma all_pages_seqZ totalPages : all_pages totalPages = seqZ 1 totalPages.
Proof. reflexivity. Qed.

Lemma seqZ_sorted m n : StronglySorted Z.lt (seqZ m n).
Proof.
  remember (Z.to_nat n) as k eqn:Hk. revert m n Hk.
  induction k as [|k IH]; intros m n Hk.
  - rewrite seqZ_nil by lia. constructor.
  - rewrite seqZ_cons by lia. constructor.
    + apply IH. lia.
    + apply Forall_forall. intros x Hx%elem_of_seqZ. lia.
Qed.

Lemma pagesToProcess_sorted pageRange totalPages :
  StronglySorted Z.lt (pagesToProcess pageRange totalPages).
Proof.
  unfold pagesToProcess.
  destruct pageRange as [range|]; [destruct (truthy range)|];
    rewrite ?all_pages_seqZ; auto using parsePageRange_sorted, seqZ_sorted.
Qed.

Lemma pagesToProcess_bounds pageRange totalPages x :
  x ∈ pagesToProcess pageRange totalPages → 1 ≤ x ≤ totalPages.
Proof.
  unfold pagesToProcess.
  destruct pageRange as [range|]; [destruct (truthy range)|];
    rewrite ?all_pages_seqZ, ?elem_of_seqZ;
    first [apply parsePageRange_bounds | lia].
Qed.

Lemma filter_sorted (f : Z → bool) l :
  StronglySorted Z.lt l → StronglySorted Z.lt (List.filter f l).
Proof.
  induction 1 as [|x l Hs IH Hall]; simpl; [constructor|].
  destruct (f x); [|done]. constructor; [done|].
  rewrite Forall_forall in *. intros y Hy.
  apply Hall. apply list_elem_of_In in Hy. apply filter_In in Hy as [Hy _].
  by apply list_elem_of_In.
Qed.

(** [if (pageRange)] chooses the base set. *)
Lemma pagesToProcess_base_set pageRange totalPages :
  pagesToProcess pageRange totalPages = base_set pageRange totalPages.
Proof. by destruct pageRange as [[|c range]|]. Qed.

(** The remainder test of the code selects by parity. *)
Lemma filteredPages_matches totalPages pageRange pageType :
  filteredPages totalPages pageRange pageType
  = List.filter (matches pageType) (pagesToProcess pageRange totalPages).
Proof.
  unfold filteredPages. apply filter_ext_in.
  intros p Hp%list_elem_of_In%pagesToProcess_bounds.
  destruct pageType; simpl.
  - rewrite Zodd_mod, <- Z.rem_mod_nonneg by lia. reflexivity.
  - rewrite Zeven_mod, <- Z.rem_mod_nonneg by lia. reflexivity.
Qed.

(** C5.  The parity filter applies after the range restriction: the
    selection is the list of the pages of the base set (the parsed range
    when a non-empty range expression is given, 1..totalPages otherwise)
    whose value matches the parity, in ascending order;
    [select(10, undefined, "odd")] is [1,3,5,7,9] and
    [select(10, "2-6", "odd")] is [3,5]. *)
Theorem filteredPages_after_range (totalPages : Z)
  (pageRange : option jsstring) (pageType : OddEven) :
  let base := base_set pageRange totalPages in
  filteredPages totalPages pageRange pageType = List.filter (matches pageType) base
  ∧ (∀ p, p ∈ filteredPages totalPages pageRange pageType ↔
          p ∈ base ∧ matches pageType p = true)
  ∧ StronglySorted Z.lt (filteredPages totalPages pageRange pageType)
  ∧ filteredPages 10 None Odd = [1; 3; 5; 7; 9]
  ∧ filteredPages 10 (Some (str "2-6")) Odd = [3; 5].
Proof.
  intros base.
  assert (filteredPages totalPages pageRange pageType
          = List.filter (matches pageType) base) as Heq.
  { unfold base. rewrite <- pagesToProcess_base_set.
    apply filteredPages_matches. }
  split_and!.
  - exact Heq.
  - intros p. rewrite Heq, !list_elem_of_In, filter_In. tauto.
  - unfold filteredPages. apply filter_sorted, pagesToProcess_sorted.
  - reflexivity.
  - reflexivity.
Qed.

(** ** DocumentComposer: N-up *)

(** After [funelim]: rewrite the goal with the loop test and the call that
    the case stands for. *)
Ltac by_equations :=
  repeat match goal with
    | H : (_ && _) = _ |- _ => rewrite H
    | H : (_ <? _)%nat = _ |- _ => rewrite H
    | H : embedPdf _ _ _ = _ |- _ => rewrite H
    | H : cells_loop _ _ _ _ 0 [] = _ |- _ => rewrite H
    end;
  reflexivity.

Section NUpLoops.

Variable pdfDoc : PDFDocument.
Variable pages : list Z.
Variable layout : Layout.

(** Every selected index is a page of the source. *)
Hypothesis pages_valid :
  Forall (λ n, 1 ≤ n ≤ Z.of_nat (List.length pdfDoc)) pages.

Local Abbreviation pps := (pagesPerSheet layout).

Local Abbreviation names := (Vocabulary.names pdfDoc).
Local Abbreviation sheet_of := (Vocabulary.sheet_of layout).

Lemma cells_loop_step i j newPage :
  cells_loop pdfDoc pages layout i j newPage =
  if (j <? pps)%nat && (i + j <? List.length pages)%nat then
    match embedPdf pdfDoc pages (i + j) with
    | Returned embeddedPage =>
        cells_loop pdfDoc pages layout i (S j)
          (newPage ++ [place layout j embeddedPage])
    | Thrown e => Thrown e
    | Unsettled => Unsettled
    end
  else Returned newPage.
Proof.
  funelim (cells_loop pdfDoc pages layout i j newPage); by_equations.
Qed.

Lemma sheets_loop_step i newPdfDoc :
  sheets_loop pdfDoc pages layout i newPdfDoc =
  if (i <? List.length pages)%nat then
    match cells_loop pdfDoc pages layout i 0 [] with
    | Returned newPage =>
        sheets_loop pdfDoc pages layout (i + pps)
          (newPdfDoc ++ [Sheet sheetWidth sheetHeight newPage])
    | Thrown e => Thrown e
    | Unsettled => Unsettled
    end
  else Returned newPdfDoc.
Proof.
  funelim (sheets_loop pdfDoc pages layout i newPdfDoc); by_equations.
Qed.

Lemma embedPdf_valid k n :
  pages !! k = Some n → ∃ p, embedPdf pdfDoc pages k = Returned p ∧ names p n.
Proof.
  intros Hk. unfold embedPdf, page_at, Vocabulary.names. rewrite Hk.
  rewrite Forall_forall in pages_valid.
  assert (1 ≤ n ≤ Z.of_nat (List.length pdfDoc)) as Hn.
  { apply pages_valid. eapply list_elem_of_lookup_2. exact Hk. }
  destruct (Z.ltb_spec (n - 1) 0); [lia|].
  destruct (pdfDoc !! Z.to_nat (n - 1)) as [p|] eqn:Hp; [eauto|].
  apply lookup_ge_None in Hp. lia.
Qed.

(** The inner loop draws, at the positions [j], [j+1], ..., the pages that
    the next numbers name, up to the end of the sheet or of the list. *)
Lemma cells_loop_spec i j newPage :
  ∃ ps,
    cells_loop pdfDoc pages layout i j newPage
    = Returned (newPage ++ imap (λ k p, place layout (j + k) p) ps)
    ∧ Forall2 names ps (take (pps - j) (drop (i + j) pages)).
Proof.
  remember (pps - j)%nat as n eqn:Hn. revert j newPage Hn.
  induction n as [|n IH]; intros j newPage Hn; rewrite cells_loop_step.
  - destruct (Nat.ltb_spec j pps); [lia|]. simpl.
    exists []. simpl. rewrite app_nil_r. split; [done|]. constructor.
  - destruct (Nat.ltb_spec j pps); [|lia]. simpl.
    destruct (Nat.ltb_spec (i + j) (List.length pages)) as [Hlt|Hge].
    + destruct (lookup_lt_is_Some_2 pages (i + j) Hlt) as [pn Hpn].
      destruct (embedPdf_valid _ _ Hpn) as (p & -> & Hp).
      destruct (IH (S j) (newPage ++ [place layout j p])) as (ps & -> & Hps);
        [lia|].
      exists (p :: ps). split.
      * rewrite <- app_assoc. simpl. rewrite Nat.add_0_r. do 3 f_equal.
        apply imap_ext. intros k q _. simpl. f_equal. lia.
      * rewrite (drop_S _ _ _ Hpn). simpl. constructor; [done|].
        replace (S (i + j)) with (i + S j)%nat by lia. done.
    + exists []. simpl. rewrite app_nil_r. split; [done|].
      rewrite drop_ge by lia. rewrite take_nil. constructor.
Qed.

(** The outer loop appends one sheet per group of [pps] numbers. *)
Lemma sheets_loop_spec i newPdfDoc :
  ∃ sheets,
    sheets_loop pdfDoc pages layout i newPdfDoc = Returned (newPdfDoc ++ sheets)
    ∧ List.length sheets = ((List.length pages - i + pps - 1) / pps)%nat
    ∧ ∀ k sh, sheets !! k = Some sh →
        ∃ ps, sh = sheet_of ps
              ∧ Forall2 names ps (take pps (drop (i + k * pps) pages)).
Proof.
  assert (pps = 2 ∨ pps = 4)%nat as Hpps.
  { unfold pagesPerSheet. destruct layout; auto. }
  remember (List.length pages - i)%nat as n eqn:Hn. revert i newPdfDoc Hn.
  induction n as [n IH] using lt_wf_ind; intros i newPdfDoc Hn.
  rewrite sheets_loop_step.
  destruct (Nat.ltb_spec i (List.length pages)) as [Hlt|Hge].
  - destruct (cells_loop_spec i 0 []) as (ps & -> & Hps).
    destruct (IH (List.length pages - (i + pps))%nat ltac:(lia) (i + pps)%nat
                (newPdfDoc
                 ++ [Sheet sheetWidth sheetHeight
                       ([] ++ imap (λ k p, place layout (0 + k) p) ps)])
                eq_refl) as (sheets & -> & Hlen & Hsheets).
    exists (sheet_of ps :: sheets). split_and!.
    + rewrite <- app_assoc. reflexivity.
    + simpl. rewrite Hlen. subst n.
      destruct Hpps as [-> | ->].
      * destruct (Nat.le_gt_cases (i + 2) (List.length pages)).
        -- replace (List.length pages - i + 2 - 1)%nat
             with (List.length pages - (i + 2) + 2 - 1 + 1 * 2)%nat by lia.
           rewrite Nat.div_add by lia. lia.
        -- replace (List.length pages - (i + 2) + 2 - 1)%nat with 1%nat by lia.
           replace (List.length pages - i + 2 - 1)%nat with 2%nat by lia.
           reflexivity.
      * destruct (Nat.le_gt_cases (i + 4) (List.length pages)).
        -- replace (List.length pages - i + 4 - 1)%nat
             with (List.length pages - (i + 4) + 4 - 1 + 1 * 4)%nat by lia.
           rewrite Nat.div_add by lia. lia.
        -- replace (List.length pages - (i + 4) + 4 - 1)%nat with 3%nat by lia.
           assert (List.length pages - i = 1 ∨ List.length pages - i = 2
                   ∨ List.length pages - i = 3)%nat as [-> | [-> | ->]] by lia;
             reflexivity.
    + intros [|k] sh Hk; simpl in Hk.
      * injection Hk as <-. exists ps. split; [done|].
        rewrite Nat.add_0_r in Hps. by rewrite Nat.sub_0_r, Nat.add_0_r in *.
      * destruct (Hsheets k sh Hk) as (ps' & -> & Hps').
        exists ps'. split; [done|].
        replace (i + S k * pps)%nat with (i + pps + k * pps)%nat by lia. done.
  - exists []. rewrite app_nil_r. split_and!; [done| |done].
    simpl. subst n.
    replace (List.length pages - i + pps - 1)%nat with (pps - 1)%nat by lia.
    destruct Hpps as [-> | ->]; reflexivity.
Qed.

End NUpLoops.

Lemma compose_NUp_spec (pdfDoc : PDFDocument) (layout : Layout)
  (pageRange : option jsstring) :
  let indices := pagesToProcess pageRange (Z.of_nat (List.length pdfDoc)) in
  let n := pagesPerSheet layout in
  ∃ sheets,
    compose_NUp pdfDoc layout pageRange = Returned sheets
    ∧ List.length sheets = ((List.length indices + n - 1) / n)%nat
    ∧ ∀ k sh, sheets !! k = Some sh →
        ∃ ps, sh = sheet_of layout ps
              ∧ Forall2 (names pdfDoc) ps (take n (drop (k * n) indices)).
Proof.
  intros indices n. unfold compose_NUp.
  destruct (sheets_loop_spec pdfDoc indices layout) with (i := 0%nat)
    (newPdfDoc := @nil Page) as (sheets & Heq & Hlen & Hsheets).
  { apply Forall_forall. intros x. apply pagesToProcess_bounds. }
  exists sheets. split_and!; [done| |done].
  rewrite Hlen. by rewrite Nat.sub_0_r.
Qed.

Lemma ceiling_quotient (len n : nat) :
  (n = 2 ∨ n = 4)%nat →
  Z.of_nat ((len + n - 1) / n) = Qceiling (Z.of_nat len # Pos.of_nat n).
Proof.
  unfold Qceiling, Qfloor, Qopp. simpl Qnum. simpl Qden.
  rewrite Nat2Z.inj_div. intros [-> | ->].
  - change (Z.of_nat 2) with 2. change (Z.pos (Pos.of_nat 2)) with 2.
    Z.to_euclidean_division_equations. lia.
  - change (Z.of_nat 4) with 4. change (Z.pos (Pos.of_nat 4)) with 4.
    Z.to_euclidean_division_equations. lia.
Qed.

Lemma drawn_pages_sheet_of layout ps : drawn_pages (sheet_of layout ps) = ps.
Proof.
  unfold drawn_pages, sheet_of. apply list_eq. intros i.
  change (map drawn_page ?l) with (drawn_page <$> l).
  rewrite list_lookup_fmap, list_lookup_imap.
  by destruct (ps !! i).
Qed.

Lemma populated_sheet_of layout ps : populated (sheet_of layout ps) = List.length ps.
Proof. unfold populated, sheet_of. apply length_imap. Qed.


(** *** Geometry of a cell *)

Section Cell.

Local Open Scope Q_scope.

Variable layout : Layout.
Variable j : nat.
Variable page : Page.

Local Abbreviation w := (page_width page).
Local Abbreviation h := (page_height page).
Local Abbreviation col := (j mod cols layout)%nat.
Local Abbreviation row := (j / cols layout)%nat.
Local Abbreviation cw := (cellWidth layout).
Local Abbreviation ch := (cellHeight layout).
Local Abbreviation scale := (Qmin (cw / w) (ch / h) * (95 # 100)).

Lemma cell_size_pos : 0 < cw ∧ 0 < ch.
Proof. unfold cellWidth, cellHeight. destruct layout; split; reflexivity. Qed.

Lemma scale_bounds : 0 < w → 0 < h → w * scale <= cw ∧ h * scale <= ch.
Proof.
  intros Hw Hh. destruct cell_size_pos as [Hcw Hch].
  assert (0 < cw / w) as H1 by (apply Qlt_shift_div_l; lra).
  assert (0 < ch / h) as H2 by (apply Qlt_shift_div_l; lra).
  assert (0 < Qmin (cw / w) (ch / h)) as Hmin
    by (apply Q.min_glb_lt; assumption).
  pose proof (Q.le_min_l (cw / w) (ch / h)) as Hl.
  pose proof (Q.le_min_r (cw / w) (ch / h)) as Hr.
  assert (w * (cw / w) == cw) as Ew by (field; lra).
  assert (h * (ch / h) == ch) as Eh by (field; lra).
  set (m := Qmin (cw / w) (ch / h)) in *.
  set (tw := cw / w) in *. set (th := ch / h) in *.
  clearbody m tw th.
  assert (w * m <= w * tw) by (apply Qmult_le_l; assumption).
  assert (h * m <= h * th) by (apply Qmult_le_l; assumption).
  assert (0 <= w * m) by (apply Qmult_le_0_compat; lra).
  assert (0 <= h * m) by (apply Qmult_le_0_compat; lra).
  split; lra.
Qed.

End Cell.

(** Every selected page is drawn: the page of index [i] on the sheet
    [i / n], as the draw [i mod n], by [place]; a sheet carries no other
    draw. *)
Lemma compose_NUp_draws (pdfDoc : PDFDocument) (layout : Layout)
  (pageRange : option jsstring) :
  let indices := pagesToProcess pageRange (Z.of_nat (List.length pdfDoc)) in
  let n := pagesPerSheet layout in
  ∃ sheets,
    compose_NUp pdfDoc layout pageRange = Returned sheets
    ∧ (∀ i pageNum, indices !! i = Some pageNum →
         ∃ p sh,
           names pdfDoc p pageNum
           ∧ sheets !! (i / n)%nat = Some sh
           ∧ page_width sh = sheetWidth ∧ page_height sh = sheetHeight
           ∧ draws_of sh !! (i mod n)%nat = Some (place layout (i mod n) p))
    ∧ (∀ k sh j d, sheets !! k = Some sh → draws_of sh !! j = Some d →
         (j < n)%nat ∧ is_Some (indices !! (k * n + j)%nat)).
Proof.
  intros indices n.
  assert (n = 2 ∨ n = 4)%nat as Hn.
  { unfold n, pagesPerSheet. destruct layout; auto. }
  destruct (compose_NUp_spec pdfDoc layout pageRange)
    as (sheets & Heq & Hlen & Hsheets).
  fold indices n in Hlen, Hsheets.
  exists sheets. split; [done|]. split.
  - intros i pageNum Hi.
    pose proof (lookup_lt_Some _ _ _ Hi) as Hlt.
    pose proof (Nat.div_mod_eq i n) as Hdm.
    assert (i mod n < n)%nat as Hmod by (apply Nat.mod_upper_bound; lia).
    assert (i / n < List.length sheets)%nat as Hk.
    { rewrite Hlen. apply Nat.Div0.div_lt_upper_bound.
      pose proof (Nat.div_mod_eq (List.length indices + n - 1) n) as Hd.
      pose proof (Nat.mod_upper_bound (List.length indices + n - 1) n).
      nia. }
    destruct (lookup_lt_is_Some_2 _ _ Hk) as [sh Hsh].
    destruct (Hsheets _ _ Hsh) as (ps & -> & Hps).
    assert (take n (drop (i / n * n) indices) !! (i mod n)%nat = Some pageNum)
      as Hin.
    { rewrite lookup_take_lt by done. rewrite lookup_drop.
      replace (i / n * n + i mod n)%nat with i by lia. done. }
    destruct (Forall2_lookup_r _ _ _ _ _ Hps Hin) as (p & Hp & Hnames).
    exists p, (sheet_of layout ps). split_and!; try done.
    unfold sheet_of, draws_of. rewrite list_lookup_imap, Hp. done.
  - intros k sh j d Hk Hj.
    destruct (Hsheets _ _ Hk) as (ps & -> & Hps).
    unfold sheet_of, draws_of in Hj. rewrite list_lookup_imap in Hj.
    destruct (ps !! j) as [p|] eqn:Hp; [|done].
    destruct (Forall2_lookup_l _ _ _ _ _ Hps Hp) as (pageNum & Hin & _).
    pose proof (lookup_lt_Some _ _ _ Hin) as Hlt.
    rewrite length_take in Hlt.
    rewrite lookup_take_lt in Hin by lia. rewrite lookup_drop in Hin.
    split; [lia|]. by eexists.
Qed.

(** C7.  The grid is 1 x 2 for 2-up and 2 x 2 for 4-up and tiles the sheet.
    Every selected page is drawn, and nothing else: with [n] pages a
    sheet, the page of index [i] of the selection is the draw [j = i mod n]
    of sheet [i div n], a sheet of 842 x 595, in column [j mod columns] and
    row [j div columns] (row-major), the cell of row 0 reaching the top
    edge of the sheet; a page of positive size is drawn at the uniform
    scale min(cellWidth / width, cellHeight / height) * 0.95 and sits in
    its cell with equal margins left and right, and below and above. *)
Theorem compose_NUp_row_major_centered (pdfDoc : PDFDocument)
  (layout : Layout) (pageRange : option jsstring) :
  let indices := pagesToProcess pageRange (Z.of_nat (List.length pdfDoc)) in
  let n := pagesPerSheet layout in
  ((rows L2up = 1 ∧ cols L2up = 2) ∧ (rows L4up = 2 ∧ cols L4up = 2))%nat
  ∧ (of_nat (cols layout) * cellWidth layout == sheetWidth
     ∧ of_nat (rows layout) * cellHeight layout == sheetHeight)%Q
  ∧ ∃ sheets,
      compose_NUp pdfDoc layout pageRange = Returned sheets
      ∧ (∀ i pageNum, indices !! i = Some pageNum →
           let j := (i mod n)%nat in
           let col := (j mod cols layout)%nat in
           let row := (j / cols layout)%nat in
           ∃ p sh d,
             names pdfDoc p pageNum
             ∧ sheets !! (i / n)%nat = Some sh
             ∧ page_width sh = sheetWidth ∧ page_height sh = sheetHeight
             ∧ draws_of sh !! j = Some d
             ∧ drawn_page d = p
             ∧ (col < cols layout ∧ row < rows layout)%nat
             ∧ let w := page_width p in
               let h := page_height p in
               let left := (of_nat col * cellWidth layout)%Q in
               let top := (sheetHeight - of_nat row * cellHeight layout)%Q in
               let bottom := (top - cellHeight layout)%Q in
               let scale :=
                 (Qmin (cellWidth layout / w) (cellHeight layout / h)
                  * (95 # 100))%Q in
               (row = 0%nat → top == sheetHeight)
               ∧ (0 < w → 0 < h →
                  drawn_width d == w * scale
                  ∧ drawn_height d == h * scale
                  ∧ drawn_x d - left
                    == left + cellWidth layout - (drawn_x d + drawn_width d)
                  ∧ drawn_y d - bottom == top - (drawn_y d + drawn_height d)
                  ∧ 0 <= drawn_x d - left
                  ∧ 0 <= drawn_y d - bottom)%Q)
      ∧ (∀ k sh j d, sheets !! k = Some sh → draws_of sh !! j = Some d →
           (j < n)%nat ∧ is_Some (indices !! (k * n + j)%nat)).
Proof.
  intros indices n.
  split; [done|]. split.
  { unfold cellWidth, cellHeight. destruct layout; split; reflexivity. }
  destruct (compose_NUp_draws pdfDoc layout pageRange)
    as (sheets & Heq & Hdrawn & Honly).
  fold indices n in Hdrawn, Honly.
  exists sheets. split; [done|]. split; [|done].
  intros i pageNum Hi.
  destruct (Hdrawn _ _ Hi) as (p & sh & Hnames & Hsh & Hw & Hh & Hd).
  set (j := (i mod n)%nat) in *.
  assert (j < pagesPerSheet layout)%nat as Hlt.
  { apply Nat.mod_upper_bound. unfold n, pagesPerSheet. destruct layout; lia. }
  cbv zeta.
  exists p, sh, (place layout j p).
  split; [done|]. split; [done|]. split; [done|]. split; [done|].
  split; [done|]. split; [done|]. split.
  { split.
    - apply Nat.mod_upper_bound. by destruct layout.
    - apply Nat.Div0.div_lt_upper_bound.
      unfold pagesPerSheet, cols, rows in *. destruct layout; lia. }
  split.
  - intros ->. unfold of_nat. simpl. ring.
  - intros Hpw Hph.
    destruct (scale_bounds layout p Hpw Hph) as [Hsw Hsh'].
    unfold place. simpl.
    set (s := (Qmin (cellWidth layout / page_width p)
                 (cellHeight layout / page_height p) * (95 # 100))%Q) in *.
    split_and!; try reflexivity; try (field; fail).
    + clearbody s.
      set (ws := (page_width p * s)%Q) in *.
      set (a := (of_nat (j mod cols layout) * cellWidth layout)%Q).
      clearbody ws a.
      setoid_replace (a + (cellWidth layout - ws) / 2 - a)%Q
        with ((cellWidth layout - ws) * (1 # 2))%Q using relation Qeq by field.
      lra.
    + clearbody s.
      set (hs := (page_height p * s)%Q) in *.
      set (r := of_nat (j / cols layout)).
      clearbody hs r.
      setoid_replace (sheetHeight - (r + 1) * cellHeight layout
                      + (cellHeight layout - hs) / 2
                      - (sheetHeight - r * cellHeight layout - cellHeight layout))%Q
        with ((cellHeight layout - hs) * (1 # 2))%Q using relation Qeq by field.
      lra.
Qed.

(** ** Running the processor *)

(** Unfold the plumbing of [IO]. *)
Ltac io_unfold :=
  unfold mbind, mret, IO_bind, IO_ret, outcome_bind, outcome_ret,
    bind, ret, throw, lift in *.

Section Processor.

Variable host : Platform.

Lemma load_eq path w :
  load path w =
  (match files w !! path with
   | Some (PdfBytes doc) => Returned doc
   | Some (OtherBytes _) => Thrown (str "Failed to parse PDF document")
   | Some Directory =>
       Thrown (str "EISDIR: illegal operation on a directory, read")
   | None => Thrown (str "ENOENT: no such file or directory")
   end, w).
Proof.
  unfold load, readFile. io_unfold.
  destruct (files w !! path) as [[doc|raw|]|]; reflexivity.
Qed.

Lemma getPageCount_eq path w doc :
  files w !! path = Some (PdfBytes doc) →
  getPageCount path w = (Returned (Z.of_nat (List.length doc)), w).
Proof.
  intros Hf. unfold getPageCount. io_unfold. rewrite load_eq, Hf. reflexivity.
Qed.

Lemma page_at_valid (pdfDoc : PDFDocument) n :
  1 ≤ n ≤ Z.of_nat (List.length pdfDoc) →
  ∃ p, page_at pdfDoc (n - 1) = Returned p ∧ names pdfDoc p n.
Proof.
  intros Hn. unfold page_at, names.
  destruct (Z.ltb_spec (n - 1) 0); [lia|].
  destruct (pdfDoc !! Z.to_nat (n - 1)) as [p|] eqn:Hp; [eauto|].
  apply lookup_ge_None in Hp. lia.
Qed.

(** Copying pages that exist throws nothing and copies them in order. *)
Lemma copy_loop_valid (pdfDoc : PDFDocument) pages newPdfDoc :
  Forall (λ n, 1 ≤ n ≤ Z.of_nat (List.length pdfDoc)) pages →
  ∃ ps, copy_loop pdfDoc pages newPdfDoc = Returned (newPdfDoc ++ ps)
        ∧ Forall2 (names pdfDoc) ps pages.
Proof.
  intros Hall. revert newPdfDoc.
  induction Hall as [|n pages Hn Hall IH]; intros newPdfDoc; simpl.
  - exists []. rewrite app_nil_r. split; [done|constructor].
  - destruct (page_at_valid pdfDoc n Hn) as (p & -> & Hp). io_unfold.
    destruct (IH (newPdfDoc ++ [p])) as (ps & -> & Hps).
    exists (p :: ps). rewrite <- app_assoc. split; [done|].
    by constructor.
Qed.

Lemma filteredPages_valid totalPages pageRange pageType :
  Forall (λ n, 1 ≤ n ≤ totalPages) (filteredPages totalPages pageRange pageType).
Proof.
  apply Forall_forall. intros x Hx. apply list_elem_of_In in Hx.
  apply filter_In in Hx as [Hx _]. apply list_elem_of_In in Hx.
  by apply pagesToProcess_bounds in Hx.
Qed.

(** [extractOddEvenPages] on a readable PDF saves the selected pages, in
    order, to a new artifact; on anything else it throws and writes
    nothing. *)
Lemma extractOddEvenPages_eq inputPath pageType pageRange w :
  match files w !! inputPath with
  | Some (PdfBytes doc) =>
      ∃ ps,
        Forall2 (names doc) ps
          (filteredPages (Z.of_nat (List.length doc)) pageRange pageType)
        ∧ extractOddEvenPages host inputPath pageType pageRange w =
          (let out := outputPath host inputPath (oddEven_name pageType)
                        (clock host (readings w)) in
           (Returned out, written out (save ps) w))
  | _ => ∃ e, extractOddEvenPages host inputPath pageType pageRange w
              = (Thrown e, w)
  end.
Proof.
  unfold extractOddEvenPages. io_unfold. rewrite load_eq.
  destruct (files w !! inputPath) as [[doc|raw|]|]; eauto.
  destruct (copy_loop_valid doc
              (filteredPages (Z.of_nat (List.length doc)) pageRange pageType) [])
    as (ps & Hcopy & Hps); [apply filteredPages_valid|].
  exists ps. split; [done|]. rewrite Hcopy. reflexivity.
Qed.

Lemma extractPageRange_eq inputPath pageRange w :
  match files w !! inputPath with
  | Some (PdfBytes doc) =>
      ∃ ps,
        Forall2 (names doc) ps
          (parsePageRange pageRange (Z.of_nat (List.length doc)))
        ∧ extractPageRange host inputPath pageRange w =
          (let out := outputPath host inputPath (str "range")
                        (clock host (readings w)) in
           (Returned out, written out (save ps) w))
  | _ => ∃ e, extractPageRange host inputPath pageRange w = (Thrown e, w)
  end.
Proof.
  unfold extractPageRange. io_unfold. rewrite load_eq.
  destruct (files w !! inputPath) as [[doc|raw|]|]; eauto.
  destruct (copy_loop_valid doc
              (parsePageRange pageRange (Z.of_nat (List.length doc))) [])
    as (ps & Hcopy & Hps).
  { apply Forall_forall. intros x. apply parsePageRange_bounds. }
  exists ps. split; [done|]. rewrite Hcopy. reflexivity.
Qed.

Lemma createNUpLayout_eq inputPath layout pageRange w :
  match files w !! inputPath with
  | Some (PdfBytes doc) =>
      ∃ sheets,
        compose_NUp doc layout pageRange = Returned sheets
        ∧ createNUpLayout host inputPath layout pageRange w =
          (let out := outputPath host inputPath (layout_name layout)
                        (clock host (readings w)) in
           (Returned out, written out (save sheets) w))
  | _ => ∃ e, createNUpLayout host inputPath layout pageRange w = (Thrown e, w)
  end.
Proof.
  unfold createNUpLayout. io_unfold. rewrite load_eq.
  destruct (files w !! inputPath) as [[doc|raw|]|]; eauto.
  destruct (compose_NUp_spec doc layout pageRange) as (sheets & Heq & _).
  exists sheets. split; [done|]. rewrite Heq. reflexivity.
Qed.

End Processor.

(** ** Running the spooler client *)

Section Spooler.

Variable host : Platform.

(** [printFile]: without printer it throws before anything is read; a
    directory is never read, and the promise stays pending; otherwise the
    message leaves and the spooler's answer decides. *)
Lemma printFile_eq filePath printerName jobName copies w d :
  files w !! filePath = Some d →
  CupsClient.printFile host filePath printerName jobName copies w =
  if truthy (printer_of host printerName) then
    match d with
    | Directory => (Unsettled, w)
    | _ =>
        let uri := printer_uri host printerName in
        let msg := print_job_msg jobName copies d in
        (match job_of_reply
                 (ipp_execute host (List.length (ipp_sent w)) uri msg) with
         | Some cups => Returned cups
         | None =>
             Thrown (match ipp_execute host (List.length (ipp_sent w)) uri msg with
                     | IppError err => err
                     | _ => str "Failed to get job ID from CUPS response"
                     end)
         end, sent uri msg w)
    end
  else (Thrown (str "No printer specified"), w).
Proof.
  intros Hf. unfold CupsClient.printFile, printer_of, printer_uri.
  fold (printer_of host printerName).
  destruct (truthy (printer_of host printerName)); [|reflexivity].
  unfold readFile. rewrite Hf. io_unfold.
  unfold execute_Print_Job, CupsClient.on_reply, print_job_msg, sent,
    job_of_reply.
  destruct d as [doc|raw|]; [| |reflexivity].
  all: destruct (ipp_execute _ _ _ _) as [err|[n|] u]; simpl; try reflexivity.
  all: destruct (n =? 0); reflexivity.
Qed.

End Spooler.

(** ** Running the server *)

Opaque str.

Section Handlers.

Import Server Routes.

Variable host : Platform.

(** Settings that ask for a new document get one from a PDF alone. *)
Lemma processed_by_pdf filePath st fd w processed d w1 :
  processed_by host filePath st fd w processed d w1 →
  needs_processing st = true →
  ∃ doc newDoc, fd = PdfBytes doc ∧ d = PdfBytes newDoc
                ∧ w1 = written processed newDoc w.
Proof.
  unfold processed_by, needs_processing.
  destruct (duplex st); [|destruct (is_1up (layout st)); simpl].
  - intros (doc & ps & -> & _ & _ & -> & ->) _. eauto.
  - destruct (pageRange st) as [[|c range]|]; try done.
    intros (doc & ps & -> & _ & _ & -> & ->) _. eauto.
  - intros (doc & ps & -> & _ & _ & -> & ->) _. eauto.
Qed.

(** Settings that ask for none have the upload itself printed. *)
Lemma processed_by_plain filePath st fd w processed d w1 :
  processed_by host filePath st fd w processed d w1 →
  needs_processing st = false →
  processed = filePath ∧ d = fd ∧ w1 = w.
Proof.
  unfold processed_by, needs_processing.
  destruct (duplex st); [done|].
  destruct (is_1up (layout st)); [|done]. simpl.
  by destruct (pageRange st) as [[|c range]|].
Qed.

(** Processing enters no job and sends nothing. *)
Lemma processed_by_world filePath st fd w processed d w1 :
  processed_by host filePath st fd w processed d w1 →
  printJobs w1 = printJobs w ∧ ipp_sent w1 = ipp_sent w
  ∧ (files w !! filePath = Some fd → files w1 !! processed = Some d).
Proof.
  intros Hby.
  destruct (needs_processing st) eqn:Hneeds.
  - destruct (processed_by_pdf _ _ _ _ _ _ _ Hby Hneeds)
      as (doc & newDoc & -> & -> & ->).
    split_and!; try done. intros _. apply lookup_insert_eq.
  - destruct (processed_by_plain _ _ _ _ _ _ _ Hby Hneeds) as (-> & -> & ->).
    by split_and!.
Qed.

(** [// Process PDF based on settings], case by case: it throws on an
    upload that is no PDF when the settings ask for processing, and
    otherwise leaves the file to print as the settings determine it, with
    the job entered as [processing]. *)
Lemma process_settings_run filePath jobId st w fd :
  files w !! filePath = Some fd →
  if needs_processing st && negb (is_pdf fd) then
    ∃ e, process_settings host filePath jobId st w = (Thrown e, w)
  else
    ∃ processed d w1 job,
      process_settings host filePath jobId st w
      = (Returned processed, entered jobId job w1)
      ∧ processed_by host filePath st fd w processed d w1
      ∧ id job = jobId ∧ status job = processing.
Proof.
  intros Hfile. unfold process_settings, processed_by, needs_processing.
  destruct (duplex st) eqn:Hduplex.
  - pose proof (extractOddEvenPages_eq host filePath Odd (pageRange st) w)
      as H.
    rewrite Hfile in H. io_unfold.
    destruct fd as [doc|raw|]; simpl.
    + destruct H as (ps & Hps & ->). simpl.
      eexists _, (PdfBytes (save ps)), (written _ (save ps) w), _.
      split; [reflexivity|]. split_and!; try done.
      by exists doc, ps.
    + destruct H as (e & ->). by exists e.
    + destruct H as (e & ->). by exists e.
  - destruct (is_1up (layout st)); simpl.
    + destruct (pageRange st) as [[|c range]|].
      * io_unfold. unfold printJobs_set. simpl.
        eexists _, fd, w, _. split; [reflexivity|]. by split_and!.
      * pose proof (extractPageRange_eq host filePath (c :: range) w) as H.
        rewrite Hfile in H. change (truthy (c :: range)) with true.
        cbv iota. io_unfold.
        destruct fd as [doc|raw|]; simpl.
        -- destruct H as (ps & Hps & ->). simpl.
           eexists _, (PdfBytes (save ps)), (written _ (save ps) w), _.
           split; [reflexivity|]. split_and!; try done.
           by exists doc, ps.
        -- destruct H as (e & ->). by exists e.
        -- destruct H as (e & ->). by exists e.
      * io_unfold. unfold printJobs_set. simpl.
        eexists _, fd, w, _. split; [reflexivity|]. by split_and!.
    + pose proof (createNUpLayout_eq host filePath (layout st)
                    (pageRange st) w) as H.
      rewrite Hfile in H. io_unfold.
      destruct fd as [doc|raw|]; simpl.
      * destruct H as (ps & Hps & ->). simpl.
        eexists _, (PdfBytes (save ps)), (written _ (save ps) w), _.
        split; [reflexivity|]. split_and!; try done.
        by exists doc, ps.
      * destruct H as (e & ->). by exists e.
      * destruct H as (e & ->). by exists e.
Qed.

(** The identifier that a submission in the world [w] gives its job. *)
Lemma new_jobId_eq w :
  new_jobId host w = (Returned (jobId_in host w), tick (tick w)).
Proof. reflexivity. Qed.

(** The run of [POST /api/print], with the world it leaves and the removal
    it schedules: the client errors; the server error when the document
    cannot be processed, with no job entered; and once the file is ready
    and the job [processing], the server error when no printer is named or
    the spooler acknowledges no job, no answer at all when the file to
    send is a directory, and success.  [job0] is the entry made when the
    file was ready, [job] the entry of [// Update job status]. *)
Lemma post_api_print_timed_run (req : PrintRequest) (w : World) :
  let filePath := path_join host (UPLOAD_DIR host) (filename req) in
  let uri := printer_uri host (printerName req) in
  let jobId := jobId_in host w in
  let run := post_api_print_timed host req w in
  match settings req with
  | None => ∃ resp, run = (Returned (resp, None), w) ∧ code resp = 400
  | Some st =>
      if truthy (filename req) then
        match files w !! filePath with
        | None => ∃ resp, run = (Returned (resp, None), w) ∧ code resp = 404
        | Some fd =>
            if needs_processing st && negb (is_pdf fd) then
              run = (Returned (print_failure, None), tick (tick w))
            else
              ∃ processed d w1 job0,
                processed_by host filePath st fd (tick (tick w))
                  processed d w1
                ∧ id job0 = jobId ∧ status job0 = processing
                ∧ let msg := print_job_msg (str "Print Job - " ++ filename req)
                               (or_1 (copies st)) d in
                  let w2 := entered jobId job0 w1 in
                  if truthy (printer_of host (printerName req)) then
                    match d with
                    | Directory => run = (Unsettled, w2)
                    | _ =>
                        match job_of_reply
                                (ipp_execute host (List.length (ipp_sent w))
                                   uri msg) with
                        | None =>
                            run = (Returned (print_failure, None),
                                   sent uri msg w2)
                        | Some cups =>
                            ∃ job,
                              run
                              = (Returned
                                   ({| code := 200;
                                       body := JobBody jobId
                                                 (CupsClient.jobId cups)
                                                 (Some job) |},
                                    if bool_decide (processed ≠ filePath)
                                    then Some processed else None),
                                 entered jobId job (sent uri msg w2))
                              ∧ id job = jobId
                              ∧ if duplex st then
                                  status job = awaiting_even_pages
                                  ∧ currentStep job = Some Even
                                  ∧ ∃ doc',
                                      files w1 !! filePath
                                      = Some (PdfBytes doc')
                                      ∧ totalPages job
                                        = Some (Z.of_nat (List.length doc'))
                                else status job = completed
                        end
                    end
                  else run = (Returned (print_failure, None), w2)
        end
      else ∃ resp, run = (Returned (resp, None), w) ∧ code resp = 400
  end.
Proof.
  intros filePath uri jobId run. unfold run.
  unfold post_api_print_timed, try_catch, print_try_timed.
  destruct (settings req) as [st|] eqn:Hst; [|by eexists].
  destruct (filename req) as [|c name] eqn:Hname; [by eexists|].
  change (truthy (c :: name)) with true. cbv iota.
  fold filePath. io_unfold. unfold pathExists.
  destruct (files w !! filePath) as [fd|] eqn:Hfile.
  2:{ rewrite bool_decide_eq_false_2 by (intros [? ?]; done). by eexists. }
  rewrite bool_decide_eq_true_2 by eauto.
  rewrite new_jobId_eq. fold jobId.
  set (w2 := tick (tick w)).
  pose proof (process_settings_run filePath jobId st w2 fd Hfile) as Hproc.
  destruct (needs_processing st && negb (is_pdf fd)).
  { destruct Hproc as (e & ->). reflexivity. }
  destruct Hproc as (processed & d & w1 & job0 & -> & Hby & Hid & Hstatus).
  exists processed, d, w1, job0. split_and!; try done. cbv zeta.
  destruct (processed_by_world _ _ _ _ _ _ _ Hby) as (Hjobs & Hsent & Hd).
  specialize (Hd Hfile).
  rewrite (printFile_eq host processed _ _ _ (entered jobId job0 w1) d Hd).
  fold uri.
  destruct (truthy (printer_of host (printerName req))); [|reflexivity].
  change (ipp_sent (entered jobId job0 w1)) with (ipp_sent w1).
  rewrite Hsent. change (ipp_sent w2) with (ipp_sent w).
  set (msg := print_job_msg (str "Print Job - " ++ c :: name)
                (or_1 (copies st)) d).
  assert (duplex st = true →
          ∃ doc', files w1 !! filePath = Some (PdfBytes doc')) as Hdoc.
  { intros Hdup. unfold processed_by in Hby. rewrite Hdup in Hby.
    destruct Hby as (doc & ps & -> & _ & _ & _ & ->). simpl.
    rewrite lookup_insert. case_decide; eauto. }
  destruct d as [doc|raw|]; [| |reflexivity]; cbv zeta;
    (destruct (job_of_reply _) as [cups|]; [|reflexivity]);
    unfold update_status;
    (destruct (duplex st) eqn:Hdup; io_unfold;
     [destruct (Hdoc eq_refl) as [doc' Hdoc'];
      rewrite (getPageCount_eq filePath _ doc') by exact Hdoc';
      simpl; rewrite lookup_insert_eq;
      eexists; split; [reflexivity|]; split_and!; try done; by exists doc'
     |simpl; rewrite lookup_insert_eq;
      eexists; split; [reflexivity|]; by split_and!]).
Qed.

(** The answers of [POST /api/print] with the world each leaves and the
    removal each schedules. *)
Lemma post_api_print_timed_cases (req : PrintRequest) (w w' : World)
  (resp : Response) (timer : option jsstring) :
  let filePath := path_join host (UPLOAD_DIR host) (filename req) in
  let uri := printer_uri host (printerName req) in
  let jobId := jobId_in host w in
  post_api_print_timed host req w = (Returned (resp, timer), w') →
  (code resp = 400 ∧ timer = None ∧ w' = w
   ∧ (settings req = None ∨ filename req = []))
  ∨ (code resp = 404 ∧ timer = None ∧ w' = w
     ∧ files w !! filePath = None)
  ∨ (code resp = 500 ∧ timer = None
     ∧ ∃ st fd,
         settings req = Some st ∧ files w !! filePath = Some fd
         ∧ (w' = tick (tick w)
            ∨ ∃ processed d w1 job0,
                processed_by host filePath st fd (tick (tick w))
                  processed d w1
                ∧ id job0 = jobId ∧ status job0 = processing
                ∧ (w' = entered jobId job0 w1
                   ∨ w' = sent uri
                            (print_job_msg
                               (str "Print Job - " ++ filename req)
                               (or_1 (copies st)) d)
                            (entered jobId job0 w1))))
  ∨ (code resp = 200
     ∧ ∃ st fd processed d w1 job0 job cups,
         settings req = Some st ∧ files w !! filePath = Some fd
         ∧ processed_by host filePath st fd (tick (tick w))
             processed d w1
         ∧ files w1 !! processed = Some d
         ∧ timer = (if bool_decide (processed ≠ filePath)
                    then Some processed else None)
         ∧ body resp = JobBody jobId cups (Some job)
         ∧ w' = entered jobId job
                  (sent uri
                     (print_job_msg (str "Print Job - " ++ filename req)
                        (or_1 (copies st)) d)
                     (entered jobId job0 w1))
         ∧ id job = jobId
         ∧ if duplex st then
             status job = awaiting_even_pages
             ∧ currentStep job = Some Even
             ∧ ∃ doc', files w1 !! filePath = Some (PdfBytes doc')
                       ∧ totalPages job
                         = Some (Z.of_nat (List.length doc'))
           else status job = completed).
Proof.
  intros filePath uri jobId Hrun.
  pose proof (post_api_print_timed_run req w) as H. cbv zeta in H.
  fold filePath uri jobId in H. rewrite Hrun in H.
  destruct (settings req) as [st|] eqn:Hst.
  2:{ destruct H as (resp0 & [= <- -> ->] & Hcode). left. auto. }
  destruct (filename req) as [|c name] eqn:Hname.
  { destruct H as (resp0 & [= <- -> ->] & Hcode). left. auto. }
  change (truthy (c :: name)) with true in H. cbv iota in H.
  destruct (files w !! filePath) as [fd|] eqn:Hfile.
  2:{ destruct H as (resp0 & [= <- -> ->] & Hcode). right. left. auto. }
  destruct (needs_processing st && negb (is_pdf fd)).
  { injection H as -> -> ->. right. right. left.
    split_and!; try done. exists st, fd. auto. }
  destruct H as (processed & d & w1 & job0 & Hby & Hid & Hstatus & H).
  pose proof (processed_by_world _ _ _ _ _ _ _ Hby) as (_ & _ & Hd).
  specialize (Hd Hfile).
  destruct (truthy (printer_of host (printerName req))).
  2:{ injection H as -> -> ->. right. right. left.
      split_and!; try done. exists st, fd. split_and!; try done.
      right. exists processed, d, w1, job0. auto. }
  assert (match job_of_reply
                  (ipp_execute host (List.length (ipp_sent w)) uri
                     (print_job_msg (str "Print Job - " ++ c :: name)
                        (or_1 (copies st)) d)) with
          | None =>
              (Returned (resp, timer), w')
              = (Returned (print_failure, None),
                 sent uri
                   (print_job_msg (str "Print Job - " ++ c :: name)
                      (or_1 (copies st)) d) (entered jobId job0 w1))
          | Some cups =>
              ∃ job,
                (Returned (resp, timer), w')
                = (Returned
                     ({| code := 200;
                         body := JobBody jobId (CupsClient.jobId cups)
                                   (Some job) |},
                      if bool_decide (processed ≠ filePath)
                      then Some processed else None),
                   entered jobId job
                     (sent uri
                        (print_job_msg (str "Print Job - " ++ c :: name)
                           (or_1 (copies st)) d) (entered jobId job0 w1)))
                ∧ id job = jobId
                ∧ if duplex st then
                    status job = awaiting_even_pages
                    ∧ currentStep job = Some Even
                    ∧ ∃ doc', files w1 !! filePath = Some (PdfBytes doc')
                              ∧ totalPages job
                                = Some (Z.of_nat (List.length doc'))
                  else status job = completed
          end) as H'.
  { by destruct d. }
  clear H. destruct (job_of_reply _) as [cups|].
  - destruct H' as (job & [= -> -> ->] & Hjob & Hrest).
    right. right. right. split; [done|].
    exists st, fd, processed, d, w1, job0, job, (CupsClient.jobId cups).
    by split_and!.
  - injection H' as -> -> ->. right. right. left.
    split_and!; try done. exists st, fd. split_and!; try done.
    right. exists processed, d, w1, job0. auto.
Qed.

(** The run of [POST /api/print-even], with the world it leaves and the
    removal it schedules. *)
Lemma post_api_print_even_timed_run (req : PrintEven.Body) (w : World) :
  let jobId := PrintEven.jobId req in
  let filename := PrintEven.filename req in
  let filePath := path_join host (UPLOAD_DIR host) filename in
  let uri := printer_uri host (PrintEven.printerName req) in
  let out := outputPath host filePath (str "even") (clock host (readings w)) in
  let run := post_api_print_even_timed host req w in
  if truthy jobId && truthy filename then
    match printJobs w !! jobId with
    | None => ∃ resp, run = (Returned (resp, None), w) ∧ code resp = 400
    | Some j =>
        if is_awaiting (status j) then
          match files w !! filePath with
          | None => ∃ resp, run = (Returned (resp, None), w) ∧ code resp = 404
          | Some (PdfBytes doc) =>
              ∃ evenDoc,
                Forall2 (names doc) evenDoc
                  (filteredPages (Z.of_nat (List.length doc))
                     (PrintEven.pageRange req) Even)
                ∧ let msg := print_job_msg
                               (str "Print Job - " ++ filename
                                ++ str " (Even Pages)")
                               (or_1 (PrintEven.copies req))
                               (PdfBytes (save evenDoc)) in
                  let w1 := written out (save evenDoc) w in
                  if truthy (printer_of host (PrintEven.printerName req)) then
                    match job_of_reply
                            (ipp_execute host (List.length (ipp_sent w))
                               uri msg) with
                    | None =>
                        run = (Returned (print_even_failure, None),
                               sent uri msg w1)
                    | Some cups =>
                        ∃ job,
                          run
                          = (Returned
                               ({| code := 200;
                                   body := JobBody jobId
                                             (CupsClient.jobId cups)
                                             (Some job) |},
                                Some out),
                             entered jobId job (sent uri msg w1))
                          ∧ id job = jobId ∧ status job = completed
                    end
                  else run = (Returned (print_even_failure, None), w1)
          | Some _ => run = (Returned (print_even_failure, None), w)
          end
        else ∃ resp, run = (Returned (resp, None), w) ∧ code resp = 400
    end
  else ∃ resp, run = (Returned (resp, None), w) ∧ code resp = 400.
Proof.
  intros jobId filename filePath uri out run. unfold run.
  unfold post_api_print_even_timed, try_catch, print_even_try_timed.
  fold jobId filename.
  destruct (truthy jobId && truthy filename); [|by eexists].
  io_unfold. unfold printJobs_get. cbv beta.
  destruct (printJobs w !! jobId) as [j|] eqn:Hj; [|by eexists].
  destruct (is_awaiting (status j)) eqn:Hawait; [|by eexists].
  fold filePath. unfold pathExists.
  destruct (files w !! filePath) as [fd|] eqn:Hfile.
  2:{ rewrite bool_decide_eq_false_2 by (intros [? ?]; done). by eexists. }
  rewrite bool_decide_eq_true_2 by eauto.
  pose proof (extractOddEvenPages_eq host filePath Even
                (PrintEven.pageRange req) w) as H.
  rewrite Hfile in H. destruct fd as [doc|raw|].
  2,3: by destruct H as (e & ->).
  destruct H as (ps & Hps & ->). exists ps. split; [done|].
  change (oddEven_name Even) with (str "even"). cbv beta iota zeta.
  fold out.
  rewrite (printFile_eq host out _ _ _ (written out (save ps) w)
             (PdfBytes (save ps)))
    by (simpl; apply lookup_insert_eq).
  destruct (truthy (printer_of host (PrintEven.printerName req)));
    [|reflexivity].
  cbv zeta. fold uri.
  change (ipp_sent (written out (save ps) w)) with (ipp_sent w).
  destruct (job_of_reply _) as [cups|]; [|reflexivity].
  simpl. rewrite lookup_insert_eq. eexists. by split_and!.
Qed.

(** The answers of [POST /api/print-even] with the world each leaves and
    the removal each schedules. *)
Lemma post_api_print_even_timed_cases (req : PrintEven.Body) (w w' : World)
  (resp : Response) (timer : option jsstring) :
  let jobId := PrintEven.jobId req in
  let filename := PrintEven.filename req in
  let filePath := path_join host (UPLOAD_DIR host) filename in
  let uri := printer_uri host (PrintEven.printerName req) in
  let out := outputPath host filePath (str "even") (clock host (readings w)) in
  post_api_print_even_timed host req w = (Returned (resp, timer), w') →
  (code resp = 400 ∧ timer = None ∧ w' = w
   ∧ (jobId = [] ∨ filename = [] ∨ printJobs w !! jobId = None
      ∨ ∃ j, printJobs w !! jobId = Some j
             ∧ status j ≠ awaiting_even_pages))
  ∨ (code resp = 404 ∧ timer = None ∧ w' = w
     ∧ files w !! filePath = None)
  ∨ (code resp = 500 ∧ timer = None
     ∧ (w' = w
        ∨ ∃ evenDoc,
            w' = written out evenDoc w
            ∨ ∃ msg, w' = sent uri msg (written out evenDoc w)))
  ∨ (code resp = 200
     ∧ ∃ j doc evenDoc job cups,
         printJobs w !! jobId = Some j
         ∧ status j = awaiting_even_pages
         ∧ files w !! filePath = Some (PdfBytes doc)
         ∧ Forall2 (names doc) evenDoc
             (filteredPages (Z.of_nat (List.length doc))
                (PrintEven.pageRange req) Even)
         ∧ timer = Some out
         ∧ body resp = JobBody jobId cups (Some job)
         ∧ w' = entered jobId job
                  (sent uri
                     (print_job_msg
                        (str "Print Job - " ++ filename
                         ++ str " (Even Pages)")
                        (or_1 (PrintEven.copies req))
                        (PdfBytes (save evenDoc)))
                     (written out (save evenDoc) w))
         ∧ id job = jobId ∧ status job = completed).
Proof.
  intros jobId filename filePath uri out Hrun.
  pose proof (post_api_print_even_timed_run req w) as H. cbv zeta in H.
  fold jobId filename filePath uri out in H. rewrite Hrun in H.
  destruct jobId as [|c0 jobId0] eqn:HjobId.
  { destruct H as (resp0 & [= <- -> ->] & Hcode). left. auto. }
  destruct filename as [|c1 filename0] eqn:Hfilename.
  { destruct H as (resp0 & [= <- -> ->] & Hcode). left.
    split_and!; auto. }
  change (truthy (c0 :: jobId0) && truthy (c1 :: filename0)) with true in H.
  cbv iota in H.
  destruct (printJobs w !! _) as [j|] eqn:Hj.
  2:{ destruct H as (resp0 & [= <- -> ->] & Hcode). left.
      split_and!; auto. }
  destruct (is_awaiting (status j)) eqn:Hawait.
  2:{ destruct H as (resp0 & [= <- -> ->] & Hcode). left.
      split_and!; try done. do 3 right. exists j. split; [done|].
      intros Hs. by rewrite Hs in Hawait. }
  assert (status j = awaiting_even_pages) as Hstatus
    by (destruct (status j); done).
  destruct (files w !! filePath) as [[doc|raw|]|] eqn:Hfile.
  - destruct H as (evenDoc & Heven & H).
    destruct (truthy (printer_of host (PrintEven.printerName req))).
    2:{ injection H as -> -> ->. right. right. left.
        split_and!; try done. right. exists (save evenDoc). auto. }
    destruct (job_of_reply _) as [cups|].
    + destruct H as (job & [= -> -> ->] & Hid & Hdone).
      right. right. right. split; [done|].
      exists j, doc, evenDoc, job, (CupsClient.jobId cups). by split_and!.
    + injection H as -> -> ->. right. right. left.
      split_and!; try done. right. exists (save evenDoc). right.
      by eexists.
  - injection H as -> -> ->. right. right. left. split_and!; auto.
  - injection H as -> -> ->. right. right. left. split_and!; auto.
  - destruct H as (resp0 & [= <- -> ->] & Hcode). right. left. auto.
Qed.

(** The handlers of the coordinator are those with timers, the timer
    forgotten. *)
Lemma post_api_print_timed_answer (req : PrintRequest) (w : World) :
  post_api_print host req w = untimed (post_api_print_timed host req w).
Proof.
  unfold post_api_print, post_api_print_timed, try_catch, print_try,
    print_try_timed.
  destruct (settings req) as [st|]; [|reflexivity].
  destruct (truthy (filename req)); [|reflexivity].
  io_unfold. unfold pathExists.
  destruct (bool_decide _); [|reflexivity].
  destruct (new_jobId host w) as [[jobId|e|] w2]; try reflexivity.
  destruct (process_settings host _ jobId st w2) as [[processed|e|] w3];
    try reflexivity.
  destruct (CupsClient.printFile host processed _ _ _ w3) as [[cups|e|] w4];
    try reflexivity.
  destruct (update_status _ jobId st w4) as [[[]|e|] w5];
    try reflexivity.
Qed.

Lemma post_api_print_even_timed_answer (req : PrintEven.Body) (w : World) :
  post_api_print_even host req w
  = untimed (post_api_print_even_timed host req w).
Proof.
  unfold post_api_print_even, post_api_print_even_timed, try_catch,
    print_even_try, print_even_try_timed.
  destruct (truthy _ && truthy _); [|reflexivity].
  io_unfold. unfold printJobs_get.
  destruct (printJobs w !! _) as [j|]; [|reflexivity].
  destruct (is_awaiting (status j)); [|reflexivity].
  unfold pathExists. destruct (bool_decide _); [|reflexivity].
  destruct (extractOddEvenPages host _ Even _ w) as [[processed|e|] w3];
    try reflexivity.
  destruct (CupsClient.printFile host processed _ _ _ w3) as [[cups|e|] w4];
    try reflexivity.
Qed.

(** What the coordinator answers, the handler with timers answers too. *)
Lemma post_api_print_timed_of (req : PrintRequest) (w w' : World) resp :
  post_api_print host req w = (Returned resp, w') →
  ∃ timer, post_api_print_timed host req w = (Returned (resp, timer), w').
Proof.
  rewrite post_api_print_timed_answer.
  destruct (post_api_print_timed host req w) as [[[resp0 timer]|e|] w0];
    simpl; intros [= <- <-]. by exists timer.
Qed.

Lemma post_api_print_even_timed_of (req : PrintEven.Body) (w w' : World) resp :
  post_api_print_even host req w = (Returned resp, w') →
  ∃ timer,
    post_api_print_even_timed host req w = (Returned (resp, timer), w').
Proof.
  rewrite post_api_print_even_timed_answer.
  destruct (post_api_print_even_timed host req w)
    as [[[resp0 timer]|e|] w0];
    simpl; intros [= <- <-]. by exists timer.
Qed.

End Handlers.

Transparent str.

(** ** PrintJobCoordinator *)

Section Coordinator.

Import Server Routes.

Variable host : Platform.

(** A run with the timer forgotten leaves the same world. *)
Lemma untimed_run {A} (r : outcome (A * option jsstring) * World) o w' :
  untimed r = (o, w') → ∃ o', r = (o', w').
Proof.
  destruct r as [[[resp timer]|e|] w0]; simpl; intros [= <- <-]; by eexists.
Qed.

(** A resume request for a job that is unknown or not awaiting its even
    pages is answered 400 and changes nothing. *)
Lemma post_api_print_even_rejected (req : PrintEven.Body) (w : World) :
  (printJobs w !! PrintEven.jobId req = None
   ∨ ∃ j, printJobs w !! PrintEven.jobId req = Some j
          ∧ status j ≠ awaiting_even_pages) →
  ∃ msg, post_api_print_even host req w
         = (Returned {| code := 400; body := ErrorBody msg |}, w).
Proof.
  intros Hpre.
  unfold post_api_print_even, try_catch, print_even_try.
  destruct (truthy (PrintEven.jobId req) && truthy (PrintEven.filename req));
    [|eexists; reflexivity].
  io_unfold. unfold printJobs_get.
  destruct Hpre as [-> | (j & -> & Hj)]; [eexists; reflexivity|].
  destruct (status j); try (eexists; reflexivity). done.
Qed.

(** A resume request on a job that awaits its even pages, for a readable
    PDF, with a printer named and a spooler that hands out a job id, is
    answered 200. *)
Lemma post_api_print_even_succeeds (req : PrintEven.Body) (w : World) j doc n :
  let filePath := path_join host (UPLOAD_DIR host) (PrintEven.filename req) in
  printJobs w !! PrintEven.jobId req = Some j →
  status j = awaiting_even_pages →
  truthy (PrintEven.jobId req) = true →
  truthy (PrintEven.filename req) = true →
  files w !! filePath = Some (PdfBytes doc) →
  truthy (printer_of host (PrintEven.printerName req)) = true →
  (∀ k msg, ∃ uri,
     ipp_execute host k (printer_uri host (PrintEven.printerName req)) msg
     = IppResponse (Some n) uri) →
  n ≠ 0 →
  ∃ resp w', post_api_print_even host req w = (Returned resp, w')
             ∧ code resp = 200.
Proof.
  intros filePath Hj Hstatus Hid Hname Hfile Hprinter Hipp Hn.
  rewrite post_api_print_even_timed_answer.
  pose proof (post_api_print_even_timed_run host req w) as H. cbv zeta in H.
  fold filePath in H.
  rewrite Hid, Hname, Hj, Hstatus, Hfile, Hprinter in H. simpl in H.
  destruct H as (evenDoc & _ & H).
  match type of H with
  | context [ipp_execute host ?k ?uri ?msg] =>
      destruct (Hipp k msg) as [u Hu]; rewrite Hu in H
  end.
  unfold job_of_reply in H. destruct (Z.eqb_spec n 0); [done|].
  destruct H as (job & -> & _). simpl. eexists _, _. split; reflexivity.
Qed.

(** A submission that is answered 200 for duplex settings has sent the
    saved document of the odd pages and left its job awaiting the even
    ones. *)
Lemma duplex_submission_run (req : PrintRequest) (st : PrintSettings)
  (w w' : World) (resp : Response) (timer : option jsstring) :
  let filePath := path_join host (UPLOAD_DIR host) (filename req) in
  let artifact :=
    outputPath host filePath (str "odd") (clock host (2 + readings w)) in
  settings req = Some st →
  duplex st = true →
  post_api_print_timed host req w = (Returned (resp, timer), w') →
  code resp = 200 →
  ∃ doc oddDoc doc' cupsJobId job0 job,
    files w !! filePath = Some (PdfBytes doc)
    ∧ Forall2 (names doc) oddDoc
        (filteredPages (Z.of_nat (List.length doc)) (pageRange st) Odd)
    ∧ timer = (if bool_decide (artifact ≠ filePath)
               then Some artifact else None)
    ∧ w' = entered (jobId_in host w) job
             (sent (printer_uri host (printerName req))
                (print_job_msg (str "Print Job - " ++ filename req)
                   (or_1 (copies st)) (PdfBytes (save oddDoc)))
                (entered (jobId_in host w) job0
                   (written artifact (save oddDoc) (tick (tick w)))))
    ∧ body resp = JobBody (jobId_in host w) cupsJobId (Some job)
    ∧ id job = jobId_in host w
    ∧ status job = awaiting_even_pages
    ∧ currentStep job = Some Even
    ∧ <[artifact := PdfBytes (save oddDoc)]> (files w) !! filePath
      = Some (PdfBytes doc')
    ∧ totalPages job = Some (Z.of_nat (List.length doc')).
Proof.
  intros filePath artifact Hst Hduplex Hrun Hcode.
  pose proof (post_api_print_timed_run host req w) as H. cbv zeta in H.
  fold filePath in H. rewrite Hrun, Hst in H.
  destruct (truthy (filename req)).
  2:{ destruct H as (resp0 & [= <- _ _] & H). by rewrite Hcode in H. }
  destruct (files w !! filePath) as [fd|] eqn:Hfile.
  2:{ destruct H as (resp0 & [= <- _ _] & H). by rewrite Hcode in H. }
  destruct (needs_processing st && negb (is_pdf fd)).
  { injection H as -> _ _. done. }
  destruct H as (processed & d & w1 & job0 & Hby & Hid & Hstatus & H).
  unfold processed_by in Hby. rewrite Hduplex in Hby.
  destruct Hby as (doc & oddDoc & -> & Hodd & -> & -> & ->).
  destruct (truthy (printer_of host (printerName req))).
  2:{ injection H as -> _ _. done. }
  destruct (job_of_reply _) as [cups|].
  2:{ injection H as -> _ _. done. }
  rewrite Hduplex in H.
  destruct H as (job & [= -> -> ->] & Hjob & Hawait & Hstep & doc' & Hdoc'
                 & Htotal).
  exists doc, oddDoc, doc', (CupsClient.jobId cups), job0, job.
  split_and!; done.
Qed.

(** C1.  A duplex submission that the coordinator answers with success
    has, whatever the layout setting, extracted exactly the odd pages of
    the base set (the parsed range when a non-empty range is given, all
    pages otherwise) and submitted the saved document of these pages to
    the spooler: the odd pages themselves when there is one, and a single
    blank A4 page, which saving adds to a document without pages, when
    there is none.  It has left the job [awaiting-even-pages] with
    [currentStep = even] and [totalPages] the page count of the uploaded
    document.  The artifact is assumed to be written beside the upload,
    not over it. *)
Theorem duplex_submission (req : PrintRequest) (st : PrintSettings)
  (w w' : World) (resp : Response) :
  let filePath := path_join host (UPLOAD_DIR host) (filename req) in
  let artifact :=
    outputPath host filePath (str "odd") (clock host (2 + readings w)) in
  settings req = Some st →
  duplex st = true →
  artifact ≠ filePath →
  post_api_print host req w = (Returned resp, w') →
  code resp = 200 →
  ∃ doc oddDoc jobId cupsJobId msg job,
    files w !! filePath = Some (PdfBytes doc)
    ∧ Forall2 (names doc) oddDoc
        (List.filter Z.odd
           (base_set (pageRange st) (Z.of_nat (List.length doc))))
    ∧ ipp_sent w' = ipp_sent w ++ [(printer_uri host (printerName req), msg)]
    ∧ data msg = PdfBytes (save oddDoc)
    ∧ (oddDoc ≠ [] → data msg = PdfBytes oddDoc)
    ∧ (oddDoc = [] → data msg = PdfBytes [Sheet A4_width A4_height []])
    ∧ body resp = JobBody jobId cupsJobId (Some job)
    ∧ printJobs w' !! jobId = Some job
    ∧ id job = jobId
    ∧ status job = awaiting_even_pages
    ∧ currentStep job = Some Even
    ∧ totalPages job = Some (Z.of_nat (List.length doc)).
Proof.
  intros filePath artifact Hst Hduplex Hfresh Hrun Hcode.
  destruct (post_api_print_timed_of host req w w' resp Hrun)
    as [timer Htimed].
  destruct (duplex_submission_run req st w w' resp timer Hst Hduplex Htimed
              Hcode)
    as (doc & oddDoc & doc' & cups & job0 & job & Hfile & Hodd & _ & ->
        & Hbody & Hid & Hstatus & Hstep & Hdoc' & Htotal).
  fold filePath in Hfile, Hdoc'. fold artifact in Hdoc'.
  rewrite lookup_insert_ne, Hfile in Hdoc' by done. injection Hdoc' as <-.
  rewrite filteredPages_matches, pagesToProcess_base_set in Hodd.
  eexists doc, oddDoc, (jobId_in host w), cups, _, job.
  split_and!; try done.
  - intros Hne. simpl. by destruct oddDoc.
  - by intros ->.
  - simpl. apply lookup_insert_eq.
Qed.


(** A job found [failed] after an insertion of a job that is not [failed]
    was there, and [failed], before. *)
Lemma failed_not_inserted (jobs : gmap jsstring PrintJob) jobId job k j :
  status job ≠ failed →
  <[jobId := job]> jobs !! k = Some j →
  status j = failed →
  jobs !! k = Some j.
Proof.
  intros Hjob Hk Hj. rewrite lookup_insert in Hk.
  case_decide; [|done]. injection Hk as <-. done.
Qed.

(** Whatever a submission comes to, answered or not, the job table is as
    before or has one entry more or renewed, which is not [failed]. *)
Lemma post_api_print_timed_jobs (req : PrintRequest) (w w' : World) o :
  post_api_print_timed host req w = (o, w') →
  printJobs w' = printJobs w
  ∨ ∃ job, printJobs w' = <[jobId_in host w := job]> (printJobs w)
           ∧ status job ≠ failed.
Proof.
  intros Hrun.
  pose proof (post_api_print_timed_run host req w) as H. cbv zeta in H.
  rewrite Hrun in H.
  destruct (settings req) as [st|].
  2:{ destruct H as (resp0 & [= _ ->] & _). by left. }
  destruct (truthy (filename req)).
  2:{ destruct H as (resp0 & [= _ ->] & _). by left. }
  destruct (files w !! _) as [fd|].
  2:{ destruct H as (resp0 & [= _ ->] & _). by left. }
  destruct (needs_processing st && negb (is_pdf fd)).
  { injection H as _ ->. by left. }
  destruct H as (processed & d & w1 & job0 & Hby & Hid & Hstatus & H).
  destruct (processed_by_world _ _ _ _ _ _ _ _ Hby) as (Hjobs & _).
  assert (status job0 ≠ failed) as Hjob0 by (by rewrite Hstatus).
  destruct (truthy (printer_of host (printerName req))).
  2:{ injection H as _ ->. right. exists job0. simpl. by rewrite Hjobs. }
  destruct d as [doc|raw|].
  3:{ injection H as _ ->. right. exists job0. simpl. by rewrite Hjobs. }
  all: destruct (job_of_reply _) as [cups|];
    [destruct H as (job & [= _ ->] & _ & Hrest); right; exists job; simpl;
     rewrite insert_insert_eq, Hjobs; split; [done|];
     destruct (duplex st); [destruct Hrest as (-> & _)|rewrite Hrest]; done
    |injection H as _ ->; right; exists job0; simpl; by rewrite Hjobs].
Qed.

Lemma post_api_print_even_timed_jobs (req : PrintEven.Body) (w w' : World) o :
  post_api_print_even_timed host req w = (o, w') →
  printJobs w' = printJobs w
  ∨ ∃ job, printJobs w' = <[PrintEven.jobId req := job]> (printJobs w)
           ∧ status job ≠ failed.
Proof.
  intros Hrun.
  pose proof (post_api_print_even_timed_run host req w) as H.
  cbv zeta in H. rewrite Hrun in H.
  destruct (truthy _ && truthy _).
  2:{ destruct H as (resp0 & [= _ ->] & _). by left. }
  destruct (printJobs w !! _) as [j|].
  2:{ destruct H as (resp0 & [= _ ->] & _). by left. }
  destruct (is_awaiting (status j)).
  2:{ destruct H as (resp0 & [= _ ->] & _). by left. }
  destruct (files w !! _) as [[doc|raw|]|].
  2,3: injection H as _ ->; by left.
  2:{ destruct H as (resp0 & [= _ ->] & _). by left. }
  destruct H as (evenDoc & _ & H).
  destruct (truthy (printer_of host (PrintEven.printerName req))).
  2:{ injection H as _ ->. by left. }
  destruct (job_of_reply _) as [cups|].
  - destruct H as (job & [= _ ->] & _ & Hdone). right. exists job.
    split; [done|]. by rewrite Hdone.
  - injection H as _ ->. by left.
Qed.

(** A submission whose document cannot be processed is answered with the
    server error before any job is entered. *)
Lemma processing_failure_run (req : PrintRequest) (st : PrintSettings)
  (fd : FileData) (w : World) :
  settings req = Some st →
  truthy (filename req) = true →
  files w !! path_join host (UPLOAD_DIR host) (filename req) = Some fd →
  needs_processing st = true →
  is_pdf fd = false →
  post_api_print_timed host req w
  = (Returned (print_failure, None), tick (tick w)).
Proof.
  intros Hst Hname Hfile Hneeds Hpdf.
  pose proof (post_api_print_timed_run host req w) as H. cbv zeta in H.
  by rewrite Hst, Hname, Hfile, Hneeds, Hpdf in H.
Qed.

(** Once the file is ready, what the spooler client meets decides. *)
Lemma spooler_run (req : PrintRequest) (st : PrintSettings)
  (fd : FileData) (w : World) :
  settings req = Some st →
  truthy (filename req) = true →
  files w !! path_join host (UPLOAD_DIR host) (filename req) = Some fd →
  needs_processing st = false ∨ is_pdf fd = true →
  ∃ job0 w1,
    status job0 = processing
    ∧ printJobs w1 = printJobs w
    ∧ (truthy (printer_of host (printerName req)) = false →
       post_api_print_timed host req w
       = (Returned (print_failure, None), entered (jobId_in host w) job0 w1))
    ∧ (truthy (printer_of host (printerName req)) = true →
       needs_processing st = false → fd = Directory →
       post_api_print_timed host req w
       = (Unsettled, entered (jobId_in host w) job0 w1))
    ∧ (truthy (printer_of host (printerName req)) = true →
       fd ≠ Directory →
       (∀ msg, job_of_reply
                 (ipp_execute host (List.length (ipp_sent w))
                    (printer_uri host (printerName req)) msg) = None) →
       ∃ msg,
         post_api_print_timed host req w
         = (Returned (print_failure, None),
            sent (printer_uri host (printerName req)) msg
              (entered (jobId_in host w) job0 w1))).
Proof.
  intros Hst Hname Hfile Hcond.
  pose proof (post_api_print_timed_run host req w) as H. cbv zeta in H.
  rewrite Hst, Hname, Hfile in H.
  assert (needs_processing st && negb (is_pdf fd) = false) as Hgo.
  { destruct Hcond as [-> | ->]; [done|]. apply andb_false_r. }
  rewrite Hgo in H.
  destruct H as (processed & d & w1 & job0 & Hby & Hid & Hstatus & H).
  destruct (processed_by_world _ _ _ _ _ _ _ _ Hby) as (Hjobs & _).
  exists job0, w1. split_and!; try done.
  - intros Hprinter. by rewrite Hprinter in H.
  - intros Hprinter Hneeds ->. rewrite Hprinter in H.
    by destruct (processed_by_plain _ _ _ _ _ _ _ _ Hby Hneeds)
      as (_ & -> & _).
  - intros Hprinter Hfd Hnone. rewrite Hprinter in H.
    assert (d ≠ Directory) as Hd.
    { destruct (needs_processing st) eqn:Hneeds.
      - destruct (processed_by_pdf _ _ _ _ _ _ _ _ Hby Hneeds)
          as (doc & newDoc & _ & -> & _). done.
      - by destruct (processed_by_plain _ _ _ _ _ _ _ _ Hby Hneeds)
          as (_ & -> & _). }
    rewrite Hnone in H. eexists. by destruct d.
Qed.

(** A resume request that gets as far as the document and fails there or
    at the spooler is answered with the server error. *)
Lemma print_even_failure_run (req : PrintEven.Body) (j : PrintJob)
  (fd : FileData) (w : World) :
  let filePath := path_join host (UPLOAD_DIR host) (PrintEven.filename req) in
  truthy (PrintEven.jobId req) = true →
  truthy (PrintEven.filename req) = true →
  printJobs w !! PrintEven.jobId req = Some j →
  status j = awaiting_even_pages →
  files w !! filePath = Some fd →
  is_pdf fd = false
  ∨ truthy (printer_of host (PrintEven.printerName req)) = false
  ∨ (∀ msg, job_of_reply
              (ipp_execute host (List.length (ipp_sent w))
                 (printer_uri host (PrintEven.printerName req)) msg) = None) →
  ∃ w', post_api_print_even_timed host req w
        = (Returned (print_even_failure, None), w')
        ∧ printJobs w' = printJobs w.
Proof.
  intros filePath Hid Hname Hj Hstatus Hfile Hfail.
  pose proof (post_api_print_even_timed_run host req w) as H.
  cbv zeta in H. fold filePath in H.
  rewrite Hid, Hname, Hj, Hstatus, Hfile in H. simpl in H.
  destruct fd as [doc|raw|]; [|by eexists|by eexists].
  destruct H as (evenDoc & _ & H).
  destruct (truthy (printer_of host (PrintEven.printerName req)))
    eqn:Hprinter; [|by eexists].
  destruct Hfail as [Hpdf | [Hno | Hnone]]; [done|done|].
  rewrite Hnone in H. by eexists.
Qed.


End Coordinator.

(** ** The scenario, run *)

(** The duplex submission of the scenario: pages 1-2 of four, 4-up set. *)
Lemma duplex_submission_witness :
  let host := Scenario.host Scenario.accepted in
  let req := Scenario.duplex_request in
  let w := Scenario.world in
  let w' := snd Scenario.after_odd in
  let filePath := path_join host (UPLOAD_DIR host) (filename req) in
  let artifact :=
    outputPath host filePath (str "odd") (clock host (2 + readings w)) in
  (settings req = Some Scenario.duplex_settings
   ∧ duplex Scenario.duplex_settings = true
   ∧ artifact ≠ filePath
   ∧ Server.post_api_print host req w = (Returned Scenario.odd_response, w')
   ∧ Server.code Scenario.odd_response = 200)
  ∧ ∃ doc oddDoc jobId cupsJobId msg job,
      files w !! filePath = Some (PdfBytes doc)
      ∧ Forall2 (names doc) oddDoc
          (List.filter Z.odd
             (base_set (pageRange Scenario.duplex_settings)
                (Z.of_nat (List.length doc))))
      ∧ ipp_sent w' = ipp_sent w ++ [(printer_uri host (printerName req), msg)]
      ∧ data msg = PdfBytes (save oddDoc)
      ∧ (oddDoc ≠ [] → data msg = PdfBytes oddDoc)
      ∧ (oddDoc = [] → data msg = PdfBytes [Sheet A4_width A4_height []])
      ∧ Server.body Scenario.odd_response
        = Server.JobBody jobId cupsJobId (Some job)
      ∧ printJobs w' !! jobId = Some job
      ∧ id job = jobId
      ∧ status job = awaiting_even_pages
      ∧ currentStep job = Some Even
      ∧ totalPages job = Some (Z.of_nat (List.length doc)).
Proof.
  intros host req w w' filePath artifact.
  assert (settings req = Some Scenario.duplex_settings) as H1 by reflexivity.
  assert (duplex Scenario.duplex_settings = true) as H2 by reflexivity.
  assert (artifact ≠ filePath) as H3
    by (intros H; vm_compute in H; discriminate H).
  assert (Server.post_api_print host req w
          = (Returned Scenario.odd_response, w')) as H4
    by (vm_compute; reflexivity).
  assert (Server.code Scenario.odd_response = 200) as H5 by reflexivity.
  split; [by split_and!|].
  exact (duplex_submission host req Scenario.duplex_settings w w'
           Scenario.odd_response H1 H2 H3 H4 H5).
Defined.

(** C1, as the specification words it, fails: a duplex submission for
    page 2 alone selects no odd page, is answered with success, and has
    sent a document of one blank A4 page, which is no page of the
    upload. *)
Lemma duplex_without_odd_page_sends_blank : ¬ duplex_submits_odd_pages.
Proof.
  intros H.
  destruct (H (Scenario.host Scenario.accepted) Tour.second_page_request
              Tour.second_page_settings Scenario.world
              Scenario.odd_response
              (snd (Server.post_api_print (Scenario.host Scenario.accepted)
                      Tour.second_page_request Scenario.world)))
    as (doc & oddDoc & uri & msg & Hfile & Hodd & Hlast & Hdata).
  - reflexivity.
  - reflexivity.
  - vm_compute. reflexivity.
  - reflexivity.
  - vm_compute in Hfile. injection Hfile as <-.
    vm_compute in Hodd. inversion Hodd; subst.
    vm_compute in Hlast. injection Hlast as <- <-.
    vm_compute in Hdata. discriminate Hdata.
Qed.




(** C9, at the failing input.  The client submits pages 1-2 of the
    four-page document in duplex, then resumes as [handlePrintEven] does,
    with a body that carries no page range.  The odd pass printed page 1
    alone; the even pass prints pages 2 and 4, under the job name that
    ends in "(Even Pages)", where the even pages of the range are page 2
    alone. *)
Theorem resume_even_ignores_original_range :
  let first_pass := snd Scenario.after_odd in
  let second_pass := snd Scenario.after_even in
  PrintEven.pageRange Scenario.resume_request = None
  ∧ (data ∘ snd) <$> ipp_sent first_pass
    = [PdfBytes [Scenario.page 1]]
  ∧ Server.code <$> (match fst Scenario.after_even with
                     | Returned resp => Some resp
                     | _ => None
                     end) = Some 200
  ∧ (data ∘ snd) <$> ipp_sent second_pass
    = [PdfBytes [Scenario.page 1]; PdfBytes [Scenario.page 2; Scenario.page 4]]
  ∧ (job_name ∘ snd) <$> ipp_sent second_pass
    = [str "Print Job - doc.pdf"; str "Print Job - doc.pdf (Even Pages)"]
  ∧ filteredPages 4 (pageRange Scenario.duplex_settings) Even = [2]
  ∧ filteredPages 4 (PrintEven.pageRange Scenario.resume_request) Even = [2; 4].
Proof.
  split_and!; vm_compute; reflexivity.
Qed.

(** * Further properties *)

(** ** More on the range parser *)

(** Splitting at a separator splits what stands before and after it. *)
Lemma split_app sep a b :
  split sep (a ++ sep :: b) = split sep a ++ split sep b.
Proof.
  induction a as [|c a IH]; simpl.
  - by rewrite N.eqb_refl.
  - destruct (N.eqb c sep); [by rewrite IH|].
    rewrite IH. pose proof (split_not_nil sep a).
    by destruct (split sep a).
Qed.

(** X1.  The pages that [parsePageRange] returns depend on the set of
    trimmed, comma-separated tokens of the expression only: two
    expressions with the same tokens, in whatever order and however often
    repeated, select the same pages of a document. *)
Theorem parsePageRange_order_irrelevant (r1 r2 : jsstring) (totalPages : Z) :
  (∀ part, part ∈ parts_of r1 ↔ part ∈ parts_of r2) →
  parsePageRange r1 totalPages = parsePageRange r2 totalPages.
Proof.
  intros Hparts. apply strict_sorted_unique; try apply parsePageRange_sorted.
  intros x. rewrite !elem_of_parsePageRange.
  split; intros (part & Hp & Hx); exists part; split; try done; by apply Hparts.
Qed.

(** The tokens [8] and [1-5], in two orders. *)
Lemma parsePageRange_order_irrelevant_witness :
  (∀ part, part ∈ parts_of (str "8, 1-5") ↔ part ∈ parts_of (str "1-5,8,8"))
  ∧ parsePageRange (str "8, 1-5") 20 = parsePageRange (str "1-5,8,8") 20.
Proof.
  assert (∀ part, part ∈ parts_of (str "8, 1-5") ↔ part ∈ parts_of (str "1-5,8,8")) as H.
  { intros part. vm_compute parts_of. rewrite !elem_of_cons, !elem_of_nil. tauto. }
  split; [exact H|]. exact (parsePageRange_order_irrelevant _ _ 20 H).
Defined.

(** X2.  A comma joins two expressions: a page is selected by [a,b]
    exactly when [a] selects it or [b] does. *)
Theorem parsePageRange_comma_union (a b : jsstring) (totalPages x : Z) :
  x ∈ parsePageRange (a ++ comma :: b) totalPages
  ↔ x ∈ parsePageRange a totalPages ∨ x ∈ parsePageRange b totalPages.
Proof.
  rewrite !elem_of_parsePageRange. unfold parts_of.
  rewrite split_app, map_app. split.
  - intros (part & [Hp|Hp]%elem_of_app & Hx); eauto.
  - intros [(part & Hp & Hx)|(part & Hp & Hx)]; exists part;
      rewrite elem_of_app; auto.
Qed.

(** X3.  The page count cuts the selection and changes nothing else: for
    [t ≤ t'], what an expression selects in a document of [t] pages is what
    it selects in one of [t'] pages, without the pages above [t]. *)
Theorem parsePageRange_truncates (range : jsstring) (t t' : Z) :
  t ≤ t' →
  parsePageRange range t = List.filter (λ x, x <=? t) (parsePageRange range t').
Proof.
  intros Ht. apply strict_sorted_unique.
  - apply parsePageRange_sorted.
  - apply filter_sorted, parsePageRange_sorted.
  - intros x. rewrite (list_elem_of_In (List.filter _ _) x), filter_In.
    rewrite <- list_elem_of_In, !elem_of_parsePageRange, Z.leb_le.
    assert (∀ part, x ∈ parse_part t [] part
                    ↔ x ∈ parse_part t' [] part ∧ x ≤ t) as Hpart.
    { intros part. destruct (includes hyphen part) eqn:Hinc.
      - destruct (proj1 (split_with _ _) Hinc) as (a & b & rest & Hsplit).
        rewrite !(parse_part_pair _ _ _ _ _ Hsplit).
        destruct (parseInt (trim a)) as [|s]; [rewrite elem_of_nil; tauto|].
        destruct (parseInt (trim b)) as [|e]; [rewrite elem_of_nil; tauto|].
        rewrite !elem_of_seqZ. lia.
      - rewrite !(parse_part_single _ _ Hinc).
        destruct (parseInt part) as [|z]; [rewrite elem_of_nil; tauto|].
        destruct (Z.leb_spec 1 z), (Z.leb_spec z t), (Z.leb_spec z t'); simpl;
          rewrite ?list_elem_of_singleton, ?elem_of_nil; lia. }
    split.
    + intros (part & Hp & Hx). apply Hpart in Hx as [Hx Hle]. eauto.
    + intros [(part & Hp & Hx) Hle]. exists part. split; [done|].
      apply Hpart. done.
Qed.

(** Pages 2 to 9 of a document of four pages, and of ten. *)
Lemma parsePageRange_truncates_witness :
  parsePageRange (str "2-9, 1") 4
  = List.filter (λ x, x <=? 4) (parsePageRange (str "2-9, 1") 10).
Proof.
  exact (parsePageRange_truncates (str "2-9, 1") 4 10 ltac:(lia)).
Defined.

(** ** Decimal numerals *)

(** The code units of a decimal numeral are those of its digits. *)
Lemma str_uint d :
  str (NilEmpty.string_of_uint d) = map digit_unit (uint_digits d).
Proof.
  induction d; simpl; try reflexivity;
    unfold str in *; simpl; rewrite IHd; reflexivity.
Qed.

Lemma uint_digits_range d : Forall (λ v, 0 ≤ v ≤ 9) (uint_digits d).
Proof. induction d; simpl; constructor; (lia || done). Qed.

(** A run of decimal digits, followed by what is no digit, is read to
    its end. *)
Lemma leading_digits_all ds rest :
  Forall (λ v, 0 ≤ v ≤ 9) ds →
  match rest with
  | [] => True
  | c :: _ => digit_value 10 c = None
  end →
  leading_digits 10 (map digit_unit ds ++ rest) = ds.
Proof.
  intros Hds Hrest. induction Hds as [|v ds Hv Hds IH]; simpl.
  - destruct rest as [|c rest]; [done|]. simpl. by rewrite Hrest.
  - assert (digit_value 10 (digit_unit v) = Some v) as ->.
    { unfold digit_value, digit_unit. rewrite Z2N.id by lia.
      destruct (Z.leb_spec 48 (48 + v)); [|lia].
      destruct (Z.leb_spec (48 + v) 57); [|lia]. simpl.
      replace (48 + v - 48) with v by lia.
      destruct (Z.ltb_spec v 10); [done|lia]. }
    by rewrite IH.
Qed.

(** The value of the digits of a numeral is the number it writes. *)
Lemma digits_value_acc d acc :
  fold_left (λ a v, a * 10 + v) (uint_digits d) (Z.pos acc)
  = Z.pos (Pos.of_uint_acc d acc).
Proof.
  revert acc. induction d; intros acc; simpl; try reflexivity;
    rewrite <- IHd; f_equal; lia.
Qed.

Lemma digits_value_uint d :
  digits_value 10 (uint_digits d) = Z.of_N (Pos.of_uint d).
Proof.
  unfold digits_value. induction d; simpl; try reflexivity; try exact IHd;
    exact (digits_value_acc d _).
Qed.

(** A decimal digit is no white space, no sign, no comma and no [x]. *)
Lemma digit_unit_facts ds :
  Forall (λ v, 0 ≤ v ≤ 9) ds →
  Forall (λ c, is_white_space c = false ∧ N.eqb c hyphen = false
               ∧ N.eqb c plus_sign = false ∧ N.eqb c comma = false
               ∧ N.eqb c 120 = false ∧ N.eqb c 88 = false)
    (map digit_unit ds).
Proof.
  intros H. apply Forall_forall. intros c Hc.
  apply list_elem_of_In, in_map_iff in Hc as (v & <- & Hv).
  apply list_elem_of_In in Hv. rewrite Forall_forall in H. specialize (H v Hv).
  assert (v = 0 ∨ v = 1 ∨ v = 2 ∨ v = 3 ∨ v = 4 ∨ v = 5 ∨ v = 6 ∨ v = 7
          ∨ v = 8 ∨ v = 9) as Hcases by lia.
  repeat destruct Hcases as [-> | Hcases]; try subst v; by vm_compute.
Qed.

(** [parseInt] reads a run of decimal digits, with or without a minus
    sign before it, as the number they write. *)
Lemma parseInt_digits (negative : bool) v ds :
  Forall (λ v, 0 ≤ v ≤ 9) (v :: ds) →
  parseInt ((if negative then [hyphen] else []) ++ map digit_unit (v :: ds))
  = Num ((if negative then -1 else 1) * digits_value 10 (v :: ds)).
Proof.
  intros Hr. pose proof (digit_unit_facts _ Hr) as Hf.
  assert (leading_digits 10 (map digit_unit (v :: ds)) = v :: ds) as Hlead.
  { rewrite <- (app_nil_r (map _ _)). by apply leading_digits_all. }
  simpl map in *. apply Forall_cons in Hf as [(Hw & Hh & Hp & _) Hf].
  unfold parseInt.
  assert (match map digit_unit ds with
          | [] => True
          | x :: _ => N.eqb x 120 || N.eqb x 88 = false
          end) as Hx.
  { destruct ds as [|v2 ds]; [done|]. simpl in *.
    apply Forall_cons in Hf as [(_ & _ & _ & _ & -> & ->) _]. done. }
  destruct negative; simpl app; simpl trimStart;
    change (is_white_space hyphen) with false;
    cbv beta iota;
    change (N.eqb hyphen hyphen) with true;
    rewrite ?Hw, ?Hh, ?Hp;
    cbv beta iota;
    set (s := digit_unit v :: map digit_unit ds) in *; clearbody s;
    (destruct (map digit_unit ds) as [|x r];
     (destruct (digit_unit v) as [|p]; [|do 6 (try destruct p as [p|p|])]);
     cbv beta iota; rewrite ?Hx; rewrite Hlead; reflexivity).
Qed.





(** The numeral of a positive number has a first digit, and its digits
    have the number as value. *)
Lemma to_uint_digits p :
  ∃ v ds, uint_digits (Pos.to_uint p) = v :: ds
          ∧ NilZero.string_of_uint (Pos.to_uint p)
            = NilEmpty.string_of_uint (Pos.to_uint p)
          ∧ digits_value 10 (v :: ds) = Z.pos p.
Proof.
  pose proof (DecimalPos.Unsigned.of_to p) as Hp.
  pose proof (digits_value_uint (Pos.to_uint p)) as Hv. rewrite Hp in Hv.
  destruct (Pos.to_uint p) eqn:Hd; [discriminate Hp|..];
    eexists _, _; (split_and!; [reflexivity|reflexivity|exact Hv]).
Qed.

(** [parseInt(`${z}`)] is [z]. *)
Lemma parseInt_toString z : parseInt (toString z) = Num z.
Proof.
  unfold toString. destruct z as [|p|p]; [reflexivity| |].
  - simpl. destruct (to_uint_digits p) as (v & ds & Hd & -> & Hv).
    pose proof (uint_digits_range (Pos.to_uint p)) as Hr.
    rewrite str_uint, Hd. rewrite Hd in Hr.
    exact (eq_trans (parseInt_digits false v ds Hr) (f_equal (λ z, Num (1 * z)) Hv)).
  - simpl. destruct (to_uint_digits p) as (v & ds & Hd & -> & Hv).
    pose proof (uint_digits_range (Pos.to_uint p)) as Hr.
    change (str (String "-" ?s)) with (hyphen :: str s).
    rewrite str_uint, Hd. rewrite Hd in Hr.
    exact (eq_trans (parseInt_digits true v ds Hr) (f_equal (λ z, Num (-1 * z)) Hv)).
Qed.

(** *** Decimal page numbers in a range expression *)

(** The numeral of a natural number is a non-empty run of digits. *)
Lemma toString_digits z :
  0 ≤ z →
  ∃ v ds, toString z = map digit_unit (v :: ds)
          ∧ Forall (λ v, 0 ≤ v ≤ 9) (v :: ds).
Proof.
  intros Hz. unfold toString. destruct z as [|p|p]; [|clear Hz|lia].
  - exists 0, []. split; [reflexivity|]. constructor; [lia|constructor].
  - simpl. destruct (to_uint_digits p) as (v & ds & Hd & -> & _).
    pose proof (uint_digits_range (Pos.to_uint p)) as Hr.
    rewrite str_uint, Hd. rewrite Hd in Hr. eauto.
Qed.

(** Trimming changes nothing where there is no white space at the ends. *)
Lemma trimStart_head s :
  match s with c :: _ => is_white_space c = false | [] => True end →
  trimStart s = s.
Proof. destruct s as [|c s]; [done|]. simpl. by intros ->. Qed.

Lemma trim_plain s :
  Forall (λ c, is_white_space c = false) s → trim s = s.
Proof.
  intros Hs. unfold trim, trimEnd.
  rewrite (trimStart_head s) by (by destruct Hs).
  rewrite (trimStart_head (rev s)), rev_involutive; [done|].
  apply Forall_rev in Hs. by destruct Hs.
Qed.

Lemma includes_false c s :
  Forall (λ x, N.eqb x c = false) s → includes c s = false.
Proof.
  intros Hs. unfold includes. induction Hs as [|x s Hx Hs IH]; [done|].
  simpl. rewrite N.eqb_sym, Hx. exact IH.
Qed.

(** The decimal numeral of a natural number: no white space, no comma, no
    hyphen, and [parseInt] reads the number back. *)
Lemma toString_plain z :
  0 ≤ z →
  trim (toString z) = toString z
  ∧ includes comma (toString z) = false
  ∧ includes hyphen (toString z) = false
  ∧ Forall (λ c, is_white_space c = false) (toString z).
Proof.
  intros (v & ds & -> & Hr)%toString_digits.
  pose proof (digit_unit_facts _ Hr) as Hf.
  assert (Forall (λ c, is_white_space c = false) (map digit_unit (v :: ds))) as Hw.
  { eapply Forall_impl; [exact Hf|]. simpl. tauto. }
  split_and!; [by apply trim_plain| | |done].
  - apply includes_false. eapply Forall_impl; [exact Hf|]. simpl. tauto.
  - apply includes_false. eapply Forall_impl; [exact Hf|]. simpl. tauto.
Qed.

Lemma includes_app c a b : includes c (a ++ b) = includes c a || includes c b.
Proof. apply existsb_app. Qed.

Lemma parts_of_single s :
  includes comma s = false → parts_of s = [trim s].
Proof. intros H. unfold parts_of. by rewrite split_without. Qed.

(** The token [a-b] of two decimal numerals: it is the whole expression,
    and its pages are those between the two numbers. *)
Lemma decimal_range_token (a b totalPages : Z) :
  0 ≤ a → 0 ≤ b →
  let part := toString a ++ hyphen :: toString b in
  parts_of part = [part]
  ∧ parse_part totalPages [] part
    = seqZ (Z.max a 1) (Z.min b totalPages + 1 - Z.max a 1).
Proof.
  intros Ha Hb part.
  destruct (toString_plain a Ha) as (Hta & Hca & Hha & Hwa).
  destruct (toString_plain b Hb) as (Htb & Hcb & Hhb & Hwb).
  assert (trim part = part) as Htrim.
  { apply trim_plain, Forall_app. split; [done|]. by constructor. }
  split.
  - rewrite parts_of_single, Htrim; [done|].
    unfold part. rewrite includes_app. simpl. by rewrite Hca, Hcb.
  - assert (split hyphen part = [toString a; toString b]) as Hsplit.
    { unfold part. by rewrite split_app, !split_without. }
    by rewrite (parse_part_pair _ _ _ _ _ Hsplit), Hta, Htb, !parseInt_toString.
Qed.

(** An expression of one token whose pages come in ascending order selects
    those pages. *)
Lemma parsePageRange_one_token range part totalPages :
  parts_of range = [part] →
  StronglySorted Z.lt (parse_part totalPages [] part) →
  parsePageRange range totalPages = parse_part totalPages [] part.
Proof.
  intros Hparts Hsorted.
  apply strict_sorted_unique; [apply parsePageRange_sorted|done|].
  intros x. rewrite elem_of_parsePageRange, Hparts. split.
  - by intros (p & ->%list_elem_of_singleton & Hx).
  - intros Hx. exists part. split; [by apply list_elem_of_singleton|done].
Qed.

(** X4.  For natural numbers [a] and [b] in decimal, the expression
    [a-b] selects the pages from [max(a, 1)] to [min(b, totalPages)] in
    ascending order, hence none when [a > b] or [a > totalPages]. *)
Theorem parsePageRange_decimal_range (a b totalPages : Z) :
  0 ≤ a → 0 ≤ b →
  parsePageRange (toString a ++ hyphen :: toString b) totalPages
  = seqZ (Z.max a 1) (Z.min b totalPages + 1 - Z.max a 1).
Proof.
  intros Ha Hb.
  destruct (decimal_range_token a b totalPages Ha Hb) as [Hparts Hpages].
  rewrite (parsePageRange_one_token _ _ _ Hparts); [done|].
  rewrite Hpages. apply seqZ_sorted.
Qed.

(** Pages 3 to 11 of a document of eight pages. *)
Lemma parsePageRange_decimal_range_witness :
  parsePageRange (str "3-11") 8 = [3; 4; 5; 6; 7; 8].
Proof.
  exact (parsePageRange_decimal_range 3 11 8 ltac:(lia) ltac:(lia)).
Defined.

(** A single decimal page number selects that page when the document has
    it, and nothing otherwise. *)
Lemma parsePageRange_decimal_page (n totalPages : Z) :
  0 ≤ n →
  parsePageRange (toString n) totalPages
  = if (1 <=? n) && (n <=? totalPages) then [n] else [].
Proof.
  intros Hn. destruct (toString_plain n Hn) as (Ht & Hc & Hh & Hw).
  unfold parsePageRange. rewrite parts_of_single, Ht by done. simpl.
  rewrite parse_part_single, parseInt_toString by done.
  by destruct (_ && _).
Qed.

(** X5.  For a document of [N] pages the expression [1-N] selects what
    an absent range selects: every page. *)
Theorem full_range_is_no_range (totalPages : Z) :
  0 ≤ totalPages →
  pagesToProcess (Some (toString 1 ++ hyphen :: toString totalPages)) totalPages
  = pagesToProcess None totalPages.
Proof.
  intros Ht. unfold pagesToProcess.
  replace (truthy _) with true by (by destruct (toString 1)).
  destruct (decimal_range_token 1 totalPages totalPages) as [Hparts Hpages];
    [lia|lia|].
  rewrite (parsePageRange_one_token _ _ _ Hparts), Hpages, all_pages_seqZ.
  - f_equal; lia.
  - rewrite Hpages. apply seqZ_sorted.
Qed.

(** The range [1-4] for a document of four pages. *)
Lemma full_range_is_no_range_witness :
  pagesToProcess (Some (str "1-4")) 4 = pagesToProcess None 4.
Proof. exact (full_range_is_no_range 4 ltac:(lia)). Defined.

(** ** The two passes of a duplex job *)

(** A filter and its complement split a list. *)
Lemma filter_complement {A} (f g : A → bool) (l : list A) :
  Forall (λ x, g x = negb (f x)) l →
  List.filter f l ++ List.filter g l ≡ₚ l.
Proof.
  induction 1 as [|x l Hx Hl IH]; simpl; [done|].
  rewrite Hx. destruct (f x); simpl.
  - by rewrite IH.
  - rewrite <- Permutation_middle. by rewrite IH.
Qed.

Lemma odd_or_even_pages totalPages pageRange :
  filteredPages totalPages pageRange Odd
  ++ filteredPages totalPages pageRange Even
  ≡ₚ pagesToProcess pageRange totalPages.
Proof.
  unfold filteredPages. apply filter_complement, Forall_forall.
  intros x Hx%pagesToProcess_bounds.
  rewrite Z.rem_mod_nonneg by lia.
  pose proof (Z.mod_pos_bound x 2 ltac:(lia)).
  destruct (Z.eqb_spec (x mod 2) 0), (Z.eqb_spec (x mod 2) 1); simpl; lia.
Qed.

(** X6.  The odd and the even filter of [extractOddEvenPages] split the
    selected pages: the two lists together hold every selected page
    exactly once, the first odd numbers only, the second even numbers
    only. *)
Theorem odd_even_passes_partition (totalPages : Z)
  (pageRange : option jsstring) :
  let odds := filteredPages totalPages pageRange Odd in
  let evens := filteredPages totalPages pageRange Even in
  odds ++ evens ≡ₚ pagesToProcess pageRange totalPages
  ∧ NoDup (odds ++ evens)
  ∧ Forall (λ p, Z.odd p = true) odds
  ∧ Forall (λ p, Z.even p = true) evens.
Proof.
  intros odds evens. split_and!.
  - apply odd_or_even_pages.
  - unfold odds, evens. rewrite odd_or_even_pages.
    apply strict_sorted_NoDup, pagesToProcess_sorted.
  - unfold odds. rewrite filteredPages_matches. apply Forall_forall.
    intros p Hp. apply list_elem_of_In, filter_In in Hp. tauto.
  - unfold evens. rewrite filteredPages_matches. apply Forall_forall.
    intros p Hp. apply list_elem_of_In, filter_In in Hp. tauto.
Qed.

(** ** White space in a range expression *)

Section WhiteSpace.

(** A run of white space. *)
Local Abbreviation white ws := (Forall (λ c, is_white_space c = true) ws).

(** White space is neither comma nor hyphen. *)
Lemma white_space_no_separator c :
  is_white_space c = true → N.eqb c comma = false ∧ N.eqb c hyphen = false.
Proof.
  intros Hc. split.
  - destruct (N.eqb_spec c comma) as [->|]; [discriminate Hc|done].
  - destruct (N.eqb_spec c hyphen) as [->|]; [discriminate Hc|done].
Qed.

Lemma includes_white ws :
  white ws → includes comma ws = false ∧ includes hyphen ws = false.
Proof.
  intros Hws. split; apply includes_false; eapply Forall_impl; try exact Hws;
    simpl; intros c Hc; by apply white_space_no_separator in Hc as [? ?].
Qed.

(** Trimming removes a run of white space at either end. *)
Lemma trimStart_white ws s : white ws → trimStart (ws ++ s) = trimStart s.
Proof. induction 1 as [|c ws Hc _ IH]; simpl; [done|]. by rewrite Hc. Qed.

Lemma trimEnd_white s ws : white ws → trimEnd (s ++ ws) = trimEnd s.
Proof.
  intros Hws. unfold trimEnd. rewrite rev_app_distr.
  by rewrite trimStart_white by (by apply Forall_rev).
Qed.

Lemma trim_white ws1 s ws2 :
  white ws1 → white ws2 → trim (ws1 ++ s ++ ws2) = trim s.
Proof.
  intros H1 H2. unfold trim. rewrite (trimStart_white _ _ H1).
  induction s as [|c s IH]; simpl.
  - rewrite <- (app_nil_r ws2), (trimStart_white _ _ H2). done.
  - destruct (is_white_space c); [exact IH|].
    exact (trimEnd_white (c :: s) ws2 H2).
Qed.

(** Splitting a string that goes on after a piece without separator, or
    that starts with one. *)
Lemma split_app_l sep p s :
  includes sep p = false →
  split sep (p ++ s)
  = match split sep s with
    | hd :: tl => (p ++ hd) :: tl
    | [] => [p]
    end.
Proof.
  induction p as [|c p IH]; simpl.
  - intros _. pose proof (split_not_nil sep s). by destruct (split sep s).
  - rewrite N.eqb_sym. destruct (N.eqb c sep); [done|]. simpl.
    intros Hp. rewrite (IH Hp).
    pose proof (split_not_nil sep s). by destruct (split sep s).
Qed.

Lemma split_app_r sep s p :
  includes sep p = false →
  ∃ init final,
    split sep s = init ++ [final]
    ∧ split sep (s ++ p) = init ++ [final ++ p].
Proof.
  intros Hp. induction s as [|c s (init & final & Hs & Hsp)]; simpl.
  - exists [], []. by rewrite split_without.
  - destruct (N.eqb c sep).
    + exists ([] :: init), final. by rewrite Hs, Hsp.
    + rewrite Hs, Hsp. destruct init as [|i init]; simpl.
      * by exists [], (c :: final).
      * by exists ((c :: i) :: init), final.
Qed.

(** White space at an end of an expression, around a comma, and around
    the hyphen of a token, leaves the tokens and their numbers as they
    are. *)
Lemma parts_of_white_r a ws :
  white ws → map trim (split comma (a ++ ws)) = map trim (split comma a).
Proof.
  intros Hws. destruct (includes_white ws Hws) as [Hc _].
  destruct (split_app_r comma a ws Hc) as (init & final & -> & ->).
  rewrite !map_app. simpl. f_equal. f_equal.
  rewrite <- (app_nil_l (final ++ ws)). by apply trim_white.
Qed.

Lemma parts_of_white_l ws b :
  white ws → map trim (split comma (ws ++ b)) = map trim (split comma b).
Proof.
  intros Hws. destruct (includes_white ws Hws) as [Hc _].
  rewrite (split_app_l _ _ _ Hc).
  pose proof (split_not_nil comma b). destruct (split comma b) as [|hd tl];
    [done|].
  simpl. f_equal. rewrite <- (app_nil_r hd) at 1. rewrite app_assoc.
  rewrite <- (app_assoc ws hd []). by apply trim_white.
Qed.

Lemma parts_of_white_comma a ws1 ws2 b :
  white ws1 → white ws2 →
  parts_of (a ++ ws1 ++ comma :: ws2 ++ b) = parts_of (a ++ comma :: b).
Proof.
  intros H1 H2. unfold parts_of.
  rewrite (app_assoc a ws1), !split_app, !map_app.
  by rewrite parts_of_white_r, parts_of_white_l.
Qed.

Lemma parts_of_white_ends ws1 a ws2 :
  white ws1 → white ws2 → parts_of (ws1 ++ a ++ ws2) = parts_of a.
Proof.
  intros H1 H2. unfold parts_of.
  by rewrite parts_of_white_l, parts_of_white_r.
Qed.

Lemma parse_part_white_hyphen totalPages pages a ws1 ws2 b :
  white ws1 → white ws2 →
  includes hyphen a = false →
  parse_part totalPages pages (a ++ ws1 ++ hyphen :: ws2 ++ b)
  = parse_part totalPages pages (a ++ hyphen :: b).
Proof.
  intros H1 H2 Ha.
  destruct (includes_white ws1 H1) as [_ Hh1].
  destruct (includes_white ws2 H2) as [_ Hh2].
  unfold parse_part.
  assert (∀ x y, includes hyphen (x ++ hyphen :: y) = true) as Hin.
  { intros x y. rewrite includes_app. simpl. by rewrite orb_true_r. }
  rewrite (app_assoc a ws1), !Hin.
  rewrite !split_app, (split_app_l _ _ _ Hh2).
  rewrite (split_without hyphen (a ++ ws1))
    by (by rewrite includes_app, Ha, Hh1).
  rewrite (split_without hyphen a) by done.
  pose proof (split_not_nil hyphen b).
  destruct (split hyphen b) as [|hd tl]; [done|]. simpl.
  rewrite <- (app_nil_l (a ++ ws1)), (trim_white [] a ws1) by done.
  rewrite <- (app_nil_r hd) at 1.
  rewrite (app_assoc ws2 hd []), <- (app_assoc ws2 hd []).
  by rewrite (trim_white ws2 hd []).
Qed.

End WhiteSpace.

(** X24.  White space in a range expression is ignored where a user
    puts it: around a comma, at the ends of the expression, and around
    the hyphen of a token whose first number has no hyphen before it. *)
Theorem white_space_is_ignored (totalPages : Z) (ws1 ws2 : jsstring) :
  Forall (λ c, is_white_space c = true) ws1 →
  Forall (λ c, is_white_space c = true) ws2 →
  (∀ a b,
     parsePageRange (a ++ ws1 ++ comma :: ws2 ++ b) totalPages
     = parsePageRange (a ++ comma :: b) totalPages)
  ∧ (∀ a,
       parsePageRange (ws1 ++ a ++ ws2) totalPages
       = parsePageRange a totalPages)
  ∧ (∀ a b pages,
       includes hyphen a = false →
       parse_part totalPages pages (a ++ ws1 ++ hyphen :: ws2 ++ b)
       = parse_part totalPages pages (a ++ hyphen :: b)).
Proof.
  intros H1 H2. split_and!.
  - intros a b. unfold parsePageRange. by rewrite parts_of_white_comma.
  - intros a. unfold parsePageRange. by rewrite parts_of_white_ends.
  - intros a b pages. by apply parse_part_white_hyphen.
Qed.

(** The placeholder of the range field, with and without its spaces. *)
Lemma white_space_is_ignored_witness :
  parsePageRange (str "1-5, 8,11-13") 20 = parsePageRange (str "1-5,8,11-13") 20
  ∧ parsePageRange (str " 1-5,8 ") 20 = parsePageRange (str "1-5,8") 20
  ∧ parse_part 20 [] (str "1 - 5") = parse_part 20 [] (str "1-5").
Proof.
  assert (Forall (λ c, is_white_space c = true) (str " ")) as Hsp
    by (repeat constructor).
  destruct (white_space_is_ignored 20 [] (str " ") ltac:(constructor) Hsp)
    as (Hcomma & _ & _).
  destruct (white_space_is_ignored 20 (str " ") (str " ") Hsp Hsp)
    as (_ & Hends & Hhyphen).
  split_and!.
  - exact (Hcomma (str "1-5") (str "8,11-13")).
  - exact (Hends (str "1-5,8")).
  - exact (Hhyphen (str "1") (str "5") [] eq_refl).
Defined.

(** ** The duplex job, from submission to completion *)

Section DuplexJob.

Import Server Routes.

Variable host : Platform.

(** What a successful duplex submission leaves: the odd pages saved and
    sent, the upload where it was. *)
Lemma duplex_pass_world (req : PrintRequest) (st : PrintSettings)
  (w w1 : World) (resp : Response) (timer : option jsstring) :
  let filePath := path_join host (UPLOAD_DIR host) (filename req) in
  let artifact :=
    outputPath host filePath (str "odd") (clock host (2 + readings w)) in
  settings req = Some st →
  duplex st = true →
  post_api_print_timed host req w = (Returned (resp, timer), w1) →
  code resp = 200 →
  ∃ doc oddDoc msg,
    files w !! filePath = Some (PdfBytes doc)
    ∧ Forall2 (names doc) oddDoc
        (filteredPages (Z.of_nat (List.length doc)) (pageRange st) Odd)
    ∧ files w1 = <[artifact := PdfBytes (save oddDoc)]> (files w)
    ∧ ipp_sent w1 = ipp_sent w ++ [(printer_uri host (printerName req), msg)]
    ∧ data msg = PdfBytes (save oddDoc)
    ∧ msg_copies msg = or_1 (copies st)
    ∧ timer = if bool_decide (artifact ≠ filePath) then Some artifact else None.
Proof.
  intros filePath artifact Hst Hduplex Hrun Hcode.
  destruct (duplex_submission_run host req st w w1 resp timer Hst Hduplex
              Hrun Hcode)
    as (doc & oddDoc & doc' & cups & job0 & job & Hfile & Hodd & Htimer & ->
        & _).
  eexists doc, oddDoc, _. split_and!; try done.
Qed.

(** A document with a page is saved as it is; one without gets a blank
    A4 page. *)
Lemma save_cases (doc : PDFDocument) :
  (doc ≠ [] → save doc = doc)
  ∧ (doc = [] → save doc = [Sheet A4_width A4_height []]).
Proof. split; [by destruct doc|by intros ->]. Qed.

(** X7.  A duplex job run to its end prints every selected page exactly
    once.  When a duplex submission is answered with success and a resume
    request for the same file, which repeats the range of the submission
    or carries none where the submission's range was empty (as the client
    sends it), is answered with success too, the first Print-Job message
    carries the saved document of the selected pages with odd numbers, in
    ascending order, and the second that of the selected pages with even
    numbers; a pass with a page carries these pages and no other, a pass
    without one carries a single blank A4 page; the odd and the even
    numbers together are the selection.  This holds whether or not the
    timer of the submission removed the odd pages' file in between.  The
    artifact is assumed to be written beside the upload, not over it. *)
Theorem duplex_two_passes (req : PrintRequest) (st : PrintSettings)
  (req2 : PrintEven.Body) (w w1 w1' w2 : World) (resp1 resp2 : Response)
  (timer1 timer2 : option jsstring) :
  let filePath := path_join host (UPLOAD_DIR host) (filename req) in
  let artifact :=
    outputPath host filePath (str "odd") (clock host (2 + readings w)) in
  settings req = Some st →
  duplex st = true →
  artifact ≠ filePath →
  post_api_print_timed host req w = (Returned (resp1, timer1), w1) →
  code resp1 = 200 →
  w1' = w1 ∨ (∃ p, timer1 = Some p ∧ w1' = snd (fs_remove p w1)) →
  PrintEven.filename req2 = filename req →
  PrintEven.pageRange req2 = pageRange st
  ∨ (PrintEven.pageRange req2 = None ∧ pageRange st = Some []) →
  post_api_print_even_timed host req2 w1' = (Returned (resp2, timer2), w2) →
  code resp2 = 200 →
  ∃ doc oddDoc evenDoc m1 m2,
    let selection :=
      pagesToProcess (pageRange st) (Z.of_nat (List.length doc)) in
    files w !! filePath = Some (PdfBytes doc)
    ∧ ipp_sent w2
      = ipp_sent w ++ [(printer_uri host (printerName req), m1);
                       (printer_uri host (PrintEven.printerName req2), m2)]
    ∧ Forall2 (names doc) oddDoc (List.filter Z.odd selection)
    ∧ Forall2 (names doc) evenDoc (List.filter Z.even selection)
    ∧ data m1 = PdfBytes (save oddDoc)
    ∧ data m2 = PdfBytes (save evenDoc)
    ∧ (oddDoc ≠ [] → data m1 = PdfBytes oddDoc)
    ∧ (evenDoc ≠ [] → data m2 = PdfBytes evenDoc)
    ∧ (oddDoc = [] → data m1 = PdfBytes [Sheet A4_width A4_height []])
    ∧ (evenDoc = [] → data m2 = PdfBytes [Sheet A4_width A4_height []])
    ∧ StronglySorted Z.lt (List.filter Z.odd selection)
    ∧ StronglySorted Z.lt (List.filter Z.even selection)
    ∧ List.filter Z.odd selection ++ List.filter Z.even selection
      ≡ₚ selection.
Proof.
  intros filePath artifact Hst Hduplex Hfresh Hrun1 Hcode1 Hw1' Hname Hrange
    Hrun2 Hcode2.
  destruct (duplex_pass_world req st w w1 resp1 timer1 Hst Hduplex Hrun1
              Hcode1)
    as (doc & oddDoc & m1 & Hfile & Hodd & Hfiles & Hsent & Hdata & _ & Htimer).
  fold filePath in Hfile. fold filePath artifact in Hfiles, Htimer.
  rewrite bool_decide_eq_true_2 in Htimer by done.
  assert (files w1' !! filePath = Some (PdfBytes doc)
          ∧ ipp_sent w1' = ipp_sent w1) as [Hfile' Hsent'].
  { destruct Hw1' as [-> | (p & Hp & ->)].
    - rewrite Hfiles, lookup_insert_ne by done. done.
    - rewrite Htimer in Hp. injection Hp as <-. simpl.
      rewrite lookup_delete_ne, Hfiles, lookup_insert_ne by done. done. }
  destruct (post_api_print_even_timed_cases host req2 w1' w2 resp2 timer2
              Hrun2)
    as [[H _] | [[H _] | [[H _] | [_ Hok]]]];
    try (rewrite Hcode2 in H; discriminate H).
  destruct Hok as (j & doc2 & evenDoc & job & cups & _ & _ & Hfile2 & Heven
                   & _ & _ & -> & _).
  rewrite Hname in Hfile2. fold filePath in Hfile2.
  rewrite Hfile' in Hfile2. injection Hfile2 as <-.
  assert (filteredPages (Z.of_nat (List.length doc)) (PrintEven.pageRange req2)
            Even
          = filteredPages (Z.of_nat (List.length doc)) (pageRange st) Even)
    as Hsame.
  { destruct Hrange as [-> | [-> ->]]; reflexivity. }
  rewrite Hsame in Heven.
  pose proof (odd_or_even_pages (Z.of_nat (List.length doc)) (pageRange st))
    as Hperm.
  pose proof (pagesToProcess_sorted (pageRange st)
                (Z.of_nat (List.length doc))) as Hsorted.
  rewrite !filteredPages_matches in Hperm.
  rewrite filteredPages_matches in Hodd, Heven.
  eexists doc, oddDoc, evenDoc, m1, (print_job_msg _ _ (PdfBytes (save evenDoc))).
  cbv zeta. split_and!; try done; try (by apply filter_sorted).
  - simpl. rewrite Hsent', Hsent, <- app_assoc. reflexivity.
  - intros Hne. rewrite Hdata. by rewrite (proj1 (save_cases oddDoc)).
  - intros Hne. simpl. by rewrite (proj1 (save_cases evenDoc)).
  - intros ->. exact Hdata.
  - by intros ->.
Qed.

(** X9.  Only a duplex submission answered with success makes a job
    resumable: a job that is [awaiting-even-pages] after a submission was
    so before it, or is the job of the answer of a duplex submission
    answered 200; a job that is [awaiting-even-pages] after a resume
    request was so before it. *)
Theorem awaiting_only_by_duplex_success :
  (∀ (req : PrintRequest) (w w' : World) (resp : Response) k j,
     post_api_print host req w = (Returned resp, w') →
     printJobs w' !! k = Some j →
     status j = awaiting_even_pages →
     printJobs w !! k = Some j
     ∨ (code resp = 200
        ∧ ∃ st cups, settings req = Some st ∧ duplex st = true
                     ∧ body resp = JobBody k cups (Some j)))
  ∧ (∀ (req : PrintEven.Body) (w w' : World) (resp : Response) k j,
       post_api_print_even host req w = (Returned resp, w') →
       printJobs w' !! k = Some j →
       status j = awaiting_even_pages →
       printJobs w !! k = Some j).
Proof.
  split.
  - intros req w w' resp k j Hrun Hk Hj.
    destruct (post_api_print_timed_of host req w w' resp Hrun)
      as [timer Htimed].
    destruct (post_api_print_timed_cases host req w w' resp timer Htimed)
      as [(_ & _ & -> & _) | [(_ & _ & -> & _) | [(_ & _ & H) | [Hcode H]]]].
    + by left.
    + by left.
    + destruct H as (st & fd & _ & _ & [-> | H]); [by left|].
      destruct H as (processed & d & w1 & job0 & Hby & _ & Hstatus & Hw').
      destruct (processed_by_world _ _ _ _ _ _ _ _ Hby) as (Hjobs & _).
      left.
      assert (printJobs w' = <[jobId_in host w := job0]> (printJobs w))
        as Hjobs'.
      { destruct Hw' as [-> | ->]; simpl; by rewrite Hjobs. }
      rewrite Hjobs', lookup_insert in Hk. case_decide; [|done].
      injection Hk as <-. rewrite Hstatus in Hj. discriminate Hj.
    + destruct H as (st & fd & processed & d & w1 & job0 & job & cups & Hst
                     & _ & Hby & _ & _ & Hbody & -> & _ & Hrest).
      destruct (processed_by_world _ _ _ _ _ _ _ _ Hby) as (Hjobs & _).
      simpl in Hk. rewrite insert_insert_eq, Hjobs in Hk.
      change (printJobs (tick (tick w))) with (printJobs w) in Hk.
      rewrite lookup_insert in Hk. case_decide as Hkey; [|by left].
      injection Hk as <-. subst k. right. split; [done|].
      exists st, cups. split_and!; [done| |done].
      destruct (duplex st); [done|]. rewrite Hrest in Hj. discriminate Hj.
  - intros req w w' resp k j Hrun Hk Hj.
    destruct (post_api_print_even_timed_of host req w w' resp Hrun)
      as [timer Htimed].
    destruct (post_api_print_even_timed_jobs host req w w' _ Htimed)
      as [Hjobs | (job & Hjobs & Hjob)].
    + by rewrite <- Hjobs.
    + destruct (post_api_print_even_timed_cases host req w w' resp timer
                  Htimed)
        as [(_ & _ & -> & _) | [(_ & _ & -> & _) | [(_ & _ & H) | [_ Hok]]]];
        [done|done| |].
      * destruct H as [-> | (evenDoc & [-> | (msg & ->)])]; done.
      * destruct Hok as (j0 & doc & evenDoc & job1 & cups & _ & _ & _ & _ & _
                         & _ & -> & _ & Hdone).
        simpl in Hk. rewrite lookup_insert in Hk. case_decide; [|done].
        injection Hk as <-. rewrite Hdone in Hj. discriminate Hj.
Qed.

End DuplexJob.

(** The duplex job of the whole document, as the client runs it, with
    the odd pages' file removed in between. *)
Lemma duplex_two_passes_witness :
  let host := Scenario.host Scenario.accepted in
  let req := Tour.whole_request in
  let st := Tour.whole_settings in
  let req2 := Tour.whole_resume in
  let w := Scenario.world in
  let timer1 := Some (str "temp/doc-odd-1700000000002.pdf") in
  let timer2 := Some (str "temp/doc-even-1700000000003.pdf") in
  let w1 := snd (Routes.post_api_print_timed host req w) in
  let w1' := snd (Routes.fs_remove (str "temp/doc-odd-1700000000002.pdf") w1) in
  let w2 := snd (Routes.post_api_print_even_timed host req2 w1') in
  let filePath := path_join host (UPLOAD_DIR host) (filename req) in
  ∃ doc oddDoc evenDoc m1 m2,
    let selection :=
      pagesToProcess (pageRange st) (Z.of_nat (List.length doc)) in
    files w !! filePath = Some (PdfBytes doc)
    ∧ ipp_sent w2
      = ipp_sent w ++ [(printer_uri host (printerName req), m1);
                       (printer_uri host (PrintEven.printerName req2), m2)]
    ∧ Forall2 (names doc) oddDoc (List.filter Z.odd selection)
    ∧ Forall2 (names doc) evenDoc (List.filter Z.even selection)
    ∧ data m1 = PdfBytes (save oddDoc)
    ∧ data m2 = PdfBytes (save evenDoc)
    ∧ (oddDoc ≠ [] → data m1 = PdfBytes oddDoc)
    ∧ (evenDoc ≠ [] → data m2 = PdfBytes evenDoc)
    ∧ (oddDoc = [] → data m1 = PdfBytes [Sheet A4_width A4_height []])
    ∧ (evenDoc = [] → data m2 = PdfBytes [Sheet A4_width A4_height []])
    ∧ StronglySorted Z.lt (List.filter Z.odd selection)
    ∧ StronglySorted Z.lt (List.filter Z.even selection)
    ∧ List.filter Z.odd selection ++ List.filter Z.even selection
      ≡ₚ selection.
Proof.
  intros host req st req2 w timer1 timer2 w1 w1' w2 filePath.
  apply (duplex_two_passes host req st req2 w w1 w1' w2
           Scenario.odd_response Tour.even_response timer1 timer2).
  - reflexivity.
  - reflexivity.
  - intros H. vm_compute in H. discriminate H.
  - vm_compute. reflexivity.
  - reflexivity.
  - right. exists (str "temp/doc-odd-1700000000002.pdf"). split; reflexivity.
  - reflexivity.
  - right. split; reflexivity.
  - vm_compute. reflexivity.
  - reflexivity.
Defined.

(** The job that the duplex submission of the scenario leaves waiting is
    the job of its answer. *)
Lemma awaiting_only_by_duplex_success_witness :
  let host := Scenario.host Scenario.accepted in
  printJobs Scenario.world !! Scenario.jobId = Some Scenario.awaiting
  ∨ (Server.code Scenario.odd_response = 200
     ∧ ∃ st cups,
         settings Scenario.duplex_request = Some st ∧ duplex st = true
         ∧ Server.body Scenario.odd_response
           = Server.JobBody Scenario.jobId cups (Some Scenario.awaiting)).
Proof.
  intros host.
  apply (proj1 (awaiting_only_by_duplex_success host) Scenario.duplex_request
           Scenario.world (snd Scenario.after_odd) Scenario.odd_response
           Scenario.jobId Scenario.awaiting).
  - vm_compute. reflexivity.
  - vm_compute. reflexivity.
  - reflexivity.
Defined.

(** ** Submissions without duplex *)

Section Simplex.

Import Server Routes.

Variable host : Platform.

(** A submission answered with success, in the terms of
    [post_api_print_timed_cases]. *)
Lemma post_api_print_timed_success (req : PrintRequest) (w w' : World)
  (resp : Response) (timer : option jsstring) :
  let filePath := path_join host (UPLOAD_DIR host) (filename req) in
  let uri := printer_uri host (printerName req) in
  let jobId := jobId_in host w in
  post_api_print_timed host req w = (Returned (resp, timer), w') →
  code resp = 200 →
  ∃ st fd processed d w1 job0 job cups,
    settings req = Some st ∧ files w !! filePath = Some fd
    ∧ processed_by host filePath st fd (tick (tick w)) processed d w1
    ∧ timer = (if bool_decide (processed ≠ filePath)
               then Some processed else None)
    ∧ body resp = JobBody jobId cups (Some job)
    ∧ w' = entered jobId job
             (sent uri
                (print_job_msg (str "Print Job - " ++ filename req)
                   (or_1 (copies st)) d)
                (entered jobId job0 w1))
    ∧ id job = jobId
    ∧ if duplex st then
        status job = awaiting_even_pages
        ∧ currentStep job = Some Even
        ∧ ∃ doc', files w1 !! filePath = Some (PdfBytes doc')
                  ∧ totalPages job = Some (Z.of_nat (List.length doc'))
      else status job = completed.
Proof.
  intros filePath uri jobId Hrun Hcode.
  destruct (post_api_print_timed_cases host req w w' resp timer Hrun)
    as [[H _] | [[H _] | [[H _] | [_ Hok]]]];
    try (rewrite Hcode in H; discriminate H).
  destruct Hok as (st & fd & processed & d & w1 & job0 & job & cups & Hst
                   & Hfile & Hby & _ & Hrest).
  by exists st, fd, processed, d, w1, job0, job, cups.
Qed.


(** X10.  A submission without duplex and with an N-up layout, answered
    with success: the upload is a PDF, the sheets that [createNUpLayout]
    composes from it (the range applied first) are saved to one new file
    and sent in the single Print-Job message, with [copies || 1] copies;
    when the selection has a page the document sent is these sheets, and
    when it has none there is no sheet and the document sent is a single
    blank A4 page; the job is [completed], and the removal of that file
    is scheduled, unless it is the upload itself. *)
Theorem nup_submission (req : PrintRequest) (st : PrintSettings)
  (w w' : World) (resp : Response) (timer : option jsstring) :
  let filePath := path_join host (UPLOAD_DIR host) (filename req) in
  let artifact :=
    outputPath host filePath (layout_name (layout st))
      (clock host (2 + readings w)) in
  settings req = Some st →
  duplex st = false →
  layout st ≠ L1up →
  post_api_print_timed host req w = (Returned (resp, timer), w') →
  code resp = 200 →
  ∃ doc sheets msg jobId cups job,
    files w !! filePath = Some (PdfBytes doc)
    ∧ compose_NUp doc (layout st) (pageRange st) = Returned sheets
    ∧ files w' = <[artifact := PdfBytes (save sheets)]> (files w)
    ∧ ipp_sent w' = ipp_sent w ++ [(printer_uri host (printerName req), msg)]
    ∧ data msg = PdfBytes (save sheets)
    ∧ (pagesToProcess (pageRange st) (Z.of_nat (List.length doc)) ≠ [] →
       sheets ≠ [] ∧ data msg = PdfBytes sheets)
    ∧ (pagesToProcess (pageRange st) (Z.of_nat (List.length doc)) = [] →
       sheets = [] ∧ data msg = PdfBytes [Sheet A4_width A4_height []])
    ∧ msg_copies msg = or_1 (copies st)
    ∧ body resp = JobBody jobId cups (Some job)
    ∧ printJobs w' !! jobId = Some job
    ∧ status job = completed
    ∧ timer = if bool_decide (artifact ≠ filePath) then Some artifact else None.
Proof.
  intros filePath artifact Hst Hduplex Hlayout Hrun Hcode.
  destruct (post_api_print_timed_success req w w' resp timer Hrun Hcode)
    as (st0 & fd & processed & d & w1 & job0 & job & cups & Hst0 & Hfile & Hby
        & Htimer & Hbody & -> & Hid & Hstatus).
  rewrite Hst in Hst0. injection Hst0 as <-.
  unfold processed_by in Hby. rewrite Hduplex in Hby, Hstatus.
  assert (is_1up (layout st) = false) as H1up by (by destruct (layout st)).
  rewrite H1up in Hby. simpl in Hby.
  destruct Hby as (doc & sheets & -> & Hsheets & -> & -> & ->).
  assert (sheets = []
          ↔ pagesToProcess (pageRange st) (Z.of_nat (List.length doc)) = [])
    as Hnone.
  { destruct (compose_NUp_spec doc (layout st) (pageRange st))
      as (sheets0 & Heq & Hlen & _).
    rewrite Hsheets in Heq. injection Heq as <-.
    set (sel := pagesToProcess (pageRange st) (Z.of_nat (List.length doc)))
      in *.
    pose proof (Nat.div_mod_eq (List.length sel + pagesPerSheet (layout st) - 1)
                  (pagesPerSheet (layout st))) as Hd.
    pose proof (Nat.mod_upper_bound
                  (List.length sel + pagesPerSheet (layout st) - 1)
                  (pagesPerSheet (layout st))) as Hm.
    assert (pagesPerSheet (layout st) = 2 ∨ pagesPerSheet (layout st) = 4)%nat
      as Hn by (unfold pagesPerSheet; destruct (layout st); auto).
    split; intros Hnil.
    - apply length_zero_iff_nil. rewrite Hnil in Hlen.
      change (List.length (@nil Page)) with 0%nat in Hlen.
      destruct Hn as [Hn | Hn]; rewrite Hn in *; lia.
    - apply length_zero_iff_nil. clear Hd Hm. rewrite Hnil in Hlen.
      change (List.length (@nil Z)) with 0%nat in Hlen.
      destruct Hn as [Hn | Hn]; rewrite Hn in Hlen; rewrite Hlen;
        reflexivity. }
  destruct (save_cases sheets) as [Hsome Hblank].
  eexists doc, sheets, (print_job_msg _ _ (PdfBytes (save sheets))), _, cups,
    job.
  split_and!; try done.
  - intros Hsel. assert (sheets ≠ []) as Hne by (by rewrite Hnone).
    split; [done|]. simpl. by rewrite Hsome.
  - intros Hsel. apply Hnone in Hsel. split; [done|]. simpl. by rewrite Hblank.
  - simpl. apply lookup_insert_eq.
Qed.

(** X11.  A submission without duplex, one page per sheet, with a
    non-empty range, answered with success: the pages that the range
    selects are saved, in ascending order, to one new file, which is sent;
    when the range selects a page the document sent is these pages, and
    when it selects none the document sent is a single blank A4 page, not
    an error; the job is [completed]. *)
Theorem range_submission (req : PrintRequest) (st : PrintSettings)
  (w w' : World) (resp : Response) (timer : option jsstring) (range : jsstring) :
  let filePath := path_join host (UPLOAD_DIR host) (filename req) in
  let artifact :=
    outputPath host filePath (str "range") (clock host (2 + readings w)) in
  settings req = Some st →
  duplex st = false →
  layout st = L1up →
  pageRange st = Some range →
  range ≠ [] →
  post_api_print_timed host req w = (Returned (resp, timer), w') →
  code resp = 200 →
  ∃ doc ps msg jobId cups job,
    files w !! filePath = Some (PdfBytes doc)
    ∧ Forall2 (names doc) ps
        (parsePageRange range (Z.of_nat (List.length doc)))
    ∧ StronglySorted Z.lt (parsePageRange range (Z.of_nat (List.length doc)))
    ∧ files w' = <[artifact := PdfBytes (save ps)]> (files w)
    ∧ ipp_sent w' = ipp_sent w ++ [(printer_uri host (printerName req), msg)]
    ∧ data msg = PdfBytes (save ps)
    ∧ (parsePageRange range (Z.of_nat (List.length doc)) ≠ [] →
       data msg = PdfBytes ps)
    ∧ (parsePageRange range (Z.of_nat (List.length doc)) = [] →
       ps = [] ∧ data msg = PdfBytes [Sheet A4_width A4_height []])
    ∧ body resp = JobBody jobId cups (Some job)
    ∧ printJobs w' !! jobId = Some job
    ∧ status job = completed.
Proof.
  intros filePath artifact Hst Hduplex Hlayout Hrange Hne Hrun Hcode.
  destruct (post_api_print_timed_success req w w' resp timer Hrun Hcode)
    as (st0 & fd & processed & d & w1 & job0 & job & cups & Hst0 & Hfile & Hby
        & Htimer & Hbody & -> & Hid & Hstatus).
  rewrite Hst in Hst0. injection Hst0 as <-.
  unfold processed_by in Hby. rewrite Hduplex in Hby, Hstatus.
  rewrite Hlayout, Hrange in Hby. simpl in Hby.
  destruct range as [|c range]; [done|].
  destruct Hby as (doc & ps & -> & Hps & -> & -> & ->).
  destruct (save_cases ps) as [Hsome Hblank].
  eexists doc, ps, (print_job_msg _ _ (PdfBytes (save ps))), _, cups, job.
  split_and!; try done.
  - apply parsePageRange_sorted.
  - intros Hsel. simpl. rewrite Hsome; [done|].
    intros ->. by inversion Hps.
  - intros Hnil. rewrite Hnil in Hps. inversion Hps; subst.
    split; reflexivity.
  - simpl. apply lookup_insert_eq.
Qed.

(** X12.  A submission without duplex, one page per sheet, with no range
    or an empty one, answered with success: the upload is sent as it is,
    whatever its content, no file is written, no removal is scheduled,
    and the job is [completed]. *)
Theorem plain_submission (req : PrintRequest) (st : PrintSettings)
  (w w' : World) (resp : Response) (timer : option jsstring) :
  let filePath := path_join host (UPLOAD_DIR host) (filename req) in
  settings req = Some st →
  duplex st = false →
  layout st = L1up →
  pageRange st = None ∨ pageRange st = Some [] →
  post_api_print_timed host req w = (Returned (resp, timer), w') →
  code resp = 200 →
  ∃ fd msg jobId cups job,
    files w !! filePath = Some fd
    ∧ files w' = files w
    ∧ ipp_sent w' = ipp_sent w ++ [(printer_uri host (printerName req), msg)]
    ∧ data msg = fd
    ∧ msg_copies msg = or_1 (copies st)
    ∧ body resp = JobBody jobId cups (Some job)
    ∧ printJobs w' !! jobId = Some job
    ∧ status job = completed
    ∧ timer = None.
Proof.
  intros filePath Hst Hduplex Hlayout Hrange Hrun Hcode.
  destruct (post_api_print_timed_success req w w' resp timer Hrun Hcode)
    as (st0 & fd & processed & d & w1 & job0 & job & cups & Hst0 & Hfile & Hby
        & Htimer & Hbody & -> & Hid & Hstatus).
  rewrite Hst in Hst0. injection Hst0 as <-.
  unfold processed_by in Hby. rewrite Hduplex in Hby, Hstatus.
  rewrite Hlayout in Hby. simpl in Hby.
  assert (processed = filePath ∧ d = fd ∧ w1 = tick (tick w))
    as (-> & -> & ->) by (by destruct Hrange as [Hr|Hr]; rewrite Hr in Hby).
  eexists fd, (print_job_msg _ _ fd), _, cups, job.
  split_and!; try done.
  - simpl. apply lookup_insert_eq.
  - rewrite Htimer. by rewrite bool_decide_eq_false_2 by auto.
Qed.

End Simplex.

(** The 2-up submission of the scenario: two sheets of two pages. *)
Lemma nup_submission_witness :
  let host := Scenario.host Scenario.accepted in
  let req := Tour.nup_request in
  let st := Tour.nup_settings in
  let w := Scenario.world in
  let w' := snd Tour.after_nup in
  let resp := Tour.submitted_response in
  let timer := Some (str "temp/doc-2-up-1700000000002.pdf") in
  let filePath := path_join host (UPLOAD_DIR host) (filename req) in
  let artifact :=
    outputPath host filePath (layout_name (layout st))
      (clock host (2 + readings w)) in
  ∃ doc sheets msg jobId cups job,
    files w !! filePath = Some (PdfBytes doc)
    ∧ compose_NUp doc (layout st) (pageRange st) = Returned sheets
    ∧ files w' = <[artifact := PdfBytes (save sheets)]> (files w)
    ∧ ipp_sent w' = ipp_sent w ++ [(printer_uri host (printerName req), msg)]
    ∧ data msg = PdfBytes (save sheets)
    ∧ (pagesToProcess (pageRange st) (Z.of_nat (List.length doc)) ≠ [] →
       sheets ≠ [] ∧ data msg = PdfBytes sheets)
    ∧ (pagesToProcess (pageRange st) (Z.of_nat (List.length doc)) = [] →
       sheets = [] ∧ data msg = PdfBytes [Sheet A4_width A4_height []])
    ∧ msg_copies msg = Server.or_1 (copies st)
    ∧ Server.body resp = Server.JobBody jobId cups (Some job)
    ∧ printJobs w' !! jobId = Some job
    ∧ status job = completed
    ∧ timer = if bool_decide (artifact ≠ filePath) then Some artifact else None.
Proof.
  intros host req st w w' resp timer filePath artifact.
  apply (nup_submission host req st w w' resp timer).
  - reflexivity.
  - reflexivity.
  - discriminate.
  - vm_compute. reflexivity.
  - reflexivity.
Defined.

(** The range submission of the scenario: pages 1, 2, 3 in this order. *)
Lemma range_submission_witness :
  let host := Scenario.host Scenario.accepted in
  let req := Tour.range_request in
  let st := Tour.range_settings in
  let w := Scenario.world in
  let w' := snd (Routes.post_api_print_timed host req w) in
  let resp := Tour.submitted_response in
  let range := str "3, 1-2" in
  let filePath := path_join host (UPLOAD_DIR host) (filename req) in
  let artifact :=
    outputPath host filePath (str "range") (clock host (2 + readings w)) in
  ∃ doc ps msg jobId cups job,
    files w !! filePath = Some (PdfBytes doc)
    ∧ Forall2 (names doc) ps
        (parsePageRange range (Z.of_nat (List.length doc)))
    ∧ StronglySorted Z.lt (parsePageRange range (Z.of_nat (List.length doc)))
    ∧ files w' = <[artifact := PdfBytes (save ps)]> (files w)
    ∧ ipp_sent w' = ipp_sent w ++ [(printer_uri host (printerName req), msg)]
    ∧ data msg = PdfBytes (save ps)
    ∧ (parsePageRange range (Z.of_nat (List.length doc)) ≠ [] →
       data msg = PdfBytes ps)
    ∧ (parsePageRange range (Z.of_nat (List.length doc)) = [] →
       ps = [] ∧ data msg = PdfBytes [Sheet A4_width A4_height []])
    ∧ Server.body resp = Server.JobBody jobId cups (Some job)
    ∧ printJobs w' !! jobId = Some job
    ∧ status job = completed.
Proof.
  intros host req st w w' resp range filePath artifact.
  apply (range_submission host req st w w' resp
           (Some (str "temp/doc-range-1700000000002.pdf")) range).
  - reflexivity.
  - reflexivity.
  - reflexivity.
  - reflexivity.
  - discriminate.
  - vm_compute. reflexivity.
  - reflexivity.
Defined.

(** The plain submission of the scenario: the upload goes out as it is. *)
Lemma plain_submission_witness :
  let host := Scenario.host Scenario.accepted in
  let req := Scenario.plain_request in
  let w := Scenario.world in
  let w' := snd (Routes.post_api_print_timed host req w) in
  let resp := Tour.submitted_response in
  let filePath := path_join host (UPLOAD_DIR host) (filename req) in
  ∃ fd msg jobId cups job,
    files w !! filePath = Some fd
    ∧ files w' = files w
    ∧ ipp_sent w' = ipp_sent w ++ [(printer_uri host (printerName req), msg)]
    ∧ data msg = fd
    ∧ msg_copies msg = 1
    ∧ Server.body resp = Server.JobBody jobId cups (Some job)
    ∧ printJobs w' !! jobId = Some job
    ∧ status job = completed
    ∧ @None jsstring = None.
Proof.
  intros host req w w' resp filePath.
  apply (plain_submission host req
           {| duplex := false; layout := L1up; pageRange := None;
              copies := None |} w w' resp None).
  - reflexivity.
  - reflexivity.
  - reflexivity.
  - left. reflexivity.
  - vm_compute. reflexivity.
  - reflexivity.
Defined.

(** ** What the service never does *)

Section Invariants.

Import Server Routes Service.

Variable host : Platform.

(** A world that keeps the jobs of another, the files that are at no
    output path of the processor, and the messages sent. *)
Local Abbreviation keeps w w' :=
  ((∀ k, is_Some (printJobs w !! k) → is_Some (printJobs w' !! k))
   ∧ (∀ p d, ¬ artifact_path host p →
             files w !! p = Some d → files w' !! p = Some d)
   ∧ ipp_sent w `prefix_of` ipp_sent w').

(** Keeping is a preorder, and every write of the model keeps. *)
Lemma keeps_refl w : keeps w w.
Proof. by split_and!. Qed.

Lemma keeps_trans w1 w2 w3 : keeps w1 w2 → keeps w2 w3 → keeps w1 w3.
Proof.
  intros (Hj1 & Hf1 & Hs1) (Hj2 & Hf2 & Hs2). split_and!.
  - auto.
  - auto.
  - by etrans.
Qed.

Lemma keeps_tick w : keeps w (tick w).
Proof. by split_and!. Qed.

Lemma keeps_entered jobId job w : keeps w (entered jobId job w).
Proof.
  split_and!; try done. intros k Hk. simpl.
  rewrite lookup_insert. by case_decide.
Qed.

Lemma keeps_sent uri msg w : keeps w (sent uri msg w).
Proof. split_and!; try done. simpl. by apply prefix_app_r. Qed.

Lemma keeps_written tag inputPath now doc w :
  artifact_tag tag →
  keeps w (written (outputPath host inputPath tag now) doc w).
Proof.
  intros Htag. split_and!; try done. intros p d Hp Hd. simpl.
  rewrite lookup_insert_ne; [done|].
  intros <-. apply Hp. by eexists _, _, _.
Qed.

Lemma keeps_removed p w : artifact_path host p → keeps w (snd (fs_remove p w)).
Proof.
  intros Hp. split_and!; try done. intros q d Hq Hd. simpl.
  rewrite lookup_delete_ne; [done|]. by intros <-.
Qed.

(** The tags of the three processors. *)
Lemma artifact_tag_odd : artifact_tag (str "odd").
Proof. unfold artifact_tag. auto. Qed.

Lemma artifact_tag_even : artifact_tag (str "even").
Proof. unfold artifact_tag. auto. Qed.

Lemma artifact_tag_range : artifact_tag (str "range").
Proof. unfold artifact_tag. auto. Qed.

Lemma artifact_tag_layout layout :
  is_1up layout = false → artifact_tag (layout_name layout).
Proof. unfold artifact_tag. destruct layout; [done| |]; simpl; auto 6. Qed.

(** Processing keeps, and what it writes is at an output path. *)
Lemma keeps_processed filePath st fd w processed d w1 :
  processed_by host filePath st fd w processed d w1 →
  keeps w w1 ∧ (processed ≠ filePath → artifact_path host processed).
Proof.
  unfold processed_by. destruct (duplex st).
  { intros (doc & ps & _ & _ & -> & _ & ->).
    split; [apply keeps_written, artifact_tag_odd|].
    intros _. eexists _, _, _. split; [apply artifact_tag_odd|done]. }
  destruct (is_1up (layout st)) eqn:H1up; simpl.
  2:{ intros (doc & ps & _ & _ & -> & _ & ->).
      split; [by apply keeps_written, artifact_tag_layout|].
      intros _. eexists _, _, _. split; [by apply artifact_tag_layout|done]. }
  destruct (pageRange st) as [[|c range]|].
  - intros (-> & _ & ->). split; [apply keeps_refl|done].
  - intros (doc & ps & _ & _ & -> & _ & ->).
    split; [apply keeps_written, artifact_tag_range|].
    intros _. eexists _, _, _. split; [apply artifact_tag_range|done].
  - intros (-> & _ & ->). split; [apply keeps_refl|done].
Qed.

(** Every step of the service keeps, and schedules removals of output
    paths only. *)
Lemma step_keeps w pending w' pending' :
  step host (w, pending) (w', pending') →
  Forall (artifact_path host) pending →
  keeps w w' ∧ Forall (artifact_path host) pending'.
Proof.
  intros Hstep Hpending.
  inversion Hstep
    as [path d w0 pending0 Hfresh | file answer w0 w0' pending0 Hrun
       | req resp timer w0 w0' pending0 Hrun
       | req resp timer w0 w0' pending0 Hrun
       | jobId answer w0 w0' pending0 Hrun | p w0 before after]; subst.
  - split; [|done]. split_and!; try done. intros p d' _ Hd'. simpl.
    rewrite lookup_insert_ne; [done|]. intros <-. by rewrite Hfresh in Hd'.
  - split; [|done]. assert (w' = w) as ->; [|apply keeps_refl].
    revert Hrun. unfold Upload.post_api_upload, try_catch.
    destruct file as [f|]; [|by intros [= _ <-]].
    io_unfold. unfold getPageCount. io_unfold. rewrite load_eq.
    destruct (files w !! Upload.path f) as [[doc|raw|]|]; by intros [= _ <-].
  - destruct (post_api_print_timed_cases host req w w' resp timer Hrun)
      as [(_ & -> & -> & _) | [(_ & -> & -> & _)
         | [(_ & -> & H) | (_ & H)]]].
    + split; [apply keeps_refl|]. by rewrite app_nil_r.
    + split; [apply keeps_refl|]. by rewrite app_nil_r.
    + split; [|by rewrite app_nil_r].
      destruct H as (st & fd & _ & _ & [-> | H]).
      { eapply keeps_trans; apply keeps_tick. }
      destruct H as (processed & d & w1 & job0 & [Hby _]%keeps_processed & _
                     & _ & Hw).
      eapply keeps_trans; [apply keeps_tick|].
      eapply keeps_trans; [apply keeps_tick|].
      eapply keeps_trans; [exact Hby|].
      destruct Hw as [-> | ->]; [apply keeps_entered|].
      eapply keeps_trans; [apply keeps_entered|apply keeps_sent].
    + destruct H as (st & fd & processed & d & w1 & job0 & job & cups & _ & _
                     & [Hby Hpath]%keeps_processed & _ & -> & _ & -> & _).
      split.
      * eapply keeps_trans; [apply keeps_tick|].
        eapply keeps_trans; [apply keeps_tick|].
        eapply keeps_trans; [exact Hby|].
        eapply keeps_trans; [apply keeps_entered|].
        eapply keeps_trans; [apply keeps_sent|apply keeps_entered].
      * apply Forall_app. split; [done|].
        case_bool_decide; [|constructor].
        constructor; [by apply Hpath|constructor].
  - destruct (post_api_print_even_timed_cases host req w w' resp timer Hrun)
      as [(_ & -> & -> & _) | [(_ & -> & -> & _)
         | [(_ & -> & H) | (_ & H)]]].
    + split; [apply keeps_refl|]. by rewrite app_nil_r.
    + split; [apply keeps_refl|]. by rewrite app_nil_r.
    + split; [|by rewrite app_nil_r].
      destruct H as [-> | (evenDoc & [-> | (msg & ->)])].
      * apply keeps_refl.
      * apply keeps_written, artifact_tag_even.
      * eapply keeps_trans;
          [apply keeps_written, artifact_tag_even|apply keeps_sent].
    + destruct H as (j & doc & evenDoc & job & cups & _ & _ & _ & _ & -> & _
                     & -> & _).
      split.
      * eapply keeps_trans; [apply keeps_written, artifact_tag_even|].
        eapply keeps_trans; [apply keeps_sent|apply keeps_entered].
      * apply Forall_app. split; [done|].
        constructor; [|constructor].
        eexists _, _, _. split; [apply artifact_tag_even|done].
  - split; [|done].
    revert Hrun. unfold get_api_status, printJobs_get. io_unfold.
    destruct (printJobs w !! jobId); intros [= _ <-]; apply keeps_refl.
  - apply Forall_app in Hpending as [Hbefore Hafter].
    apply Forall_cons in Hafter as [Hp Hafter].
    split; [by apply keeps_removed|]. apply Forall_app. by split.
Qed.

Lemma steps_keep s s' :
  rtc (step host) s s' →
  Forall (artifact_path host) (snd s) →
  keeps (fst s) (fst s') ∧ Forall (artifact_path host) (snd s').
Proof.
  induction 1 as [s|[w1 p1] [w2 p2] s3 Hstep _ IH]; intros Hpending.
  - split; [apply keeps_refl|done].
  - destruct (step_keeps _ _ _ _ Hstep Hpending) as [Hkeeps Hpending2].
    destruct (IH Hpending2) as [Hkeeps' Hpending3].
    split; [|done]. eapply keeps_trans; [exact Hkeeps|exact Hkeeps'].
Qed.

(** X13.  From a service with no removal pending, whatever uploads multer
    stores under names not in use, whatever requests the routes answer,
    one after the other, and whichever of the removals that these
    requests scheduled are carried out (the hourly sweep of the scratch
    directory left aside): no job leaves the job table, every file that
    is at no output path of the processor keeps its content (no upload
    stored elsewhere is changed or removed), no message sent is taken
    back, and every removal still pending is for an output path of the
    processor. *)
Theorem service_keeps_jobs_uploads_messages (w w' : World)
  (pending : list jsstring) :
  rtc (step host) (w, []) (w', pending) →
  (∀ k, is_Some (printJobs w !! k) → is_Some (printJobs w' !! k))
  ∧ (∀ p d, ¬ artifact_path host p →
            files w !! p = Some d → files w' !! p = Some d)
  ∧ ipp_sent w `prefix_of` ipp_sent w'
  ∧ Forall (artifact_path host) pending.
Proof.
  intros Hsteps.
  destruct (steps_keep _ _ Hsteps) as [(Hjobs & Hfiles & Hsent) Hpending];
    [constructor|].
  by split_and!.
Qed.

End Invariants.

(** The duplex job of the scenario, from submission to completion, with
    the odd pages' file removed in between: the upload is still there. *)
Lemma service_keeps_jobs_uploads_messages_witness :
  let host := Scenario.host Scenario.accepted in
  let w := Scenario.world in
  let odd := str "temp/doc-odd-1700000000002.pdf" in
  let even := str "temp/doc-even-1700000000003.pdf" in
  let w1 := snd (Routes.post_api_print_timed host Scenario.duplex_request w) in
  let w2 := snd (Routes.fs_remove odd w1) in
  let w3 := snd (Routes.post_api_print_even_timed host Tour.resume_with_range w2) in
  ((∀ k, is_Some (printJobs w !! k) → is_Some (printJobs w3 !! k))
   ∧ (∀ p d, ¬ Service.artifact_path host p →
             files w !! p = Some d → files w3 !! p = Some d)
   ∧ ipp_sent w `prefix_of` ipp_sent w3
   ∧ Forall (Service.artifact_path host) [even])
  ∧ ¬ Service.artifact_path host (str "uploads/doc.pdf").
Proof.
  intros host w odd even w1 w2 w3. split.
  - apply (service_keeps_jobs_uploads_messages host w w3 [even]).
    apply (rtc_l _ _ (w1, [odd])).
    { apply (Service.step_print host Scenario.duplex_request
               Scenario.odd_response (Some odd) w w1 []).
      vm_compute. reflexivity. }
    apply (rtc_l _ _ (w2, [])).
    { apply (Service.step_timer host odd w1 [] []). }
    apply rtc_once.
    apply (Service.step_print_even host Tour.resume_with_range
             Tour.even_response (Some even) w2 w3 []).
    vm_compute. reflexivity.
  - intros (inputPath & tag & now & _ & H).
    vm_compute in H. discriminate H.
Defined.

(** ** The other routes *)

Section OtherRoutes.

Import Server Routes.

Variable host : Platform.

(** X14.  [GET /api/status/:jobId] changes nothing; it answers with the
    job of that id, or 404 when there is none.  After a submission or a
    resume request whose answer carries a job, the status route returns
    that very job under the [jobId] of the answer. *)
Theorem status_reads_back :
  (∀ jobId w, ∃ answer,
     get_api_status jobId w = (Returned answer, w)
     ∧ match printJobs w !! jobId with
       | Some job => answer = StatusJob job
       | None => ∃ msg, answer = StatusError 404 msg
       end)
  ∧ (∀ req w w' resp timer jobId cups status,
       post_api_print_timed host req w = (Returned (resp, timer), w') →
       body resp = JobBody jobId cups status →
       ∃ job, status = Some job
              ∧ get_api_status jobId w' = (Returned (StatusJob job), w'))
  ∧ (∀ req w w' resp timer jobId cups status,
       post_api_print_even_timed host req w = (Returned (resp, timer), w') →
       body resp = JobBody jobId cups status →
       ∃ job, status = Some job
              ∧ get_api_status jobId w' = (Returned (StatusJob job), w')).
Proof.
  split_and!.
  - intros jobId w. unfold get_api_status, printJobs_get. io_unfold.
    destruct (printJobs w !! jobId) as [job|]; eexists; split; eauto.
  - intros req w w' resp timer jobId cups status Hrun Hbody.
    pose proof (post_api_print_timed_cases host req w w' resp timer Hrun)
      as Hcases.
    assert (code resp = 200) as Hcode.
    { revert Hrun Hbody.
      unfold post_api_print_timed, try_catch, print_try_timed.
      destruct (settings req); [|by intros [= <- _ _]].
      destruct (truthy _); [|by intros [= <- _ _]].
      io_unfold. unfold pathExists.
      destruct (bool_decide _); [|by intros [= <- _ _]].
      destruct (new_jobId host w) as [[j|e|] w2]; try by intros [= <- _ _].
      destruct (process_settings _ _ _ _ _) as [[pf|e3|] w3];
        try by intros [= <- _ _].
      destruct (CupsClient.printFile _ _ _ _ _ _) as [[cj|e4|] w4];
        try by intros [= <- _ _].
      destruct (update_status _ _ _ _) as [[[]|e5|] w5];
        by intros [= <- _ _]. }
    destruct Hcases as [[H _] | [[H _] | [[H _] | [_ Hok]]]];
      try (rewrite Hcode in H; discriminate H).
    destruct Hok as (st & fd & processed & d & w1 & job0 & job & cups0 & _ & _
                     & _ & _ & _ & Hbody0 & -> & _).
    rewrite Hbody in Hbody0. injection Hbody0 as -> -> ->.
    exists job. split; [done|].
    unfold get_api_status, printJobs_get. io_unfold. simpl.
    by rewrite lookup_insert_eq.
  - intros req w w' resp timer jobId cups status Hrun Hbody.
    pose proof (post_api_print_even_timed_cases host req w w' resp timer Hrun)
      as Hcases.
    assert (code resp = 200) as Hcode.
    { revert Hrun Hbody.
      unfold post_api_print_even_timed, try_catch, print_even_try_timed.
      destruct (truthy _ && truthy _); [|by intros [= <- _ _]].
      io_unfold. unfold printJobs_get.
      destruct (printJobs w !! _) as [j|]; [|by intros [= <- _ _]].
      destruct (is_awaiting _); [|by intros [= <- _ _]].
      unfold pathExists.
      destruct (bool_decide _); [|by intros [= <- _ _]].
      destruct (extractOddEvenPages _ _ _ _ _) as [[pf|e3|] w3];
        try by intros [= <- _ _].
      destruct (CupsClient.printFile _ _ _ _ _ _) as [[cj|e4|] w4];
        by intros [= <- _ _]. }
    destruct Hcases as [[H _] | [[H _] | [[H _] | [_ Hok]]]];
      try (rewrite Hcode in H; discriminate H).
    destruct Hok as (j & doc & evenDoc & job & cups0 & _ & _ & _ & _ & _
                     & Hbody0 & -> & _).
    rewrite Hbody in Hbody0. injection Hbody0 as -> -> ->.
    exists job. split; [done|].
    unfold get_api_status, printJobs_get. io_unfold. simpl.
    by rewrite lookup_insert_eq.
Qed.

(** The tag of the file that a submission with these settings writes. *)
Lemma processed_by_files filePath st fd w processed d w1 :
  processed_by host filePath st fd w processed d w1 →
  (processed = filePath ∧ files w1 = files w)
  ∨ (processed
     = outputPath host filePath
         (if duplex st then str "odd"
          else if is_1up (layout st) then str "range"
          else layout_name (layout st))
         (clock host (readings w))
     ∧ files w1 = <[processed := d]> (files w)).
Proof.
  unfold processed_by. destruct (duplex st).
  { intros (doc & ps & _ & _ & -> & -> & ->). auto. }
  destruct (is_1up (layout st)); simpl.
  2:{ intros (doc & ps & _ & _ & -> & -> & ->). auto. }
  destruct (pageRange st) as [[|c range]|].
  - intros (-> & -> & ->). by left.
  - intros (doc & ps & _ & _ & -> & -> & ->). auto.
  - intros (-> & -> & ->). by left.
Qed.

(** X15.  The cleanup timers.  A request that is not answered with
    success schedules no removal.  The file whose removal a submission
    schedules is never the upload: it is the file that the request wrote,
    at the output path of the upload for the tag of the processing done
    ([odd] for duplex, else the name of the N-up layout, else [range]) and
    the time of writing; the file of a resume request is at the output
    path for the tag [even].  The file exists when the request is
    answered, and once the timer has fired the file system is as it was
    before the request, provided the name was unused then. *)
Theorem cleanup_timer_undoes_artifact :
  (∀ req w w' resp timer,
     post_api_print_timed host req w = (Returned (resp, timer), w') →
     (code resp ≠ 200 → timer = None)
     ∧ ∀ p, timer = Some p →
         let filePath := path_join host (UPLOAD_DIR host) (filename req) in
         p ≠ filePath
         ∧ (∃ st, settings req = Some st
                  ∧ p = outputPath host filePath
                          (if duplex st then str "odd"
                           else if is_1up (layout st) then str "range"
                           else layout_name (layout st))
                          (clock host (2 + readings w)))
         ∧ is_Some (files w' !! p)
         ∧ (files w !! p = None → files (snd (fs_remove p w')) = files w))
  ∧ (∀ req w w' resp timer,
       post_api_print_even_timed host req w = (Returned (resp, timer), w') →
       (code resp ≠ 200 → timer = None)
       ∧ ∀ p, timer = Some p →
           p = outputPath host
                 (path_join host (UPLOAD_DIR host) (PrintEven.filename req))
                 (str "even") (clock host (readings w))
           ∧ is_Some (files w' !! p)
           ∧ (files w !! p = None → files (snd (fs_remove p w')) = files w)).
Proof.
  split.
  - intros req w w' resp timer Hrun.
    destruct (post_api_print_timed_cases host req w w' resp timer Hrun)
      as [(_ & -> & _) | [(_ & -> & _) | [(_ & -> & _) | (Hcode & H)]]];
      try done.
    split; [done|]. intros p Hp. cbv zeta.
    destruct H as (st & fd & processed & d & w1 & job0 & job & cups & Hst & _
                   & Hby%processed_by_files & _ & Htimer & _ & -> & _).
    rewrite Htimer in Hp. case_bool_decide as Hne; [|done].
    injection Hp as <-.
    destruct Hby as [[-> _] | [Hpath Hfiles]]; [done|].
    split_and!; try done.
    + by exists st.
    + simpl. rewrite Hfiles, lookup_insert_eq. eauto.
    + intros Hfresh. simpl. rewrite Hfiles. by apply delete_insert_id.
  - intros req w w' resp timer Hrun.
    destruct (post_api_print_even_timed_cases host req w w' resp timer Hrun)
      as [(_ & -> & _) | [(_ & -> & _) | [(_ & -> & _) | (Hcode & H)]]];
      try done.
    split; [done|]. intros p Hp.
    destruct H as (j & doc & evenDoc & job & cups & _ & _ & _ & _ & Htimer & _
                   & -> & _).
    rewrite Htimer in Hp. injection Hp as <-.
    split_and!.
    + done.
    + simpl. rewrite lookup_insert_eq. eauto.
    + intros Hfresh. simpl. by apply delete_insert_id.
Qed.

(** The upload route on a stored file. *)
Lemma post_api_upload_run (f : Upload.MulterFile) (w : World) :
  Upload.post_api_upload (Some f) w
  = (Returned
       match files w !! Upload.path f with
       | Some (PdfBytes doc) =>
           Upload.Uploaded
             {| Upload.res_filename := Upload.filename f;
                Upload.originalName := Upload.originalname f;
                Upload.res_size := Upload.size f;
                Upload.pageCount := Z.of_nat (List.length doc) |}
       | _ => Upload.Failed 500 (str "Failed to process uploaded file")
       end, w).
Proof.
  unfold Upload.post_api_upload, try_catch.
  io_unfold. unfold getPageCount. io_unfold. rewrite load_eq.
  by destruct (files w !! Upload.path f) as [[doc|raw|]|].
Qed.

(** X16.  [POST /api/upload] always answers and changes nothing.  It
    answers with the stored name, the original name, the size and the page
    count of the document when the stored file is a PDF; with 400 when
    the request carries no file; with 500 when the stored file is no PDF
    or cannot be read. *)
Theorem upload_answers (file : option Upload.MulterFile) (w : World) :
  ∃ answer,
    Upload.post_api_upload file w = (Returned answer, w)
    ∧ match answer with
      | Upload.Uploaded r =>
          ∃ f doc,
            file = Some f
            ∧ files w !! Upload.path f = Some (PdfBytes doc)
            ∧ Upload.pageCount r = Z.of_nat (List.length doc)
            ∧ Upload.res_filename r = Upload.filename f
            ∧ Upload.originalName r = Upload.originalname f
            ∧ Upload.res_size r = Upload.size f
      | Upload.Failed code _ =>
          (code = 400 ∧ file = None)
          ∨ (code = 500
             ∧ ∃ f, file = Some f
                    ∧ ∀ doc, files w !! Upload.path f ≠ Some (PdfBytes doc))
      end.
Proof.
  destruct file as [f|]; [|eexists; split; [reflexivity|]; by left].
  eexists. split; [apply post_api_upload_run|].
  destruct (files w !! Upload.path f) as [[doc|raw|]|] eqn:Hf.
  - by exists f, doc.
  - right. split; [done|]. exists f. split; [done|]. intros doc H; congruence.
  - right. split; [done|]. exists f. split; [done|]. intros doc H; congruence.
  - right. split; [done|]. exists f. split; [done|]. intros doc H; congruence.
Qed.

(** X17.  The page count that the upload route reports is the
    [totalPages] of the duplex job submitted for that upload, when multer
    stored the file in the upload directory under the name it reports and
    the odd pages' file is written beside the upload, not over it. *)
Theorem upload_page_count_is_total_pages (f : Upload.MulterFile)
  (r : Upload.UploadResponse) (req : PrintRequest) (st : PrintSettings)
  (w w0 w' : World) (resp : Response) :
  let filePath := path_join host (UPLOAD_DIR host) (filename req) in
  let artifact :=
    outputPath host filePath (str "odd") (clock host (2 + readings w0)) in
  Upload.path f = path_join host (UPLOAD_DIR host) (Upload.filename f) →
  Upload.post_api_upload (Some f) w = (Returned (Upload.Uploaded r), w0) →
  filename req = Upload.res_filename r →
  settings req = Some st →
  duplex st = true →
  artifact ≠ filePath →
  post_api_print host req w0 = (Returned resp, w') →
  code resp = 200 →
  ∃ jobId cups job,
    body resp = JobBody jobId cups (Some job)
    ∧ status job = awaiting_even_pages
    ∧ totalPages job = Some (Upload.pageCount r).
Proof.
  intros filePath artifact Hpath Hup Hname Hst Hduplex Hfresh Hrun Hcode.
  rewrite post_api_upload_run in Hup.
  destruct (files w !! Upload.path f) as [[doc|raw|]|] eqn:Hfile;
    try discriminate Hup.
  injection Hup as <- <-.
  destruct (post_api_print_timed_of host req w w' resp Hrun)
    as [timer Htimed].
  destruct (duplex_submission_run host req st w w' resp timer Hst Hduplex
              Htimed Hcode)
    as (doc1 & oddDoc & doc' & cups & job0 & job & _ & _ & _ & _ & Hbody & _
        & Hstatus & _ & Hdoc' & Htotal).
  fold filePath artifact in Hdoc'.
  rewrite lookup_insert_ne in Hdoc' by done.
  unfold filePath in Hdoc'. rewrite Hname in Hdoc'. simpl in Hdoc'.
  rewrite <- Hpath, Hfile in Hdoc'. injection Hdoc' as <-.
  exists (jobId_in host w), cups, job. split_and!; try done.
Qed.

End OtherRoutes.


(** The status route after the duplex submission of the scenario. *)
Lemma status_reads_back_witness :
  let host := Scenario.host Scenario.accepted in
  let w' := snd (Routes.post_api_print_timed host Scenario.duplex_request
                   Scenario.world) in
  ∃ job, Some Scenario.awaiting = Some job
         ∧ Routes.get_api_status Scenario.jobId w'
           = (Returned (Routes.StatusJob job), w').
Proof.
  intros host w'.
  apply (proj1 (proj2 (status_reads_back host)) Scenario.duplex_request
           Scenario.world w' Scenario.odd_response
           (Some (str "temp/doc-odd-1700000000002.pdf")) Scenario.jobId 7).
  - vm_compute. reflexivity.
  - reflexivity.
Defined.

(** The timer of the 2-up submission of the scenario. *)
Lemma cleanup_timer_undoes_artifact_witness :
  let host := Scenario.host Scenario.accepted in
  let p := str "temp/doc-2-up-1700000000002.pdf" in
  let filePath :=
    path_join host (UPLOAD_DIR host) (filename Tour.nup_request) in
  p ≠ filePath
  ∧ (∃ st, settings Tour.nup_request = Some st
           ∧ p = outputPath host filePath
                   (if duplex st then str "odd"
                    else if Server.is_1up (layout st) then str "range"
                    else layout_name (layout st))
                   (clock host (2 + readings Scenario.world)))
  ∧ is_Some (files (snd Tour.after_nup) !! p)
  ∧ (files Scenario.world !! p = None →
     files (snd (Routes.fs_remove p (snd Tour.after_nup)))
     = files Scenario.world).
Proof.
  intros host p.
  apply (proj1 (cleanup_timer_undoes_artifact host) Tour.nup_request
           Scenario.world (snd Tour.after_nup) Tour.submitted_response
           (Some p)).
  - vm_compute. reflexivity.
  - reflexivity.
Defined.

(** The upload of the scenario, then its duplex submission. *)
Lemma upload_page_count_is_total_pages_witness :
  let r := {| Upload.res_filename := str "doc.pdf";
              Upload.originalName := str "Report.pdf";
              Upload.res_size := 48213;
              Upload.pageCount := 4 |} in
  ∃ jobId cups job,
    Server.body Scenario.odd_response = Server.JobBody jobId cups (Some job)
    ∧ status job = awaiting_even_pages
    ∧ totalPages job = Some (Upload.pageCount r).
Proof.
  intros r.
  apply (upload_page_count_is_total_pages (Scenario.host Scenario.accepted)
           Tour.upload r Scenario.duplex_request Scenario.duplex_settings
           Scenario.world Scenario.world (snd Scenario.after_odd)
           Scenario.odd_response).
  - reflexivity.
  - vm_compute. reflexivity.
  - reflexivity.
  - reflexivity.
  - reflexivity.
  - intros H. vm_compute in H. discriminate H.
  - vm_compute. reflexivity.
  - reflexivity.
Defined.

(** ** The sweep of the scratch directory *)

Section Sweep.

Import TempFiles.

Variable now : Z.
Variable maxAge : number.

(** The loop over a listing without repetition, every name of which is in
    the directory: it throws nothing, and removes of the listed files those
    that are too old. *)
Lemma cleanup_loop_run (names : list jsstring) (dir : gmap jsstring Q) :
  NoDup names →
  (∀ name, name ∈ names → is_Some (dir !! name)) →
  ∃ dir',
    cleanup_loop now maxAge names dir = (Returned tt, dir')
    ∧ ∀ k, dir' !! k
           = match dir !! k with
             | Some mtimeMs =>
                 if bool_decide (k ∈ names) && older now maxAge mtimeMs
                 then None else Some mtimeMs
             | None => None
             end.
Proof.
  intros Hnodup. revert dir.
  induction Hnodup as [|file rest Hfile Hrest IH]; intros dir Hin; simpl.
  - exists dir. split; [done|]. intros k. by destruct (dir !! k).
  - destruct (Hin file) as [mtimeMs Hm]; [by left|]. rewrite Hm.
    set (dir1 := if older now maxAge mtimeMs then delete file dir else dir).
    assert (∀ k, k ≠ file → dir1 !! k = dir !! k) as Hother.
    { intros k Hk. unfold dir1. destruct (older _ _ _); [|done].
      by apply lookup_delete_ne. }
    destruct (IH dir1) as (dir' & -> & Hdir').
    { intros name Hname. rewrite Hother; [apply Hin; by right|].
      by intros ->. }
    exists dir'. split; [done|]. intros k. rewrite Hdir'.
    destruct (decide (k = file)) as [->|Hk].
    + rewrite Hm. rewrite (bool_decide_eq_false_2 (file ∈ rest)) by done.
      rewrite (bool_decide_eq_true_2 (file ∈ file :: rest)) by left.
      unfold dir1. simpl. destruct (older now maxAge mtimeMs).
      * by rewrite lookup_delete_eq.
      * by rewrite Hm.
    + rewrite Hother by done. destruct (dir !! k) as [m|]; [|done].
      assert (bool_decide (k ∈ rest) = bool_decide (k ∈ file :: rest)) as ->;
        [|done].
      apply bool_decide_ext. rewrite elem_of_cons. tauto.
Qed.

(** The same for the listing that [readdir] gives. *)
Lemma cleanupTempFiles_run (dir : gmap jsstring Q) :
  ∃ dir',
    cleanupTempFiles now maxAge dir = (Returned tt, dir')
    ∧ ∀ name, dir' !! name
              = match dir !! name with
                | Some mtimeMs =>
                    if older now maxAge mtimeMs then None else Some mtimeMs
                | None => None
                end.
Proof.
  unfold cleanupTempFiles, readdir.
  destruct (cleanup_loop_run (map_to_list dir).*1 dir) as (dir' & Hrun & Hdir').
  - apply NoDup_fst_map_to_list.
  - intros name ([k m] & -> & Hkm%elem_of_map_to_list)%list_elem_of_fmap.
    by exists m.
  - exists dir'. split; [done|]. intros name. rewrite Hdir'.
    destruct (dir !! name) as [m|] eqn:Hm; [|done].
    rewrite bool_decide_eq_true_2; [done|].
    apply list_elem_of_fmap. exists (name, m). split; [done|].
    by apply elem_of_map_to_list.
Qed.

End Sweep.

(** X18.  [cleanupTempFiles] throws nothing although it removes files
    of the listing it walks, and it removes exactly the old: a file is
    left, with its time stamp, exactly when [now - mtimeMs <= maxAge];
    with [maxAge] NaN every file is left. *)
Theorem cleanupTempFiles_removes_the_old (now : Z) (maxAge : number)
  (dir : gmap jsstring Q) :
  ∃ dir',
    TempFiles.cleanupTempFiles now maxAge dir = (Returned tt, dir')
    ∧ ∀ name mtimeMs,
        dir' !! name = Some mtimeMs
        ↔ dir !! name = Some mtimeMs
          ∧ match maxAge with
            | Num age => (inject_Z now - mtimeMs <= inject_Z age)%Q
            | NaN => True
            end.
Proof.
  destruct (cleanupTempFiles_run now maxAge dir) as (dir' & Hrun & Hdir').
  exists dir'. split; [done|]. intros name mtimeMs. rewrite Hdir'.
  destruct (dir !! name) as [m|]; [|by split; [|intros [? _]]].
  unfold TempFiles.older. destruct maxAge as [|age].
  - split; [by intros [= ->]|by intros [[= ->] _]].
  - destruct (Qlt_le_dec _ _) as [Hlt|Hle].
    + split; [done|]. intros [[= ->] Hle].
      by apply Qlt_not_le in Hlt.
    + split; [by intros [= ->]|by intros [[= ->] _]].
Qed.

(** A numeral is not the empty string. *)
Lemma truthy_toString z : truthy (toString z) = true.
Proof.
  destruct z as [|p|p]; [reflexivity| |].
  - unfold toString. simpl.
    destruct (to_uint_digits p) as (v & ds & Hd & -> & _).
    by rewrite str_uint, Hd.
  - reflexivity.
Qed.

(** X19.  The sweep reads its age limit from [TEMP_FILE_CLEANUP]: one
    hour when the variable is unset or empty, the number when it holds a
    decimal integer; a non-empty value that [parseInt] does not read makes
    the sweep remove nothing. *)
Theorem sweep_setting (now : Z) (dir : gmap jsstring Q) :
  TempFiles.sweep None now dir
  = TempFiles.cleanupTempFiles now (Num 3600000) dir
  ∧ TempFiles.sweep (Some []) now dir
    = TempFiles.cleanupTempFiles now (Num 3600000) dir
  ∧ (∀ age, TempFiles.sweep (Some (toString age)) now dir
            = TempFiles.cleanupTempFiles now (Num age) dir)
  ∧ (∀ v, v ≠ [] → parseInt v = NaN →
          TempFiles.sweep (Some v) now dir = (Returned tt, dir)).
Proof.
  split_and!.
  - reflexivity.
  - reflexivity.
  - intros age. unfold TempFiles.sweep, TempFiles.sweep_maxAge.
    by rewrite truthy_toString, parseInt_toString.
  - intros v Hv Hnan. unfold TempFiles.sweep, TempFiles.sweep_maxAge.
    destruct v as [|c v]; [done|]. simpl truthy. cbv iota. rewrite Hnan.
    destruct (cleanupTempFiles_run now NaN dir) as (dir' & -> & Hdir').
    f_equal. apply map_eq. intros k. rewrite Hdir'.
    by destruct (dir !! k).
Qed.

(** A setting of one hour written in words is no number: the sweep of
    the scenario removes nothing. *)
Lemma sweep_setting_witness :
  TempFiles.sweep (Some (str "one hour")) Tour.now Tour.scratch
  = (Returned tt, Tour.scratch).
Proof.
  apply (proj2 (proj2 (proj2 (sweep_setting Tour.now Tour.scratch)))).
  - discriminate.
  - reflexivity.
Defined.

(** ** The settings panel and the copies *)

(** X20.  The copies field of the settings panel, for a value that
    [parseInt] reads as no number or as an integer of magnitude at most
    2^53 (the integers that the engine stores as they are; beyond them
    the model gives no settings).  The change touches the copies only
    and never stores zero: a non-zero integer is stored as it is (the
    bounds of the input element do not apply), anything else as 1; the
    server's [copies || 1] passes the stored number on. *)
Theorem copies_field (st : PrintSettings) (value : jsstring) :
  (is_Some (PrintSettingsPanel.change_copies st value)
   ↔ ∀ z, parseInt value = Num z → Z.abs z ≤ 2 ^ 53)
  ∧ (∀ st',
       PrintSettingsPanel.change_copies st value = Some st' →
       (duplex st' = duplex st ∧ layout st' = layout st
        ∧ pageRange st' = pageRange st)
       ∧ ∃ c, copies st' = Some c
              ∧ c ≠ 0
              ∧ Server.or_1 (copies st') = c
              ∧ (parseInt value = NaN ∨ parseInt value = Num 0 → c = 1)
              ∧ (∀ z, z ≠ 0 → parseInt value = Num z → c = z))
  ∧ (∀ z, z ≠ 0 → Z.abs z ≤ 2 ^ 53 → value = toString z →
       ∃ st', PrintSettingsPanel.change_copies st value = Some st'
              ∧ copies st' = Some z).
Proof.
  unfold PrintSettingsPanel.change_copies. split_and!.
  - destruct (parseInt value) as [|n] eqn:Hn.
    + split; [done|]. intros _. by eexists.
    + destruct (Z.leb_spec (Z.abs n) (2 ^ 53)) as [Hle|Hgt].
      * split; [by intros _ z [= <-]|]. intros _. by eexists.
      * split; [by intros [? ?]|]. intros Hall.
        specialize (Hall n eq_refl). lia.
  - intros st' Hst'.
    destruct (parseInt value) as [|n] eqn:Hn.
    + injection Hst' as <-. split; [done|]. simpl.
      exists 1. by split_and!.
    + destruct (Z.abs n <=? 2 ^ 53); [|done].
      injection Hst' as <-. split; [done|]. simpl.
      destruct (Z.eqb_spec n 0) as [->|Hne].
      * exists 1. split_and!; try done. by intros z Hz [= <-].
      * exists n. split_and!; try done.
        -- by destruct (Z.eqb_spec n 0).
        -- intros [H|H]; [discriminate H|by injection H].
        -- by intros z Hz [= <-].
  - intros z Hz Hle ->. rewrite parseInt_toString.
    destruct (Z.leb_spec (Z.abs z) (2 ^ 53)); [|lia].
    destruct (Z.eqb_spec z 0); [done|]. by eexists.
Qed.

(** Two copies typed with a sign, and a typed letter. *)
Lemma copies_field_witness :
  (∃ st', PrintSettingsPanel.change_copies Tour.nup_settings (str "-2")
          = Some st' ∧ copies st' = Some (-2))
  ∧ (∃ st' c, PrintSettingsPanel.change_copies Tour.nup_settings (str "x")
              = Some st' ∧ copies st' = Some c ∧ c = 1).
Proof.
  destruct (copies_field Tour.nup_settings (str "-2")) as (_ & _ & Htyped).
  destruct (copies_field Tour.nup_settings (str "x")) as (_ & Hany & _).
  split.
  - apply (Htyped (-2)); [lia|lia|reflexivity].
  - destruct (Hany {| duplex := false; layout := L2up; pageRange := None;
                      copies := Some 1 |} eq_refl)
      as (_ & c & Hc & _ & _ & Hone & _).
    eexists _, c. split; [reflexivity|]. split; [exact Hc|].
    apply Hone. left. reflexivity.
Defined.

(** ** More on the N-up layout *)

Section NUpPages.

Variable pdfDoc : PDFDocument.
Variable pages : list Z.
Variable layout : Layout.

Hypothesis pages_valid :
  Forall (λ n, 1 ≤ n ≤ Z.of_nat (List.length pdfDoc)) pages.

(** The sheets that the outer loop appends carry, read sheet after sheet,
    the pages that the numbers from [i] on name. *)
Lemma sheets_loop_pages i newPdfDoc :
  ∃ sheets,
    sheets_loop pdfDoc pages layout i newPdfDoc = Returned (newPdfDoc ++ sheets)
    ∧ Forall2 (names pdfDoc) (concat (map drawn_pages sheets)) (drop i pages).
Proof.
  assert (0 < pagesPerSheet layout)%nat as Hpps.
  { unfold pagesPerSheet. destruct layout; lia. }
  remember (List.length pages - i)%nat as n eqn:Hn. revert i newPdfDoc Hn.
  induction n as [n IH] using lt_wf_ind; intros i newPdfDoc Hn.
  rewrite sheets_loop_step.
  destruct (Nat.ltb_spec i (List.length pages)) as [Hlt|Hge].
  - destruct (cells_loop_spec pdfDoc pages layout pages_valid i 0 [])
      as (ps & -> & Hps).
    destruct (IH (List.length pages - (i + pagesPerSheet layout))%nat
                ltac:(lia) (i + pagesPerSheet layout)%nat
                (newPdfDoc
                 ++ [Sheet sheetWidth sheetHeight
                       ([] ++ imap (λ k p, place layout (0 + k) p) ps)])
                eq_refl) as (sheets & -> & Hsheets).
    exists (sheet_of layout ps :: sheets). split.
    + rewrite <- app_assoc. reflexivity.
    + change (concat (map drawn_pages (sheet_of layout ps :: sheets)))
        with (drawn_pages (sheet_of layout ps)
              ++ concat (map drawn_pages sheets)).
      rewrite drawn_pages_sheet_of.
      rewrite <- (take_drop (pagesPerSheet layout) (drop i pages)).
      apply Forall2_app.
      * by rewrite Nat.sub_0_r, Nat.add_0_r in Hps.
      * by rewrite drop_drop.
  - exists []. rewrite app_nil_r. split; [done|].
    rewrite drop_ge by lia. constructor.
Qed.

End NUpPages.

(** X21.  The sheets of [createNUpLayout], read sheet after sheet and
    cell after cell, carry the selected pages in their order: every
    selected page is drawn exactly once. *)
Theorem compose_NUp_draws_each_page_once (pdfDoc : PDFDocument)
  (layout : Layout) (pageRange : option jsstring) :
  ∃ sheets,
    compose_NUp pdfDoc layout pageRange = Returned sheets
    ∧ Forall2 (names pdfDoc) (concat (map drawn_pages sheets))
        (pagesToProcess pageRange (Z.of_nat (List.length pdfDoc))).
Proof.
  unfold compose_NUp.
  destruct (sheets_loop_pages pdfDoc
              (pagesToProcess pageRange (Z.of_nat (List.length pdfDoc))) layout)
    with (i := 0%nat) (newPdfDoc := @nil Page) as (sheets & Heq & Hpages).
  { apply Forall_forall. intros x. apply pagesToProcess_bounds. }
  exists sheets. split; [done|]. done.
Qed.

(** *** Boxes *)

Section Boxes.

Local Open Scope Q_scope.

(** A page of positive size is drawn inside the cell of its position. *)
Lemma place_in_cell (layout : Layout) (j : nat) (p : Page) (L B CW CH : Q) :
  0 < page_width p → 0 < page_height p →
  L == of_nat (j mod cols layout) * cellWidth layout →
  B == sheetHeight - (of_nat (j / cols layout) + 1) * cellHeight layout →
  CW == cellWidth layout →
  CH == cellHeight layout →
  let d := place layout j p in
  L <= box_left d ∧ box_right d <= L + CW
  ∧ B <= box_bottom d ∧ box_top d <= B + CH.
Proof.
  intros Hw Hh HL HB HCW HCH d.
  destruct (scale_bounds layout p Hw Hh) as [Hsw Hsh].
  unfold d, box_left, box_right, box_bottom, box_top, place. simpl.
  set (s := Qmin (cellWidth layout / page_width p)
              (cellHeight layout / page_height p) * (95 # 100)) in *.
  assert (0 <= s) as Hs.
  { unfold s. apply Qmult_le_0_compat; [|done].
    destruct (cell_size_pos layout) as [Hcw Hch].
    apply Q.min_glb; apply Qlt_le_weak, Qlt_shift_div_l; lra. }
  assert (0 <= page_width p * s) by (apply Qmult_le_0_compat; lra).
  assert (0 <= page_height p * s) by (apply Qmult_le_0_compat; lra).
  set (ws := page_width p * s) in *. set (hs := page_height p * s) in *.
  rewrite <- HL, <- HB, <- HCW, <- HCH. clearbody ws hs.
  setoid_replace (L + (CW - ws) / 2) with (L + (CW - ws) * (1 # 2))
    using relation Qeq by field.
  setoid_replace (B + (CH - hs) / 2) with (B + (CH - hs) * (1 # 2))
    using relation Qeq by field.
  rewrite HCW, HCH in *. split_and!; lra.
Qed.

End Boxes.

(** The cell of a position, in numbers. *)
Ltac in_cell layout j p Hw Hh :=
  let L := eval vm_compute in
             (of_nat (j mod cols layout) * cellWidth layout)%Q in
  let B := eval vm_compute in
             (sheetHeight - (of_nat (j / cols layout) + 1) * cellHeight layout)%Q in
  let CW := eval vm_compute in (cellWidth layout) in
  let CH := eval vm_compute in (cellHeight layout) in
  pose proof (place_in_cell layout j p L B CW CH Hw Hh
                ltac:(reflexivity) ltac:(reflexivity)
                ltac:(reflexivity) ltac:(reflexivity)).

(** A page of positive size drawn at a position of the grid lies on the
    sheet. *)
Lemma place_in_sheet (layout : Layout) (j : nat) (p : Page) :
  (j < pagesPerSheet layout)%nat →
  (0 < page_width p)%Q → (0 < page_height p)%Q →
  let d := place layout j p in
  (0 <= box_left d ∧ box_right d <= sheetWidth
   ∧ 0 <= box_bottom d ∧ box_top d <= sheetHeight)%Q.
Proof.
  intros Hj Hw Hh d. unfold d, sheetWidth, sheetHeight.
  destruct layout; simpl in Hj;
    do 4 (try destruct j as [|j]); try lia;
    match goal with
    | |- context [place ?l ?k p] => in_cell l k p Hw Hh
    end;
    simpl in *; split_and!; lra.
Qed.

(** Pages drawn at two positions of the grid do not overlap. *)
Lemma place_apart (layout : Layout) (j1 j2 : nat) (p1 p2 : Page) :
  (j1 < pagesPerSheet layout)%nat → (j2 < pagesPerSheet layout)%nat →
  j1 ≠ j2 →
  (0 < page_width p1)%Q → (0 < page_height p1)%Q →
  (0 < page_width p2)%Q → (0 < page_height p2)%Q →
  apart (place layout j1 p1) (place layout j2 p2).
Proof.
  intros Hj1 Hj2 Hne Hw1 Hh1 Hw2 Hh2. unfold apart.
  destruct layout; simpl in Hj1, Hj2;
    do 4 (try destruct j1 as [|j1]); try lia;
    do 4 (try destruct j2 as [|j2]); try lia;
    match goal with
    | |- context [box_right (place ?l ?k1 p1)] =>
        match goal with
        | |- context [box_right (place l ?k2 p2)] =>
            in_cell l k1 p1 Hw1 Hh1; in_cell l k2 p2 Hw2 Hh2
        end
    end;
    simpl in *; lra.
Qed.

(** X22.  On every sheet of [createNUpLayout], when the pages of the
    source have positive width and height, every drawn page lies within
    the sheet and no two drawn pages overlap. *)
Theorem compose_NUp_boxes_apart (pdfDoc : PDFDocument) (layout : Layout)
  (pageRange : option jsstring) :
  Forall (λ p, 0 < page_width p ∧ 0 < page_height p)%Q pdfDoc →
  ∃ sheets,
    compose_NUp pdfDoc layout pageRange = Returned sheets
    ∧ ∀ k sh, sheets !! k = Some sh →
        (∀ j d, draws_of sh !! j = Some d →
           (0 <= box_left d ∧ box_right d <= page_width sh
            ∧ 0 <= box_bottom d ∧ box_top d <= page_height sh)%Q)
        ∧ (∀ j1 j2 d1 d2,
             j1 ≠ j2 →
             draws_of sh !! j1 = Some d1 →
             draws_of sh !! j2 = Some d2 →
             apart d1 d2).
Proof.
  intros Hsizes.
  destruct (compose_NUp_spec pdfDoc layout pageRange)
    as (sheets & Heq & _ & Hsheets).
  exists sheets. split; [done|]. intros k sh Hk.
  destruct (Hsheets k sh Hk) as (ps & -> & Hps).
  assert (∀ j d, draws_of (sheet_of layout ps) !! j = Some d →
            ∃ p, d = place layout j p
                 ∧ (j < pagesPerSheet layout)%nat
                 ∧ (0 < page_width p ∧ 0 < page_height p)%Q) as Hdraw.
  { intros j d Hd. unfold sheet_of, draws_of in Hd.
    rewrite list_lookup_imap in Hd.
    destruct (ps !! j) as [p|] eqn:Hp; [|done]. injection Hd as <-.
    exists p. split; [done|]. split.
    - apply lookup_lt_Some in Hp.
      rewrite (Forall2_length _ _ _ Hps), length_take in Hp. lia.
    - destruct (Forall2_lookup_l _ _ _ _ _ Hps Hp) as (n & _ & Hn).
      rewrite Forall_forall in Hsizes. apply Hsizes.
      eapply list_elem_of_lookup_2. exact Hn. }
  split.
  - intros j d (p & -> & Hj & Hw & Hh)%Hdraw.
    by apply place_in_sheet.
  - intros j1 j2 d1 d2 Hne (p1 & -> & Hj1 & Hw1 & Hh1)%Hdraw
      (p2 & -> & Hj2 & Hw2 & Hh2)%Hdraw.
    by apply place_apart.
Qed.

(** Four A4 pages 4-up. *)
Lemma compose_NUp_boxes_apart_witness :
  let pdfDoc := [Scenario.page 1; Scenario.page 2; Scenario.page 3;
                 Scenario.page 4] in
  ∃ sheets,
    compose_NUp pdfDoc L4up None = Returned sheets
    ∧ ∀ k sh, sheets !! k = Some sh →
        (∀ j d, draws_of sh !! j = Some d →
           (0 <= box_left d ∧ box_right d <= page_width sh
            ∧ 0 <= box_bottom d ∧ box_top d <= page_height sh)%Q)
        ∧ (∀ j1 j2 d1 d2,
             j1 ≠ j2 →
             draws_of sh !! j1 = Some d1 →
             draws_of sh !! j2 = Some d2 →
             apart d1 d2).
Proof.
  intros pdfDoc. apply (compose_NUp_boxes_apart pdfDoc L4up None).
  repeat constructor.
Defined.

(** ** Requests that are turned away *)

Opaque str.

Section Rejections.

Import Server Routes.

Variable host : Platform.

(** The requests that are answered 400, and the resume request that is
    answered 404. *)
Lemma post_api_print_timed_400 (req : PrintRequest) (w : World) :
  settings req = None ∨ filename req = [] →
  ∃ msg, post_api_print_timed host req w
         = (Returned ({| code := 400; body := ErrorBody msg |}, None), w).
Proof.
  intros Hbad. unfold post_api_print_timed, try_catch, print_try_timed.
  destruct (settings req) as [st|]; [|by eexists].
  destruct Hbad as [?| ->]; [done|]. by eexists.
Qed.

Lemma post_api_print_even_timed_400 (req : PrintEven.Body) (w : World) :
  PrintEven.jobId req = [] ∨ PrintEven.filename req = []
  ∨ printJobs w !! PrintEven.jobId req = None
  ∨ (∃ j, printJobs w !! PrintEven.jobId req = Some j
          ∧ status j ≠ awaiting_even_pages) →
  ∃ msg, post_api_print_even_timed host req w
         = (Returned ({| code := 400; body := ErrorBody msg |}, None), w).
Proof.
  intros Hbad.
  unfold post_api_print_even_timed, try_catch, print_even_try_timed.
  destruct (truthy (PrintEven.jobId req) && truthy (PrintEven.filename req))
    eqn:Hgiven; [|by eexists].
  destruct Hbad as [Hbad | [Hbad | Hbad]];
    try (rewrite Hbad in Hgiven; simpl in Hgiven;
         rewrite ?andb_false_r in Hgiven; discriminate Hgiven).
  io_unfold. unfold printJobs_get.
  destruct Hbad as [-> | (j & -> & Hj)]; [by eexists|].
  destruct (status j); first [by destruct Hj | by eexists].
Qed.

Lemma post_api_print_even_timed_404 (req : PrintEven.Body) (w : World) j :
  PrintEven.jobId req ≠ [] →
  PrintEven.filename req ≠ [] →
  printJobs w !! PrintEven.jobId req = Some j →
  status j = awaiting_even_pages →
  files w !! path_join host (UPLOAD_DIR host) (PrintEven.filename req) = None →
  ∃ msg, post_api_print_even_timed host req w
         = (Returned ({| code := 404; body := ErrorBody msg |}, None), w).
Proof.
  intros Hid Hname Hj Hstatus Hnone.
  unfold post_api_print_even_timed, try_catch, print_even_try_timed.
  destruct (PrintEven.jobId req) as [|c0 jobId0] eqn:HjobId; [done|].
  destruct (PrintEven.filename req) as [|c1 filename0] eqn:Hfilename; [done|].
  change (truthy (c0 :: jobId0) && truthy (c1 :: filename0)) with true.
  cbv iota. io_unfold. unfold printJobs_get. cbv beta.
  rewrite Hj, Hstatus. change (is_awaiting awaiting_even_pages) with true.
  cbv beta iota. unfold pathExists. cbv beta.
  rewrite bool_decide_eq_false_2 by (rewrite Hnone; intros [? ?]; done).
  by eexists.
Qed.

(** X23.  The client errors, exactly.  A submission that is answered is
    answered 400 exactly when it lacks the settings or the file name, and
    404 exactly when it has both and there is nothing at the path of the
    upload, neither a file nor a directory.  A resume request that is
    answered is answered 400 exactly when it lacks the job id or the file
    name or its job is unknown or not [awaiting-even-pages], and 404
    exactly when none of this holds and there is nothing at the path of
    the upload: the job is checked before the file.  Either answer leaves
    the world as it was and schedules no removal. *)
Theorem client_errors_exact :
  (∀ req w resp timer w',
     post_api_print_timed host req w = (Returned (resp, timer), w') →
     let filePath := path_join host (UPLOAD_DIR host) (filename req) in
     (code resp = 400 ↔ settings req = None ∨ filename req = [])
     ∧ (code resp = 404
        ↔ settings req ≠ None ∧ filename req ≠ []
          ∧ files w !! filePath = None)
     ∧ (code resp = 400 ∨ code resp = 404 → w' = w ∧ timer = None))
  ∧ (∀ req w resp timer w',
       post_api_print_even_timed host req w = (Returned (resp, timer), w') →
       let jobId := PrintEven.jobId req in
       let filename := PrintEven.filename req in
       let filePath := path_join host (UPLOAD_DIR host) filename in
       let unfit :=
         jobId = [] ∨ filename = [] ∨ printJobs w !! jobId = None
         ∨ (∃ j, printJobs w !! jobId = Some j
                 ∧ status j ≠ awaiting_even_pages) in
       (code resp = 400 ↔ unfit)
       ∧ (code resp = 404 ↔ ¬ unfit ∧ files w !! filePath = None)
       ∧ (code resp = 400 ∨ code resp = 404 → w' = w ∧ timer = None)).
Proof.
  split.
  - intros req w resp timer w' Hrun. cbv zeta.
    assert (settings req = None ∨ filename req = [] → code resp = 400) as H400.
    { intros (msg & Hrun0)%(post_api_print_timed_400 req w).
      rewrite Hrun in Hrun0. by injection Hrun0 as -> _ _. }
    destruct (post_api_print_timed_cases host req w w' resp timer Hrun)
      as [(Hc & -> & -> & Hbad) | [(Hc & -> & -> & Hnone)
         | [(Hc & _ & st & fd & Hst & Hfd & _)
           | (Hc & st & fd & ? & ? & ? & ? & ? & ? & Hst & Hfd & _)]]].
    + split_and!; [done| |done]. rewrite Hc. split; [done|].
      intros (Hs & Hn & _). by destruct Hbad.
    + assert (¬ (settings req = None ∨ filename req = [])) as Hgood.
      { intros Hbad%H400. rewrite Hc in Hbad. discriminate Hbad. }
      split_and!; [|tauto|done].
      rewrite Hc. split; [done|tauto].
    + rewrite Hc. split_and!.
      * split; [done|]. intros Hbad%H400. rewrite Hc in Hbad. done.
      * split; [done|]. intros (_ & _ & Hnone). by rewrite Hfd in Hnone.
      * by intros [?|?].
    + rewrite Hc. split_and!.
      * split; [done|]. intros Hbad%H400. rewrite Hc in Hbad. done.
      * split; [done|]. intros (_ & _ & Hnone). by rewrite Hfd in Hnone.
      * by intros [?|?].
  - intros req w resp timer w' Hrun jobId filename filePath unfit.
    assert (unfit → code resp = 400) as H400.
    { intros (msg & Hrun0)%(post_api_print_even_timed_400 req w).
      rewrite Hrun in Hrun0. by injection Hrun0 as -> _ _. }
    pose proof (post_api_print_even_timed_cases host req w w' resp timer Hrun)
      as Hcases.
    cbv zeta in Hcases. fold jobId filename filePath in Hcases.
    destruct Hcases as [(Hc & -> & -> & Hbad) | [(Hc & -> & -> & Hnone)
                       | [(Hc & _) | (Hc & j & doc & ? & ? & ? & _ & _ & Hfd & _)]]].
    + split_and!; [done| |done]. rewrite Hc. split; [done|].
      by intros [Hfit _].
    + assert (¬ unfit) as Hgood.
      { intros Hbad%H400. rewrite Hc in Hbad. discriminate Hbad. }
      split_and!; [|tauto|done].
      rewrite Hc. split; [done|tauto].
    + rewrite Hc. split_and!.
      * split; [done|]. intros Hbad%H400. rewrite Hc in Hbad. done.
      * split; [done|]. intros [Hfit Hnone].
        destruct (printJobs w !! jobId) as [j|] eqn:Hj;
          [|exfalso; apply Hfit; unfold unfit; auto].
        assert (status j = awaiting_even_pages
                ∨ status j ≠ awaiting_even_pages) as [Hs|Hs]
          by (destruct (status j); (by left) || (by right));
          [|exfalso; apply Hfit; unfold unfit; eauto 10].
        destruct (post_api_print_even_timed_404 req w j) as (msg & Hrun0);
          try done.
        -- intros Hnil. apply Hfit. unfold unfit. auto.
        -- intros Hnil. apply Hfit. unfold unfit. auto.
        -- rewrite Hrun in Hrun0. injection Hrun0 as Hresp _ _.
           rewrite Hresp in Hc. discriminate Hc.
      * by intros [?|?].
    + rewrite Hc. split_and!.
      * split; [done|]. intros Hbad%H400. rewrite Hc in Hbad. done.
      * split; [done|]. intros (_ & Hnone). by rewrite Hfd in Hnone.
      * by intros [?|?].
Qed.

End Rejections.

Transparent str.

(** The resume request of the scenario before any submission. *)
Lemma client_errors_exact_witness :
  let host := Scenario.host Scenario.accepted in
  let req := Scenario.resume_request in
  let w := Scenario.world in
  let resp :=
    {| Server.code := 400;
       Server.body :=
         Server.ErrorBody (str "Invalid job or job not awaiting even pages") |} in
  let jobId := PrintEven.jobId req in
  let filename := PrintEven.filename req in
  let filePath := path_join host (UPLOAD_DIR host) filename in
  let unfit :=
    jobId = [] ∨ filename = [] ∨ printJobs w !! jobId = None
    ∨ (∃ j, printJobs w !! jobId = Some j
            ∧ status j ≠ awaiting_even_pages) in
  (Server.code resp = 400 ↔ unfit)
  ∧ (Server.code resp = 404 ↔ ¬ unfit ∧ files w !! filePath = None)
  ∧ (Server.code resp = 400 ∨ Server.code resp = 404
     → w = w ∧ @None jsstring = None).
Proof.
  intros host req w resp.
  apply (proj2 (client_errors_exact host) req w resp None w).
  vm_compute. reflexivity.
Defined.
